(** * TimeScheme.cpp: the time-integration core of the 1D Saint-Venant solver

    A shallow embedding of [src/code_1D/TimeScheme.cpp]: the base class
    [TimeScheme] (initialisation, probe resolution, output, the time loop
    [solve], the L1/L2 diagnostics) and its two variants [ExplicitEuler]
    and [RK2].

    The arithmetic on [double] is kept abstract behind the class [Scalar],
    so every definition is written once, exactly in the order of operations
    of the source.  Two instances are given: IEEE binary64 (Rocq's primitive
    floats), on which the model runs, and the real numbers, on which the
    algebraic laws of the specification are stated.

    C++ [int] is modelled by [Z] with the operations that are undefined in
    C++ (division by zero, signed overflow) returning a [Fault]; reading a
    vector or a matrix out of range is a [Fault] too. *)

From Stdlib Require Import Floats.
From Stdlib Require Import String.
From Stdlib Require Import Reals Lra Lia ZArith List Bool.
From Stdlib Require Import DecimalString DecimalZ.
Import ListNotations.

Set Implicit Arguments.
Set Warnings "-inexact-float".
Local Open Scope string_scope.
Local Open Scope list_scope.
Local Open Scope Z_scope.

(* ================================================================= *)
(** ** Scalars: the operations the source applies to [double] *)

Class Scalar (D : Type) : Type := {
  dzero : D;                 (* the literal 0. *)
  dhalf : D;                 (* the literal 0.5 *)
  dadd  : D -> D -> D;
  dsub  : D -> D -> D;
  dmul  : D -> D -> D;
  ddiv  : D -> D -> D;
  dabs  : D -> D;            (* abs on double *)
  dsqrt : D -> D;
  dltb  : D -> D -> bool     (* a < b *)
}.

(** IEEE 754 binary64, the type [double] itself. *)
#[export] Instance binary64 : Scalar float := {|
  dzero := 0%float;
  dhalf := 0.5%float;
  dadd  := PrimFloat.add;
  dsub  := PrimFloat.sub;
  dmul  := PrimFloat.mul;
  ddiv  := PrimFloat.div;
  dabs  := PrimFloat.abs;
  dsqrt := PrimFloat.sqrt;
  dltb  := PrimFloat.ltb
|}.

Definition Rltb (a b : R) : bool := if Rlt_dec a b then true else false.

(** Exact real arithmetic, the idealisation of [double]. *)
#[export] Instance exact : Scalar R := {|
  dzero := 0%R;
  dhalf := (1 / 2)%R;
  dadd  := Rplus;
  dsub  := Rminus;
  dmul  := Rmult;
  ddiv  := Rdiv;
  dabs  := Rabs;
  dsqrt := R_sqrt.sqrt;
  dltb  := Rltb
|}.

(* ================================================================= *)
(** ** Faults and fallible computations *)

Inductive fault : Set :=
| DivisionByZero     (* integer [/] or [%] by zero *)
| SignedOverflow     (* [int] arithmetic leaving the 32-bit range *)
| OutOfRange         (* [operator[]] / [operator()] outside the container *)
| ShapeMismatch      (* Eigen coefficient-wise operation on different sizes *)
| LengthError.       (* a container asked to hold a negative number of items *)

Inductive result (A : Type) : Type :=
| Ok (a : A)
| Fault (f : fault).

Arguments Ok {A} a.
Arguments Fault {A} f.

Definition bind {A B : Type} (r : result A) (k : A -> result B) : result B :=
  match r with
  | Ok a => k a
  | Fault f => Fault f
  end.

Notation "x <- e ;; k" := (bind e (fun x => k))
  (at level 61, e at next level, right associativity).

(* ================================================================= *)
(** ** C++ [int] *)

Definition INT_MAX : Z := 2147483647.
Definition INT_MIN : Z := -2147483648.

(** [++n] *)
Definition incr (n : Z) : result Z :=
  if n <? INT_MAX then Ok (n + 1) else Fault SignedOverflow.

(** [a % b] *)
Definition int_rem (a b : Z) : result Z :=
  if b =? 0 then Fault DivisionByZero
  else if (a =? INT_MIN) && (b =? -1) then Fault SignedOverflow
  else Ok (Z.rem a b).

(** [a / b] *)
Definition int_div (a b : Z) : result Z :=
  if b =? 0 then Fault DivisionByZero
  else if (a =? INT_MIN) && (b =? -1) then Fault SignedOverflow
  else Ok (Z.quot a b).

(** [std::to_string(int)] *)
Definition to_string (z : Z) : string := NilZero.string_of_int (Z.to_int z).

(* ================================================================= *)
(** ** Containers: [std::vector] and Eigen vectors *)

(** [v[i]], [v(i)] *)
Definition index {A : Type} (l : list A) (i : Z) : result A :=
  if i <? 0 then Fault OutOfRange
  else match nth_error l (Z.to_nat i) with
       | Some a => Ok a
       | None => Fault OutOfRange
       end.

Fixpoint set_nth {A : Type} (l : list A) (i : nat) (a : A) : list A :=
  match l, i with
  | [], _ => []
  | _ :: l', O => a :: l'
  | x :: l', S i' => x :: set_nth l' i' a
  end.

(** [v[i] = a] *)
Definition assign {A : Type} (l : list A) (i : Z) (a : A) : result (list A) :=
  if (0 <=? i) && (i <? Z.of_nat (length l))
  then Ok (set_nth l (Z.to_nat i) a)
  else Fault OutOfRange.

(** [std::vector<int> v(n, x)] *)
Definition vector_n (n : Z) (x : Z) : result (list Z) :=
  if n <? 0 then Fault LengthError else Ok (repeat x (Z.to_nat n)).

(** [v.resize(n, x)]: the first [n] items are kept, new ones are [x]. *)
Definition vector_resize (l : list Z) (n : Z) (x : Z) : result (list Z) :=
  if n <? 0 then Fault LengthError
  else Ok (firstn (Z.to_nat n) l ++ repeat x (Z.to_nat n - length l)%nat).

(** The loop [for (int i(0) ; i < n ; ++i)] visits these values of [i]. *)
Definition upto (n : Z) : list Z := map Z.of_nat (seq 0 (Z.to_nat n)).

(** A [for] loop whose body may fault. *)
Fixpoint for_each {A S : Type} (body : A -> S -> result S) (l : list A) (s : S)
  : result S :=
  match l with
  | [] => Ok s
  | a :: l' => s' <- body a s ;; for_each body l' s'
  end.

(* ================================================================= *)
(** ** The data model *)

Section Model.

Context {D : Type} {SD : Scalar D}.

(** [Eigen::Matrix<double, Eigen::Dynamic, 2>]: one row (h, q) per cell. *)
Definition Matrix : Type := list (D * D).

Definition rows (m : Matrix) : Z := Z.of_nat (length m).

(** [a * M] *)
Definition mscale (a : D) (m : Matrix) : Matrix :=
  map (fun r => (dmul a (fst r), dmul a (snd r))) m.

(** [M / a] *)
Definition mdivs (m : Matrix) (a : D) : Matrix :=
  map (fun r => (ddiv (fst r) a, ddiv (snd r) a)) m.

(** [A + B], coefficient by coefficient. *)
Fixpoint mplus (a b : Matrix) : Matrix :=
  match a, b with
  | ra :: a', rb :: b' =>
      (dadd (fst ra) (fst rb), dadd (snd ra) (snd rb)) :: mplus a' b'
  | _, _ => []
  end.

Definition mzero (n : nat) : Matrix := repeat (dzero, dzero) n.

(** Eigen evaluates [A + B] (and [A += B]) only on equal sizes. *)
Definition cwiseAdd (a b : Matrix) : result Matrix :=
  if (length a =? length b)%nat then Ok (mplus a b) else Fault ShapeMismatch.

(** [M.resize(n, 2)]: nothing happens when the size is already [n];
    otherwise the storage is reallocated and its contents are whatever
    the allocator left there, here [garbage]. *)
Definition Eigen_resize (garbage : nat -> D * D) (n : Z) (m : Matrix)
  : result Matrix :=
  if n <? 0 then Fault LengthError
  else if rows m =? n then Ok m
  else Ok (map garbage (seq 0 (Z.to_nat n))).

(** *** Collaborators (their headers are not part of the sources; each is
    the interface the calls in TimeScheme.cpp use) *)

Record DataFile : Type := {
  getTimeStep : D;
  getInitialTime : D;
  getFinalTime : D;
  getNumberOfProbes : Z;
  getProbesReferences : list Z;
  getProbesPositions : list D;
  getGravityAcceleration : D;
  getResultsDirectory : string;
  isSaveFinalTimeOnly : bool;
  getSaveFrequency : Z;
  isTestCase : bool;
  getDx : D
}.

Record Mesh : Type := {
  getNumberOfCells : Z;
  getCellCenters : list D;
  getSpaceStep : D
}.

(** [sourceTermOf] and [exactSolutionAt] are what [buildSourceTerm] and
    [buildExactSolution] compute into the collaborator's buffers. *)
Record Physics : Type := {
  getInitialCondition : Matrix;
  getTopography : list D;
  sourceTermOf : Matrix -> Matrix;
  exactSolutionAt : D -> Matrix
}.

Record FiniteVolume : Type := {
  fluxVectorOf : D -> Matrix -> Matrix;
  getFluxName : string
}.

(** *** The object *)

Record TimeScheme : Type := {
  _DF : DataFile;
  _mesh : Mesh;
  _physics : Physics;
  _finVol : FiniteVolume;
  _Sol : Matrix;
  _timeStep : D;
  _initialTime : D;
  _finalTime : D;
  _currentTime : D;
  _nProbes : Z;
  _probesRef : list Z;
  _probesPos : list D;
  _probesIndices : list Z
}.

Definition with_Sol (ts : TimeScheme) (S : Matrix) : TimeScheme :=
  {| _DF := _DF ts; _mesh := _mesh ts; _physics := _physics ts;
     _finVol := _finVol ts; _Sol := S; _timeStep := _timeStep ts;
     _initialTime := _initialTime ts; _finalTime := _finalTime ts;
     _currentTime := _currentTime ts; _nProbes := _nProbes ts;
     _probesRef := _probesRef ts; _probesPos := _probesPos ts;
     _probesIndices := _probesIndices ts |}.

Definition with_currentTime (ts : TimeScheme) (t : D) : TimeScheme :=
  {| _DF := _DF ts; _mesh := _mesh ts; _physics := _physics ts;
     _finVol := _finVol ts; _Sol := _Sol ts; _timeStep := _timeStep ts;
     _initialTime := _initialTime ts; _finalTime := _finalTime ts;
     _currentTime := t; _nProbes := _nProbes ts;
     _probesRef := _probesRef ts; _probesPos := _probesPos ts;
     _probesIndices := _probesIndices ts |}.

Definition with_probesIndices (ts : TimeScheme) (ix : list Z) : TimeScheme :=
  {| _DF := _DF ts; _mesh := _mesh ts; _physics := _physics ts;
     _finVol := _finVol ts; _Sol := _Sol ts; _timeStep := _timeStep ts;
     _initialTime := _initialTime ts; _finalTime := _finalTime ts;
     _currentTime := _currentTime ts; _nProbes := _nProbes ts;
     _probesRef := _probesRef ts; _probesPos := _probesPos ts;
     _probesIndices := ix |}.

(** *** The world around the object: the buffers the collaborators fill,
    the calls they received, and what was written. *)

Inductive Call : Type :=
| BuildFluxVector (t : D) (S : Matrix)
| BuildSourceTerm (S : Matrix)
| BuildExactSolution (t : D).

Inductive Event : Type :=
| WriteFile (name : string) (header : option string) (lines : list (list D))
| AppendLine (name : string) (record : list D)
| SaveExactSolution (name : string) (exactSol : Matrix)
| ConsoleError (norm : string) (errH errQ dx : D).

Record World : Type := {
  self : TimeScheme;
  sourceTerm : Matrix;       (* Physics::_sourceTerm, read by getSourceTerm *)
  exactSol : Matrix;         (* Physics::_exactSol, read by getExactSolution *)
  fluxVector : Matrix;       (* FiniteVolume::_fluxVector, read by getFluxVector *)
  calls : list Call;
  output : list Event
}.

Definition with_self (w : World) (ts : TimeScheme) : World :=
  {| self := ts; sourceTerm := sourceTerm w; exactSol := exactSol w;
     fluxVector := fluxVector w; calls := calls w; output := output w |}.

Definition emit (w : World) (e : Event) : World :=
  {| self := self w; sourceTerm := sourceTerm w; exactSol := exactSol w;
     fluxVector := fluxVector w; calls := calls w;
     output := output w ++ [e] |}.

(** [_finVol->buildFluxVector(t, S)] *)
Definition buildFluxVector (t : D) (S : Matrix) (w : World) : World :=
  {| self := self w; sourceTerm := sourceTerm w; exactSol := exactSol w;
     fluxVector := fluxVectorOf (_finVol (self w)) t S;
     calls := calls w ++ [BuildFluxVector t S]; output := output w |}.

(** [_physics->buildSourceTerm(S)] *)
Definition buildSourceTerm (S : Matrix) (w : World) : World :=
  {| self := self w; sourceTerm := sourceTermOf (_physics (self w)) S;
     exactSol := exactSol w; fluxVector := fluxVector w;
     calls := calls w ++ [BuildSourceTerm S]; output := output w |}.

(** [_physics->buildExactSolution(t)] *)
Definition buildExactSolution (t : D) (w : World) : World :=
  {| self := self w; sourceTerm := sourceTerm w;
     exactSol := exactSolutionAt (_physics (self w)) t;
     fluxVector := fluxVector w;
     calls := calls w ++ [BuildExactSolution t]; output := output w |}.

End Model.

Arguments Matrix D : clear implicits.
Arguments DataFile D : clear implicits.
Arguments Mesh D : clear implicits.
Arguments Physics D : clear implicits.
Arguments FiniteVolume D : clear implicits.
Arguments TimeScheme D : clear implicits.
Arguments Call D : clear implicits.
Arguments Event D : clear implicits.
Arguments World D : clear implicits.

(* ================================================================= *)
(** ** The base class [TimeScheme] *)

Module TimeScheme.
Section Methods.

Context {D : Type} {SD : Scalar D}.

(** [TimeScheme::TimeScheme(DF, mesh, physics, finVol)] *)
Definition new (DF : DataFile D) (mesh : Mesh D) (physics : Physics D)
    (finVol : FiniteVolume D) : result (TimeScheme D) :=
  ix <- vector_n (getNumberOfProbes DF) 0 ;;
  Ok {| _DF := DF; _mesh := mesh; _physics := physics; _finVol := finVol;
        _Sol := getInitialCondition physics;
        _timeStep := getTimeStep DF;
        _initialTime := getInitialTime DF;
        _finalTime := getFinalTime DF;
        _currentTime := getInitialTime DF;
        _nProbes := getNumberOfProbes DF;
        _probesRef := getProbesReferences DF;
        _probesPos := getProbesPositions DF;
        _probesIndices := ix |}.

(** [TimeScheme::Initialize] *)
Definition Initialize (DF : DataFile D) (mesh : Mesh D) (physics : Physics D)
    (finVol : FiniteVolume D) (this : TimeScheme D) : result (TimeScheme D) :=
  ix <- vector_resize (_probesIndices this) (getNumberOfProbes DF) 0 ;;
  Ok {| _DF := DF; _mesh := mesh; _physics := physics; _finVol := finVol;
        _Sol := getInitialCondition physics;
        _timeStep := getTimeStep DF;
        _initialTime := getInitialTime DF;
        _finalTime := getFinalTime DF;
        _currentTime := getInitialTime DF;
        _nProbes := getNumberOfProbes DF;
        _probesRef := getProbesReferences DF;
        _probesPos := getProbesPositions DF;
        _probesIndices := ix |}.

(** The inner loop of [buildProbesCellIndices]: one test of a cell [k]
    against the closest cell so far, [st = (index, distMin)]. *)
Definition closer (cellCenters : list D) (pos : D) (k : Z) (st : Z * D)
  : result (Z * D) :=
  x <- index cellCenters k ;;
  let dist := dabs (dsub pos x) in
  if dltb dist (snd st) then Ok (k, dist) else Ok st.

(** The body of the outer loop for one probe position. *)
Definition nearestCell (cellCenters : list D) (nbCells : Z) (pos : D)
  : result Z :=
  c0 <- index cellCenters 0 ;;
  st <- for_each (closer cellCenters pos) (upto nbCells)
          (0, dabs (dsub pos c0)) ;;
  Ok (fst st).

(** [TimeScheme::buildProbesCellIndices] *)
Definition buildProbesCellIndices (this : TimeScheme D)
  : result (TimeScheme D) :=
  let nbCells := getNumberOfCells (_mesh this) in
  let cellCenters := getCellCenters (_mesh this) in
  for_each
    (fun i ts =>
       pos <- index (_probesPos ts) i ;;
       idx <- nearestCell cellCenters nbCells pos ;;
       ix <- assign (_probesIndices ts) i idx ;;
       Ok (with_probesIndices ts ix))
    (upto (_nProbes this)) this.

(** The six columns written for one cell: x (or the time), H = h + z, h,
    u = q / h, q and Fr = |u| / sqrt(g h). *)
Definition columns (g x z : D) (r : D * D) : list D :=
  let h := fst r in
  let q := snd r in
  [x; dadd h z; h; ddiv q h; q; ddiv (dabs (ddiv q h)) (dsqrt (dmul g h))].

Definition header : string :=
  "# x  H=h+z   h       u       q       Fr=|u|/sqrt(gh)".

(** [TimeScheme::saveCurrentSolution] *)
Definition saveCurrentSolution (fileName : string) (w : World D)
  : result (World D) :=
  let this := self w in
  let cellCenters := getCellCenters (_mesh this) in
  let g := getGravityAcceleration (_DF this) in
  lines <- for_each
             (fun i acc =>
                x <- index cellCenters i ;;
                r <- index (_Sol this) i ;;
                z <- index (getTopography (_physics this)) i ;;
                Ok (acc ++ [columns g x z r]))
             (upto (rows (_Sol this))) [] ;;
  Ok (emit w (WriteFile fileName (Some header) lines)).

Definition probeFile (resultsDir : string) (ref : Z) : string :=
  (resultsDir ++ "/probe_" ++ to_string ref ++ ".txt")%string.

(** [TimeScheme::saveProbes] *)
Definition saveProbes (w : World D) : result (World D) :=
  let this := self w in
  let nbProbes := getNumberOfProbes (_DF this) in
  let g := getGravityAcceleration (_DF this) in
  for_each
    (fun i w' =>
       ref <- index (_probesRef this) i ;;
       let fileName := probeFile (getResultsDirectory (_DF this)) ref in
       idx <- index (_probesIndices this) i ;;
       r <- index (_Sol this) idx ;;
       z <- index (getTopography (_physics this)) idx ;;
       Ok (emit w' (AppendLine fileName (columns g (_currentTime this) z r))))
    (upto nbProbes) w.

(** [(a - b).norm()]: the square root of the sum of the squares. *)
Definition norm (a b : list D) : result D :=
  if (length a =? length b)%nat
  then Ok (dsqrt (fold_left (fun acc d => dadd acc (dmul d d))
                            (map (fun p => dsub (fst p) (snd p)) (combine a b))
                            dzero))
  else Fault ShapeMismatch.

(** [TimeScheme::computeL2Error] *)
Definition computeL2Error (w : World D) : result (D * D) :=
  let this := self w in
  e0 <- norm (map fst (_Sol this)) (map fst (exactSol w)) ;;
  e1 <- norm (map snd (_Sol this)) (map snd (exactSol w)) ;;
  let dx := getDx (_DF this) in
  Ok (dmul e0 dx, dmul e1 dx).

(** [TimeScheme::computeL1Error] *)
Definition computeL1Error (w : World D) : result (D * D) :=
  let this := self w in
  error <- for_each
             (fun i (error : D * D) =>
                s <- index (_Sol this) i ;;
                e <- index (exactSol w) i ;;
                Ok (dadd (fst error) (dabs (dsub (fst s) (fst e))),
                    dadd (snd error) (dabs (dsub (snd s) (snd e)))))
             (upto (rows (_Sol this))) (dzero, dzero) ;;
  let dx := getDx (_DF this) in
  Ok (dmul (fst error) dx, dmul (snd error) dx).

Definition solutionFile (resultsDir fluxName : string) (k : Z) : string :=
  (resultsDir ++ "/solution_" ++ fluxName ++ "_" ++ to_string k ++ ".txt")%string.

(** The first sampling test of the loop, lines 159-163. *)
Definition saveStep (resultsDir fluxName : string) (n : Z) (w : World D)
  : result (World D) :=
  let DF := _DF (self w) in
  if negb (isSaveFinalTimeOnly DF) then
    r <- int_rem n (getSaveFrequency DF) ;;
    if r =? 0 then
      k <- int_div n (getSaveFrequency DF) ;;
      saveCurrentSolution (solutionFile resultsDir fluxName k) w
    else Ok w
  else Ok w.

(** The second sampling test of the loop, lines 165-168. *)
Definition probeStep (n : Z) (w : World D) : result (World D) :=
  let DF := _DF (self w) in
  if negb (_nProbes (self w) =? 0) then
    d <- int_div (getSaveFrequency DF) 10 ;;
    r <- int_rem n d ;;
    if r =? 0 then saveProbes w else Ok w
  else Ok w.

(** [_currentTime += _timeStep] *)
Definition tick (w : World D) : World D :=
  with_self w (with_currentTime (self w)
                 (dadd (_currentTime (self w)) (_timeStep (self w)))).

(** One pass through the body of the [while] loop of [solve]; [oneStep] is
    the virtual method of the variant. *)
Definition loopBody (oneStep : World D -> result (World D))
    (resultsDir fluxName : string) (w : World D) (n : Z)
  : result (World D * Z) :=
  w1 <- oneStep w ;;
  n1 <- incr n ;;
  w2 <- saveStep resultsDir fluxName n1 (tick w1) ;;
  w3 <- probeStep n1 w2 ;;
  Ok (w3, n1).

(** The [while] loop of [solve].  [None]: the loop is still running after
    [fuel] passes. *)
Fixpoint timeLoop (oneStep : World D -> result (World D))
    (resultsDir fluxName : string) (fuel : nat) (w : World D) (n : Z)
  : option (result (World D * Z)) :=
  if dltb (_currentTime (self w)) (_finalTime (self w)) then
    match fuel with
    | O => None
    | S fuel' =>
        match loopBody oneStep resultsDir fluxName w n with
        | Ok (w', n') => timeLoop oneStep resultsDir fluxName fuel' w' n'
        | Fault f => Some (Fault f)
        end
    end
  else Some (Ok (w, n)).

(** What [solve] does before the loop. *)
Definition prologue (resultsDir fluxName : string) (w : World D)
  : result (World D) :=
  w1 <- saveCurrentSolution (solutionFile resultsDir fluxName 0) w ;;
  lines <- for_each
             (fun i acc =>
                x <- index (getCellCenters (_mesh (self w1))) i ;;
                z <- index (getTopography (_physics (self w1))) i ;;
                Ok (acc ++ [[x; z]]))
             (upto (rows (_Sol (self w1)))) [] ;;
  let w2 := emit w1 (WriteFile (resultsDir ++ "/topography.txt")%string None lines) in
  this <- buildProbesCellIndices (self w2) ;;
  Ok (with_self w2 this).

(** What [solve] does after the loop. *)
Definition epilogue (resultsDir fluxName : string) (w : World D) (n : Z)
  : result (World D) :=
  let DF := _DF (self w) in
  w1 <- (if isSaveFinalTimeOnly DF then
           k <- int_div n (getSaveFrequency DF) ;;
           saveCurrentSolution (solutionFile resultsDir fluxName k) w
         else Ok w) ;;
  if isTestCase DF then
    let w2 := buildExactSolution (_currentTime (self w1)) w1 in
    let w3 := emit w2 (SaveExactSolution
                         (resultsDir ++ "/solution_exacte.txt")%string
                         (exactSol w2)) in
    L2error <- computeL2Error w3 ;;
    let w4 := emit w3 (ConsoleError "L2" (fst L2error) (snd L2error) (getDx DF)) in
    L1error <- computeL1Error w4 ;;
    Ok (emit w4 (ConsoleError "L1" (fst L1error) (snd L1error) (getDx DF)))
  else Ok w1.

(** [TimeScheme::solve] *)
Definition solve (oneStep : World D -> result (World D)) (fuel : nat)
    (w : World D) : option (result (World D)) :=
  let resultsDir := getResultsDirectory (_DF (self w)) in
  let fluxName := getFluxName (_finVol (self w)) in
  match prologue resultsDir fluxName w with
  | Fault f => Some (Fault f)
  | Ok w1 =>
      match timeLoop oneStep resultsDir fluxName fuel w1 0 with
      | None => None
      | Some (Fault f) => Some (Fault f)
      | Some (Ok (w2, n)) => Some (epilogue resultsDir fluxName w2 n)
      end
  end.

End Methods.
End TimeScheme.

(* ================================================================= *)
(** ** The variant [ExplicitEuler] *)

Module ExplicitEuler.
Section Methods.

Context {D : Type} {SD : Scalar D}.

(** [ExplicitEuler::Initialize] *)
Definition Initialize (garbage : nat -> D * D) (DF : DataFile D)
    (mesh : Mesh D) (physics : Physics D) (finVol : FiniteVolume D)
    (this : TimeScheme D) : result (TimeScheme D) :=
  Sol <- Eigen_resize garbage (getNumberOfCells mesh) (_Sol this) ;;
  Ok {| _DF := DF; _mesh := mesh; _physics := physics; _finVol := finVol;
        _Sol := Sol;
        _timeStep := getTimeStep DF;
        _initialTime := getInitialTime DF;
        _finalTime := getFinalTime DF;
        _currentTime := getInitialTime DF;
        _nProbes := _nProbes this;
        _probesRef := _probesRef this;
        _probesPos := _probesPos this;
        _probesIndices := _probesIndices this |}.

(** [ExplicitEuler::oneStep] *)
Definition oneStep (w : World D) : result (World D) :=
  let dt := _timeStep (self w) in
  let dx := getSpaceStep (_mesh (self w)) in
  let w1 := buildFluxVector (_currentTime (self w)) (_Sol (self w)) w in
  let w2 := buildSourceTerm (_Sol (self w1)) w1 in
  let source := sourceTerm w2 in
  let fluxVector := fluxVector w2 in
  rhs <- cwiseAdd (mdivs fluxVector dx) source ;;
  Sol <- cwiseAdd (_Sol (self w2)) (mscale dt rhs) ;;
  Ok (with_self w2 (with_Sol (self w2) Sol)).

End Methods.
End ExplicitEuler.

(* ================================================================= *)
(** ** The variant [RK2] *)

Module RK2.
Section Methods.

Context {D : Type} {SD : Scalar D}.

(** [RK2::Initialize] *)
Definition Initialize (garbage : nat -> D * D) (DF : DataFile D)
    (mesh : Mesh D) (physics : Physics D) (finVol : FiniteVolume D)
    (this : TimeScheme D) : result (TimeScheme D) :=
  Sol <- Eigen_resize garbage (getNumberOfCells mesh) (_Sol this) ;;
  Ok {| _DF := DF; _mesh := mesh; _physics := physics; _finVol := finVol;
        _Sol := Sol;
        _timeStep := getTimeStep DF;
        _initialTime := getInitialTime DF;
        _finalTime := getFinalTime DF;
        _currentTime := getInitialTime DF;
        _nProbes := _nProbes this;
        _probesRef := _probesRef this;
        _probesPos := _probesPos this;
        _probesIndices := _probesIndices this |}.

(** [RK2::oneStep] *)
Definition oneStep (w : World D) : result (World D) :=
  let dt := _timeStep (self w) in
  let dx := getSpaceStep (_mesh (self w)) in
  (* k1 *)
  let w1 := buildFluxVector (_currentTime (self w)) (_Sol (self w)) w in
  let w2 := buildSourceTerm (_Sol (self w1)) w1 in
  let fluxVector1 := fluxVector w2 in
  let source1 := sourceTerm w2 in
  k1 <- cwiseAdd (mdivs fluxVector1 dx) source1 ;;
  (* k2 *)
  trialS <- cwiseAdd (_Sol (self w2)) (mscale dt k1) ;;
  let w3 := buildSourceTerm trialS w2 in
  trialF <- cwiseAdd (_Sol (self w3)) (mscale dt k1) ;;
  let w4 := buildFluxVector (dadd (_currentTime (self w3)) dt) trialF w3 in
  let source2 := sourceTerm w4 in
  let fluxVector2 := fluxVector w4 in
  k2 <- cwiseAdd (mdivs fluxVector2 dx) source2 ;;
  (* update *)
  k12 <- cwiseAdd k1 k2 ;;
  Sol <- cwiseAdd (_Sol (self w4)) (mscale (dmul dhalf dt) k12) ;;
  Ok (with_self w4 (with_Sol (self w4) Sol)).

End Methods.
End RK2.

(* ================================================================= *)
(** ** Dispatch on the variant *)

Inductive Scheme : Set := SchemeExplicitEuler | SchemeRK2.

Section Dispatch.

Context {D : Type} {SD : Scalar D}.

(** The [Initialize] a call on an object of the variant reaches. *)
Definition Initialize (v : Scheme) (garbage : nat -> D * D) (DF : DataFile D)
    (mesh : Mesh D) (physics : Physics D) (finVol : FiniteVolume D)
    (this : TimeScheme D) : result (TimeScheme D) :=
  match v with
  | SchemeExplicitEuler => ExplicitEuler.Initialize garbage DF mesh physics finVol this
  | SchemeRK2 => RK2.Initialize garbage DF mesh physics finVol this
  end.

(** The virtual [oneStep]. *)
Definition oneStep (v : Scheme) (w : World D) : result (World D) :=
  match v with
  | SchemeExplicitEuler => ExplicitEuler.oneStep w
  | SchemeRK2 => RK2.oneStep w
  end.

(** [solve] on an object of the variant. *)
Definition solve (v : Scheme) (fuel : nat) (w : World D)
  : option (result (World D)) :=
  TimeScheme.solve (oneStep v) fuel w.

(** [k] passes of stepping as the driver does them: [oneStep], then the
    clock moves by the time step. *)
Fixpoint advance (v : Scheme) (k : nat) (w : World D) : result (World D) :=
  match k with
  | O => Ok w
  | S k' => w1 <- oneStep v w ;; advance v k' (TimeScheme.tick w1)
  end.

(** The clock after [k] passes. *)
Fixpoint clockAfter (t dt : D) (k : nat) : D :=
  match k with
  | O => t
  | S k' => clockAfter (dadd t dt) dt k'
  end.

End Dispatch.

(* ================================================================= *)
(** ** Notions used in the statements *)

Section Notions.

Context {D : Type} {SD : Scalar D}.

(** The height of the first cell of a state. *)
Definition firstHeight (S : Matrix D) : D :=
  match S with
  | r :: _ => fst r
  | [] => dzero
  end.

(** The right-hand side a stage evaluates: [Flux(t, S) / dx + Source(S)]. *)
Definition stage (w : World D) (t : D) (S : Matrix D) : Matrix D :=
  mplus (mdivs (fluxVectorOf (_finVol (self w)) t S)
               (getSpaceStep (_mesh (self w))))
        (sourceTermOf (_physics (self w)) S).

(** The providers answer one row per cell when they are given a state of
    the size of the object's. *)
Definition shaped (w : World D) : Prop :=
  forall S, length S = length (_Sol (self w)) ->
    (forall t, length (fluxVectorOf (_finVol (self w)) t S) = length S) /\
    length (sourceTermOf (_physics (self w)) S) = length S.

(** The Explicit Euler update of the state. *)
Definition eulerUpdate (w : World D) : Matrix D :=
  mplus (_Sol (self w))
        (mscale (_timeStep (self w))
                (stage w (_currentTime (self w)) (_Sol (self w)))).

(** The RK2 stages and update of the state. *)
Definition rk2k1 (w : World D) : Matrix D :=
  stage w (_currentTime (self w)) (_Sol (self w)).

Definition rk2trial (w : World D) : Matrix D :=
  mplus (_Sol (self w)) (mscale (_timeStep (self w)) (rk2k1 w)).

Definition rk2k2 (w : World D) : Matrix D :=
  stage w (dadd (_currentTime (self w)) (_timeStep (self w))) (rk2trial w).

Definition rk2Update (w : World D) : Matrix D :=
  mplus (_Sol (self w))
        (mscale (dmul dhalf (_timeStep (self w)))
                (mplus (rk2k1 w) (rk2k2 w))).

(** The state a step of the variant computes. *)
Definition update (v : Scheme) (w : World D) : Matrix D :=
  match v with
  | SchemeExplicitEuler => eulerUpdate w
  | SchemeRK2 => rk2Update w
  end.

(** A step touches the state of the object and the provider buffers only. *)
Definition steppedFrom (w w' : World D) : Prop :=
  self w' = with_Sol (self w) (_Sol (self w')) /\
  output w' = output w /\
  exactSol w' = exactSol w.

(** [emit] for several events in turn. *)
Definition emitAll (w : World D) (es : list (Event D)) : World D :=
  fold_left emit es w.

(** Every cell of the state has a centre and a bottom height. *)
Definition snapshotReady (this : TimeScheme D) : Prop :=
  (length (_Sol this) <= length (getCellCenters (_mesh this)))%nat /\
  (length (_Sol this) <= length (getTopography (_physics this)))%nat.

(** The probe tables cover the configured probes, and every resolved index
    is a cell with a bottom height. *)
Definition probesReady (this : TimeScheme D) : Prop :=
  _nProbes this = getNumberOfProbes (_DF this) /\
  forall k, (k < Z.to_nat (getNumberOfProbes (_DF this)))%nat ->
    (k < length (_probesRef this))%nat /\
    exists idx : nat,
      nth_error (_probesIndices this) k = Some (Z.of_nat idx) /\
      (idx < length (_Sol this))%nat /\
      (idx < length (getTopography (_physics this)))%nat.

(** The record [saveProbes] appends for the probe number [k]. *)
Definition probeRecord (this : TimeScheme D) (k : nat) : Event D :=
  let idx := Z.to_nat (nth k (_probesIndices this) 0) in
  AppendLine
    (TimeScheme.probeFile (getResultsDirectory (_DF this))
       (nth k (_probesRef this) 0))
    (TimeScheme.columns (getGravityAcceleration (_DF this))
       (_currentTime this)
       (nth idx (getTopography (_physics this)) dzero)
       (nth idx (_Sol this) (dzero, dzero))).

(** One record per configured probe, in the order of the probes. *)
Definition probeRecords (this : TimeScheme D) : list (Event D) :=
  map (probeRecord this) (seq 0 (Z.to_nat (getNumberOfProbes (_DF this)))).

(** The two sampling tests evaluate no modulo by zero. *)
Definition samplingDefined (this : TimeScheme D) : Prop :=
  (isSaveFinalTimeOnly (_DF this) = true \/ getSaveFrequency (_DF this) <> 0) /\
  (_nProbes this = 0 \/ Z.quot (getSaveFrequency (_DF this)) 10 <> 0).

(** What a pass of the loop needs in order not to fault. *)
Definition ready (w : World D) : Prop :=
  shaped w /\ snapshotReady (self w) /\ probesReady (self w) /\
  samplingDefined (self w).

(** A snapshot written by [saveCurrentSolution]. *)
Definition isSnapshot (e : Event D) : Prop :=
  match e with
  | WriteFile _ _ _ => True
  | _ => False
  end.

(** The state the claim C5 announces after [k] passes:
    State_0 + k * dt * c. *)
Definition announcedLinear (S0 c : Matrix D)
    (k dt : D) : Matrix D :=
  mplus S0 (mscale (dmul k dt) c).

(** The mesh has cells, and the probe tables have an entry per probe. *)
Definition resolvable (this : TimeScheme D) : Prop :=
  getCellCenters (_mesh this) <> [] /\
  getNumberOfCells (_mesh this) <= Z.of_nat (length (getCellCenters (_mesh this))) /\
  (Z.to_nat (_nProbes this) <= length (_probesPos this))%nat /\
  (Z.to_nat (_nProbes this) <= length (_probesIndices this))%nat.

(** What the end of [solve] needs: a nonzero frequency for the name of the
    final snapshot, and a reference solution of the size of the state. *)
Definition closable (this : TimeScheme D) : Prop :=
  (isSaveFinalTimeOnly (_DF this) = true -> getSaveFrequency (_DF this) <> 0) /\
  (isTestCase (_DF this) = true ->
   forall t, length (exactSolutionAt (_physics this) t) = length (_Sol this)).

(** Two objects that differ at most by their resolved probe indices. *)
Definition sameStepping (x y : TimeScheme D) : Prop :=
  with_probesIndices x [] = with_probesIndices y [].

(** A configuration on which [solve] cannot fault: a mesh with cells, one
    centre and one bottom height per cell, an initial condition and
    providers of that size, probe tables of the size of the probe count, a
    nonzero save frequency whose integer tenth is nonzero when there are
    probes, and in test-case mode a reference solution of the size of the
    mesh. *)
Definition configured (DF : DataFile D) (mesh : Mesh D) (physics : Physics D)
    (finVol : FiniteVolume D) : Prop :=
  let N := length (getInitialCondition physics) in
  (0 < N)%nat /\
  getNumberOfCells mesh = Z.of_nat N /\
  length (getCellCenters mesh) = N /\
  length (getTopography physics) = N /\
  (forall S, length S = N ->
     (forall t, length (fluxVectorOf finVol t S) = length S) /\
     length (sourceTermOf physics S) = length S) /\
  0 <= getNumberOfProbes DF /\
  length (getProbesReferences DF) = Z.to_nat (getNumberOfProbes DF) /\
  length (getProbesPositions DF) = Z.to_nat (getNumberOfProbes DF) /\
  getSaveFrequency DF <> 0 /\
  (getNumberOfProbes DF = 0 \/ Z.quot (getSaveFrequency DF) 10 <> 0) /\
  (isTestCase DF = true ->
   forall t, length (exactSolutionAt physics t) = N).

(** The object the constructor builds. *)
Definition constructed (DF : DataFile D) (mesh : Mesh D) (physics : Physics D)
    (finVol : FiniteVolume D) : TimeScheme D :=
  {| _DF := DF; _mesh := mesh; _physics := physics; _finVol := finVol;
     _Sol := getInitialCondition physics;
     _timeStep := getTimeStep DF;
     _initialTime := getInitialTime DF;
     _finalTime := getFinalTime DF;
     _currentTime := getInitialTime DF;
     _nProbes := getNumberOfProbes DF;
     _probesRef := getProbesReferences DF;
     _probesPos := getProbesPositions DF;
     _probesIndices := repeat 0 (Z.to_nat (getNumberOfProbes DF)) |}.

(** What a written file looks like from outside: its name, whether it
    starts with the header line, and its number of data rows. *)
Definition written (e : Event D) : option (string * bool * nat) :=
  match e with
  | WriteFile name (Some _) lines => Some (name, true, length lines)
  | WriteFile name None lines => Some (name, false, length lines)
  | _ => None
  end.

End Notions.

(* ================================================================= *)
(** ** Notions of the statements about output, calls and probes *)

Section Traces.

Context {D : Type} {SD : Scalar D}.

(** The data rows of a snapshot: one per cell of the state, in the order
    of the cells. *)
Definition snapshotRows (this : TimeScheme D) : list (list D) :=
  map (fun i => TimeScheme.columns (getGravityAcceleration (_DF this))
                  (nth i (getCellCenters (_mesh this)) dzero)
                  (nth i (getTopography (_physics this)) dzero)
                  (nth i (_Sol this) (dzero, dzero)))
      (seq 0 (length (_Sol this))).

(** The rows of the topography file: centre and bottom height of each cell. *)
Definition topographyRows (this : TimeScheme D) : list (list D) :=
  map (fun i => [nth i (getCellCenters (_mesh this)) dzero;
                 nth i (getTopography (_physics this)) dzero])
      (seq 0 (length (_Sol this))).

(** The provider calls one step of the variant makes, in their order. *)
Definition stepCalls (v : Scheme) (w : World D) : list (Call D) :=
  let t := _currentTime (self w) in
  let S := _Sol (self w) in
  match v with
  | SchemeExplicitEuler => [BuildFluxVector t S; BuildSourceTerm S]
  | SchemeRK2 =>
      [BuildFluxVector t S; BuildSourceTerm S; BuildSourceTerm (rk2trial w);
       BuildFluxVector (dadd t (_timeStep (self w))) (rk2trial w)]
  end.

Definition callsPerStep (v : Scheme) : nat :=
  match v with SchemeExplicitEuler => 2 | SchemeRK2 => 4 end.

(** The object after one pass of the loop: stepped, then the clock moved. *)
Definition passed (v : Scheme) (w : World D) : TimeScheme D :=
  with_currentTime (with_Sol (self w) (update v w))
    (dadd (_currentTime (self w)) (_timeStep (self w))).

(** What the pass that brings the counter to [n] writes, [this] being the
    object after the step and the move of the clock: the snapshot of the
    first sampling test, then the probe records of the second. *)
Definition passEvents (resultsDir fluxName : string) (this : TimeScheme D)
    (n : Z) : list (Event D) :=
  let DF := _DF this in
  (if negb (isSaveFinalTimeOnly DF) && (Z.rem n (getSaveFrequency DF) =? 0)
   then [WriteFile
           (TimeScheme.solutionFile resultsDir fluxName
              (Z.quot n (getSaveFrequency DF)))
           (Some TimeScheme.header) (snapshotRows this)]
   else []) ++
  (if negb (_nProbes this =? 0)
      && (Z.rem n (Z.quot (getSaveFrequency DF) 10) =? 0)
   then probeRecords this
   else []).

(** What [k] passes write, from the world [w] and the counter [n]. *)
Fixpoint loopEvents (v : Scheme) (resultsDir fluxName : string) (k : nat)
    (w : World D) (n : Z) : list (Event D) :=
  match k with
  | O => []
  | S k' =>
      passEvents resultsDir fluxName (passed v w) (n + 1) ++
      loopEvents v resultsDir fluxName k' (with_self w (passed v w)) (n + 1)
  end.

(** The provider calls [k] passes make. *)
Fixpoint loopCalls (v : Scheme) (k : nat) (w : World D) : list (Call D) :=
  match k with
  | O => []
  | S k' => stepCalls v w ++ loopCalls v k' (with_self w (passed v w))
  end.

(** A call to one of the two providers of a step. *)
Definition isProviderCall (c : Call D) : Prop :=
  match c with
  | BuildExactSolution _ => False
  | _ => True
  end.

(** A file written or a line appended by the object itself. *)
Definition isFileEvent (e : Event D) : Prop :=
  match e with
  | WriteFile _ _ _ | AppendLine _ _ => True
  | _ => False
  end.

(** The files written among some output, as seen from outside. *)
Definition filesWritten (o : list (Event D)) : list (string * bool * nat) :=
  flat_map (fun e => match written e with Some x => [x] | None => [] end) o.

(** The file and the first column (the time) of a probe record. *)
Definition stamp (e : Event D) : option (string * D) :=
  match e with
  | AppendLine name (t :: _) => Some (name, t)
  | _ => None
  end.

(** The probe records among some output, by file and time. *)
Definition stamps (o : list (Event D)) : list (string * D) :=
  flat_map (fun e => match stamp e with Some x => [x] | None => [] end) o.

(** What the end of [solve] reports in test-case mode: the reference
    solution, then the L2 and the L1 errors. *)
Definition reported (resultsDir : string) (dx : D) (E : Matrix D)
    (L2error L1error : D * D) : list (Event D) :=
  [SaveExactSolution (resultsDir ++ "/solution_exacte.txt")%string E;
   ConsoleError "L2" (fst L2error) (snd L2error) dx;
   ConsoleError "L1" (fst L1error) (snd L1error) dx].

(** The index the loop of [buildProbesCellIndices] stores for the probe
    [i]. *)
Definition resolved (this : TimeScheme D) (i : Z) : result Z :=
  pos <- index (_probesPos this) i ;;
  TimeScheme.nearestCell (getCellCenters (_mesh this))
    (getNumberOfCells (_mesh this)) pos.

(** The distance the scan computes for the cell [k]. *)
Definition computedDistance (centers : list D) (pos : D) (k : nat) : D :=
  dabs (dsub pos (nth k centers dzero)).

(** What the scan knows after the cells before [m], in the computed
    distances: the candidate is cell 0 or one of them, none of them is
    strictly closer, and, when the comparison orders every distance, every
    cell before the candidate is strictly farther. *)
Definition minimalSoFar (ordered : D -> Prop) (centers : list D) (pos : D)
    (m : nat) (st : Z * D) : Prop :=
  exists i : nat,
    st = (Z.of_nat i, computedDistance centers pos i) /\
    (i < length centers)%nat /\
    (i < m \/ i = 0)%nat /\
    (forall j, (j < m \/ j = 0)%nat ->
       dltb (computedDistance centers pos j) (computedDistance centers pos i) = false) /\
    ((forall j, (j < length centers)%nat ->
        ordered (computedDistance centers pos j)) ->
     forall j, (j < i)%nat ->
       dltb (computedDistance centers pos i) (computedDistance centers pos j) = true).

End Traces.

(** *** Notions of the statements in binary64 *)

(** Neither an infinity nor a NaN. *)
Definition finite64 (x : float) : Prop :=
  match Prim2SF x with
  | S754_zero _ | S754_finite _ _ _ => True
  | _ => False
  end.

(** A divisor that is neither zero nor a NaN. *)
Definition divisor64 (x : float) : Prop :=
  match Prim2SF x with
  | S754_zero _ | S754_nan => False
  | _ => True
  end.

(** Any value but the negative zero. *)
Definition notNegativeZero (x : float) : Prop := Prim2SF x <> S754_zero true.

(** A zero of either sign. *)
Definition isZero64 (x : float) : Prop := exists b, Prim2SF x = S754_zero b.

(** A state without negative zeros. *)
Definition clean (S : Matrix float) : Prop :=
  Forall (fun r => notNegativeZero (fst r) /\ notNegativeZero (snd r)) S.

(** Any value but NaN. *)
Definition notNaN (x : float) : Prop := Prim2SF x <> S754_nan.

(** A state whose entries are all finite. *)
Definition finiteState (S : Matrix float) : Prop :=
  Forall (fun r => finite64 (fst r) /\ finite64 (snd r)) S.

(** *** Notions of the statements in exact arithmetic *)

(** The providers of the constant-flux scenario. *)
Definition fixedFluxZeroSource (c : Matrix R) (w : World R) : Prop :=
  (forall t S, fluxVectorOf (_finVol (self w)) t S = c) /\
  (forall S, sourceTermOf (_physics (self w)) S = mzero (length S)) /\
  length c = length (_Sol (self w)).

(** What one pass of the loop of [computeL1Error] adds. *)
Definition l1Step (error : R * R) (p : (R * R) * (R * R)) : R * R :=
  ((fst error + Rabs (fst (fst p) - fst (snd p)))%R,
   (snd error + Rabs (snd (fst p) - snd (snd p)))%R).



(** The sum of one column of a state. *)
Definition total (col : R * R -> R) (S : Matrix R) : R :=
  fold_right Rplus 0%R (map col S).

(** The providers add nothing to the sum of the column [col]: the flux
    vector and the source term each sum to zero over the cells. *)
Definition balanced (col : R * R -> R) (w : World R) : Prop :=
  forall S, length S = length (_Sol (self w)) ->
    (forall t, total col (fluxVectorOf (_finVol (self w)) t S) = 0%R) /\
    total col (sourceTermOf (_physics (self w)) S) = 0%R.

(** The differences, cell by cell, between one column of the state and the
    same column of the reference. *)
Definition differences (col : R * R -> R) (S E : Matrix R) : list R :=
  map (fun p => (col (fst p) - col (snd p))%R) (combine S E).

(** The sum of the absolute values, and the sum of the squares. *)
Definition sumAbs (l : list R) : R :=
  fold_right (fun d acc => (Rabs d + acc)%R) 0%R l.

Definition sumSq (l : list R) : R :=
  fold_right (fun d acc => (d * d + acc)%R) 0%R l.

(** The factor by which one step of the variant multiplies the state on
    the linear test equation, z being rate * time step. *)
Definition growth (v : Scheme) (z : R) : R :=
  match v with
  | SchemeExplicitEuler => (1 + z)%R
  | SchemeRK2 => (1 + z + z * z / 2)%R
  end.

(** The providers of the linear test equation: no flux, and a source
    proportional to the state. *)
Definition linearSource (rate : R) (w : World R) : Prop :=
  (forall t S, fluxVectorOf (_finVol (self w)) t S = mzero (length S)) /\
  (forall S, sourceTermOf (_physics (self w)) S = mscale rate S).

(* ================================================================= *)
(** ** Concrete runs

    Configurable collaborators, from which the runs on which the model is
    evaluated are built further down, in binary64 and in exact
    arithmetic. *)

Module Scenario.
Section Generic.

Context {D : Type} {SD : Scalar D}.

(** A world whose collaborator buffers are still empty. *)
Definition world (this : TimeScheme D) : World D :=
  {| self := this; sourceTerm := []; exactSol := []; fluxVector := [];
     calls := []; output := [] |}.

(** A physics whose source term is zero. *)
Definition physics (initial : Matrix D) (topography : list D) : Physics D :=
  {| getInitialCondition := initial;
     getTopography := topography;
     sourceTermOf := fun S => mzero (length S);
     exactSolutionAt := fun _ => initial |}.

(** A flux provider that answers the same array at every time and for
    every state. *)
Definition fixedFlux (c : Matrix D) : FiniteVolume D :=
  {| fluxVectorOf := fun _ _ => c;
     getFluxName := "fixed" |}.

(** A flux provider that answers the same row for every cell, at every
    time and for every state. *)
Definition constantFlux (c : D * D) : FiniteVolume D :=
  {| fluxVectorOf := fun _ S => repeat c (length S);
     getFluxName := "constant" |}.

Definition dataFile (t0 dt T dx g : D) (saveFrequency : Z) (finalOnly : bool)
    (refs : list Z) (positions : list D) : DataFile D :=
  {| getTimeStep := dt; getInitialTime := t0; getFinalTime := T;
     getNumberOfProbes := Z.of_nat (length positions);
     getProbesReferences := refs;
     getProbesPositions := positions;
     getGravityAcceleration := g;
     getResultsDirectory := "results";
     isSaveFinalTimeOnly := finalOnly;
     getSaveFrequency := saveFrequency;
     isTestCase := false;
     getDx := dx |}.

Definition mesh (centers : list D) (dx : D) : Mesh D :=
  {| getNumberOfCells := Z.of_nat (length centers);
     getCellCenters := centers;
     getSpaceStep := dx |}.

End Generic.
End Scenario.

(** *** A run on which a variant's [Initialize] does not restore the
    initial condition, in binary64: one cell, initial condition
    (h, q) = (1, 0), dt = dx = 1, constant flux (1, 0), zero source.  The
    object is built by the constructor, steps once, and is initialised
    again with the same collaborators. *)

Module Reinitialise.

Definition DF : DataFile float :=
  Scenario.dataFile 0%float 1%float 1%float 1%float 9.81%float 1 false [] [].

Definition mesh : Mesh float := Scenario.mesh [0%float] 1%float.

Definition physics : Physics float :=
  Scenario.physics [(1%float, 0%float)] [0%float].

Definition finVol : FiniteVolume float :=
  Scenario.constantFlux (1%float, 0%float).

(** The state after: constructor, [oneStep], [Initialize]. *)
Definition run (v : Scheme) (garbage : nat -> float * float)
  : result (TimeScheme float) :=
  this <- TimeScheme.new DF mesh physics finVol ;;
  w <- oneStep v (Scenario.world this) ;;
  Initialize v garbage DF mesh physics finVol (TimeScheme.tick w).(self).

(** The state after [Initialize] on an object whose state is still empty,
    as the default constructor leaves it. *)
Definition fresh (v : Scheme) (garbage : nat -> float * float)
    (this : TimeScheme float) : result (TimeScheme float) :=
  Initialize v garbage DF mesh physics finVol (with_Sol this []).

End Reinitialise.

(** *** A lake at rest, in binary64: five cells of width 2, a probe half
    way between the third and the fourth centre. *)

Module Lake.

Definition DF : DataFile float :=
  Scenario.dataFile 0%float 0.5%float 2%float 2%float 9.81%float 20 false
    [1] [5%float].

Definition mesh : Mesh float :=
  Scenario.mesh [0%float; 2%float; 4%float; 6%float; 8%float] 2%float.

Definition physics : Physics float :=
  Scenario.physics (repeat (1%float, 0%float) 5) (repeat 0%float 5).

Definition finVol : FiniteVolume float :=
  Scenario.constantFlux (1%float, 0.5%float).

Definition object : TimeScheme float :=
  {| _DF := DF; _mesh := mesh; _physics := physics; _finVol := finVol;
     _Sol := getInitialCondition physics;
     _timeStep := getTimeStep DF;
     _initialTime := getInitialTime DF;
     _finalTime := getFinalTime DF;
     _currentTime := getInitialTime DF;
     _nProbes := getNumberOfProbes DF;
     _probesRef := getProbesReferences DF;
     _probesPos := getProbesPositions DF;
     _probesIndices := [0] |}.

Definition world : World float := Scenario.world object.

End Lake.

(** *** The still lake of the specification, in exact arithmetic: ten
    cells, height 1, discharge 0, flat bottom, zero flux and zero source,
    dt = 0.1. *)

Module StillLake.

Local Open Scope R_scope.

Definition centers : list R := map INR (seq 0 10).

Definition DF : DataFile R :=
  Scenario.dataFile 0 (1 / 10) (1 / 2) 1 (981 / 100) 1 false [] [].

Definition physics : Physics R :=
  Scenario.physics (repeat (1, 0) 10) (repeat 0 10).

Definition object : TimeScheme R :=
  {| _DF := DF; _mesh := Scenario.mesh centers 1; _physics := physics;
     _finVol := Scenario.constantFlux (0, 0);
     _Sol := getInitialCondition physics;
     _timeStep := getTimeStep DF;
     _initialTime := getInitialTime DF;
     _finalTime := getFinalTime DF;
     _currentTime := getInitialTime DF;
     _nProbes := getNumberOfProbes DF;
     _probesRef := getProbesReferences DF;
     _probesPos := getProbesPositions DF;
     _probesIndices := [] |}.

Definition world : World R := Scenario.world object.

End StillLake.

(** *** A stream in exact arithmetic: two cells of width 2 under a fixed
    flux array. *)

Module Stream.

Local Open Scope R_scope.

Definition flux : Matrix R := [(1, 1 / 2); (2, 0)].

Definition DF : DataFile R :=
  Scenario.dataFile 0 (1 / 2) 1 2 (981 / 100) 1 false [] [].

Definition physics : Physics R := Scenario.physics [(1, 0); (1, 0)] [0; 0].

Definition object : TimeScheme R :=
  {| _DF := DF; _mesh := Scenario.mesh [1; 3] 2; _physics := physics;
     _finVol := Scenario.fixedFlux flux;
     _Sol := getInitialCondition physics;
     _timeStep := getTimeStep DF;
     _initialTime := getInitialTime DF;
     _finalTime := getFinalTime DF;
     _currentTime := getInitialTime DF;
     _nProbes := getNumberOfProbes DF;
     _probesRef := getProbesReferences DF;
     _probesPos := getProbesPositions DF;
     _probesIndices := [] |}.

Definition world : World R := Scenario.world object.

End Stream.

(** *** Five centres 0, 1, 2, 3, 4 and probes at 2.4 and 2.5 *)

Module FiveCells.

Definition centers : list R := [0; 1; 2; 3; 4]%R.

Definition centers64 : list float := [0; 1; 2; 3; 4]%float.

(** An object with the two probes, before the indices are resolved. *)
Definition object : TimeScheme float :=
  let DF := Scenario.dataFile 0%float 0.5%float 2%float 1%float 9.81%float
              20 false [1; 2] [2.4%float; 2.5%float] in
  let physics := Scenario.physics (repeat (1%float, 0%float) 5)
                   (repeat 0%float 5) in
  {| _DF := DF; _mesh := Scenario.mesh centers64 1%float;
     _physics := physics;
     _finVol := Scenario.constantFlux (0%float, 0%float);
     _Sol := getInitialCondition physics;
     _timeStep := getTimeStep DF;
     _initialTime := getInitialTime DF;
     _finalTime := getFinalTime DF;
     _currentTime := getInitialTime DF;
     _nProbes := getNumberOfProbes DF;
     _probesRef := getProbesReferences DF;
     _probesPos := getProbesPositions DF;
     _probesIndices := [0; 0] |}.

End FiveCells.

(** *** A gauge in exact arithmetic: three cells whose heights are those of
    the reference lowered by one half. *)

Module Gauge.

Local Open Scope R_scope.

Definition reference : Matrix R := [(1, 0); (2, 0); (1, 1)].

Definition object : TimeScheme R :=
  let DF := Scenario.dataFile 0 (1 / 2) 1 (1 / 10) (981 / 100) 1 false [] [] in
  let physics := Scenario.physics reference [0; 0; 0] in
  {| _DF := DF; _mesh := Scenario.mesh [1; 3; 5] 2; _physics := physics;
     _finVol := Scenario.constantFlux (0, 0);
     _Sol := [(1 / 2, 5); (3 / 2, 0); (1 / 2, 7)];
     _timeStep := getTimeStep DF;
     _initialTime := getInitialTime DF;
     _finalTime := getFinalTime DF;
     _currentTime := getFinalTime DF;
     _nProbes := getNumberOfProbes DF;
     _probesRef := getProbesReferences DF;
     _probesPos := getProbesPositions DF;
     _probesIndices := [] |}.

(** The world after [buildExactSolution]. *)
Definition world : World R :=
  buildExactSolution (_currentTime object) (Scenario.world object).

End Gauge.

(** *** A bench in binary64: five cells of width 1, one probe resolved to
    the third cell, zero flux and zero source; the time step, the final
    time and the save frequency vary. *)

Module Bench.

Definition DF (dt T : float) (saveFrequency : Z) : DataFile float :=
  Scenario.dataFile 0%float dt T 1%float 9.81%float saveFrequency false
    [1] [2.5%float].

Definition physics : Physics float :=
  Scenario.physics (repeat (1%float, 0%float) 5) (repeat 0%float 5).

Definition object (dt T : float) (saveFrequency : Z) : TimeScheme float :=
  {| _DF := DF dt T saveFrequency;
     _mesh := Scenario.mesh FiveCells.centers64 1%float;
     _physics := physics;
     _finVol := Scenario.constantFlux (0%float, 0%float);
     _Sol := getInitialCondition physics;
     _timeStep := dt;
     _initialTime := 0%float;
     _finalTime := T;
     _currentTime := 0%float;
     _nProbes := 1;
     _probesRef := [1];
     _probesPos := [2.5%float];
     _probesIndices := [2] |}.

Definition world (dt T : float) (saveFrequency : Z) : World float :=
  Scenario.world (object dt T saveFrequency).

End Bench.

(** *** The basin of the specification's scenarios, in binary64: ten cells
    of width 1, height 1, discharge 0, flat bottom, zero flux and zero
    source, no probe, time step 0.1. *)

Module Basin.

Definition DF (T : float) (saveFrequency : Z) (finalOnly : bool) : DataFile float :=
  Scenario.dataFile 0%float 0.1%float T 1%float 9.81%float saveFrequency
    finalOnly [] [].

Definition mesh : Mesh float :=
  Scenario.mesh [0; 1; 2; 3; 4; 5; 6; 7; 8; 9]%float 1%float.

Definition physics : Physics float :=
  Scenario.physics (repeat (1%float, 0%float) 10) (repeat 0%float 10).

Definition finVol : FiniteVolume float :=
  Scenario.constantFlux (0%float, 0%float).

Definition world (T : float) (saveFrequency : Z) (finalOnly : bool) : World float :=
  Scenario.world (constructed (DF T saveFrequency finalOnly) mesh physics finVol).

End Basin.

(** *** A trial in binary64: five cells of width 1 at rest, one probe of
    reference 7 at 2.5, test-case mode, final snapshot only, time step 0.5,
    final time 2, save frequency 20. *)

Module Trial.

Definition DF : DataFile float :=
  {| getTimeStep := 0.5%float; getInitialTime := 0%float;
     getFinalTime := 2%float;
     getNumberOfProbes := 1;
     getProbesReferences := [7];
     getProbesPositions := [2.5%float];
     getGravityAcceleration := 9.81%float;
     getResultsDirectory := "results";
     isSaveFinalTimeOnly := true;
     getSaveFrequency := 20;
     isTestCase := true;
     getDx := 1%float |}.

Definition mesh : Mesh float := Scenario.mesh FiveCells.centers64 1%float.

Definition physics : Physics float :=
  Scenario.physics (repeat (1%float, 0%float) 5) (repeat 0%float 5).

Definition finVol : FiniteVolume float :=
  Scenario.constantFlux (0%float, 0%float).

Definition world : World float :=
  Scenario.world (constructed DF mesh physics finVol).

End Trial.

(** *** A clock that no longer moves, in binary64: the basin started at
    time 1e16 with a time step of 1, which the sum absorbs. *)

Module Stalled.

Definition DF : DataFile float :=
  Scenario.dataFile 1e16%float 1%float 2e16%float 1%float 9.81%float 1 false
    [] [].

Definition world : World float :=
  Scenario.world (constructed DF Basin.mesh Basin.physics Basin.finVol).

End Stalled.

(** *** A time step that points backwards, in exact arithmetic. *)

Module Rewind.

Local Open Scope R_scope.

Definition DF : DataFile R :=
  Scenario.dataFile 0 (- (1 / 10)) 1 1 (981 / 100) 1 false [] [].

Definition world : World R :=
  Scenario.world
    (constructed DF (Scenario.mesh StillLake.centers 1) StillLake.physics
       (Scenario.constantFlux (0, 0))).

End Rewind.

(** *** Two cells that exchange what one loses, in exact arithmetic. *)

Module Exchange.

Local Open Scope R_scope.

Definition flux : Matrix R := [(1, 1 / 2); (- (1), - (1 / 2))].

Definition DF : DataFile R :=
  Scenario.dataFile 0 (1 / 2) 1 2 (981 / 100) 1 false [] [].

Definition physics : Physics R := Scenario.physics [(1, 0); (3, 1)] [0; 0].

Definition world : World R :=
  Scenario.world
    (constructed DF (Scenario.mesh [1; 3] 2) physics (Scenario.fixedFlux flux)).

End Exchange.

(** *** A bed that is dry in its second cell, in binary64. *)

Module DryBed.

Definition physics : Physics float :=
  Scenario.physics [(1%float, 0.5%float); (0%float, 0%float); (2%float, 0%float)]
    [0%float; 0.25%float; 0%float].

Definition world : World float :=
  Scenario.world
    (constructed (Basin.DF 1%float 1 false)
       (Scenario.mesh [0.5; 1.5; 2.5]%float 1%float) physics Basin.finVol).

End DryBed.

(** *** A decay in exact arithmetic: two cells, no flux, a source equal to
    minus the state, time step 1/2. *)

Module Decay.

Local Open Scope R_scope.

Definition physics : Physics R :=
  {| getInitialCondition := [(1, 0); (2, 1)];
     getTopography := [0; 0];
     sourceTermOf := fun S => mscale (- (1)) S;
     exactSolutionAt := fun _ => [(1, 0); (2, 1)] |}.

Definition DF : DataFile R :=
  Scenario.dataFile 0 (1 / 2) 1 2 (981 / 100) 1 false [] [].

Definition world : World R :=
  Scenario.world
    (constructed DF (Scenario.mesh [1; 3] 2) physics
       (Scenario.constantFlux (0, 0))).

End Decay.

(** *** Heights above a flat reference, in binary64: [n] cells whose
    reference solution is zero and whose heights are [c], dx = 1. *)

Module Offset.

Definition object (n : nat) (c : float) : TimeScheme float :=
  let DF := Scenario.dataFile 0%float 0.5%float 1%float 1%float 9.81%float
              1 false [] [] in
  let physics := Scenario.physics (repeat (0%float, 0%float) n)
                   (repeat 0%float n) in
  {| _DF := DF; _mesh := Scenario.mesh (repeat 0%float n) 1%float;
     _physics := physics;
     _finVol := Scenario.constantFlux (0%float, 0%float);
     _Sol := repeat (c, 0%float) n;
     _timeStep := getTimeStep DF;
     _initialTime := getInitialTime DF;
     _finalTime := getFinalTime DF;
     _currentTime := getFinalTime DF;
     _nProbes := getNumberOfProbes DF;
     _probesRef := getProbesReferences DF;
     _probesPos := getProbesPositions DF;
     _probesIndices := [] |}.

(** The world after [buildExactSolution]. *)
Definition world (n : nat) (c : float) : World float :=
  buildExactSolution (_currentTime (object n c)) (Scenario.world (object n c)).

End Offset.

(** *** The lake of above after an earlier use, in binary64. *)

Module Reused.

(** The lake after an earlier use: another state, a later clock, and two
    resolved indices left in the table. *)
Definition object : TimeScheme float :=
  with_probesIndices
    (with_currentTime (with_Sol Lake.object [(2%float, 1%float)]) 2%float)
    [3; 4].

Definition world : World float := Scenario.world object.

End Reused.

(* ================================================================= *)
(** * Proofs *)

(* ================================================================= *)
(** ** Initialisation *)

Section InitializeFacts.

Context {D : Type} {SD : Scalar D}.

(** The base class copies the initial condition and resets the clock. *)
Lemma TimeScheme_Initialize_state :
  forall DF mesh (physics : Physics D) finVol this this',
    TimeScheme.Initialize DF mesh physics finVol this = Ok this' ->
    _Sol this' = getInitialCondition physics /\
    _currentTime this' = getInitialTime DF.
Proof.
  intros DF mesh physics finVol this this' H.
  unfold TimeScheme.Initialize in H.
  destruct (vector_resize (_probesIndices this) (getNumberOfProbes DF) 0);
    simpl in H; [| discriminate].
  injection H as <-. split; reflexivity.
Qed.

(** Both variants reset the clock. *)
Lemma Initialize_clock :
  forall v garbage DF mesh (physics : Physics D) finVol this this',
    Initialize v garbage DF mesh physics finVol this = Ok this' ->
    _currentTime this' = getInitialTime DF.
Proof.
  intros v garbage DF mesh physics finVol this this' H.
  destruct v; simpl in H;
    [unfold ExplicitEuler.Initialize in H | unfold RK2.Initialize in H];
    destruct (Eigen_resize garbage (getNumberOfCells mesh) (_Sol this));
    simpl in H; try discriminate; injection H as <-; reflexivity.
Qed.

(** What the variants leave in the state: the old contents when the size
    already fits, the contents of fresh storage otherwise. *)
Lemma Initialize_state :
  forall v garbage DF mesh (physics : Physics D) finVol this this',
    Initialize v garbage DF mesh physics finVol this = Ok this' ->
    _Sol this' =
      if rows (_Sol this) =? getNumberOfCells mesh then _Sol this
      else map garbage (seq 0 (Z.to_nat (getNumberOfCells mesh))).
Proof.
  intros v garbage DF mesh physics finVol this this' H.
  destruct v; simpl in H;
    [unfold ExplicitEuler.Initialize in H | unfold RK2.Initialize in H];
    unfold Eigen_resize in H;
    destruct (getNumberOfCells mesh <? 0); simpl in H; try discriminate;
    destruct (rows (_Sol this) =? getNumberOfCells mesh); simpl in H;
    injection H as <-; reflexivity.
Qed.

(** The variants never read the initial condition of the physics. *)
Lemma Initialize_ignores_initial_condition :
  forall v garbage DF mesh (physics physics' : Physics D) finVol this,
    match Initialize v garbage DF mesh physics finVol this,
          Initialize v garbage DF mesh physics' finVol this with
    | Ok a, Ok b => _Sol a = _Sol b
    | Fault f, Fault f' => f = f'
    | _, _ => False
    end.
Proof.
  intros v garbage DF mesh physics physics' finVol this.
  destruct v; simpl;
    [unfold ExplicitEuler.Initialize | unfold RK2.Initialize];
    destruct (Eigen_resize garbage (getNumberOfCells mesh) (_Sol this));
    simpl; reflexivity.
Qed.

End InitializeFacts.

(** Two binary64 literals are told apart by comparing both with [pivot]. *)
Ltac float_neq H pivot :=
  apply (f_equal (fun x : float => PrimFloat.ltb x pivot)) in H;
  vm_compute in H; discriminate H.

(** C1 (the code departs from the claim).  On the run [Reinitialise], for both
    variants and whatever fresh storage holds, [Initialize] succeeds and
    resets the clock to the configured initial time, but the state it
    leaves is the stepped state (2, 0), not the initial condition (1, 0)
    of the physics; on an object whose state is still empty it is the
    contents of fresh storage.  [TimeScheme::Initialize] on the same object
    does load the initial condition. *)
Theorem C1_Initialize_keeps_stale_state :
  forall (v : Scheme) (garbage : nat -> float * float),
    exists this : TimeScheme float,
      Reinitialise.run v garbage = Ok this /\
      _currentTime this = getInitialTime Reinitialise.DF /\
      _Sol this = [(2%float, 0%float)] /\
      _Sol this <> getInitialCondition Reinitialise.physics /\
      (exists this', Reinitialise.fresh v garbage this = Ok this' /\
                     _Sol this' = [garbage O]) /\
      (exists this', TimeScheme.Initialize Reinitialise.DF Reinitialise.mesh
                       Reinitialise.physics Reinitialise.finVol this = Ok this' /\
                     _Sol this' = getInitialCondition Reinitialise.physics).
Proof.
  intros v garbage.
  destruct v.
  - eexists. split; [vm_compute; reflexivity |].
    repeat split.
    + simpl. intro E. apply (f_equal firstHeight) in E. simpl in E.
      float_neq E 2%float.
    + eexists. split; [vm_compute; reflexivity | reflexivity].
    + eexists. split; [vm_compute; reflexivity | reflexivity].
  - eexists. split; [vm_compute; reflexivity |].
    repeat split.
    + simpl. intro E. apply (f_equal firstHeight) in E. simpl in E.
      float_neq E 2%float.
    + eexists. split; [vm_compute; reflexivity | reflexivity].
    + eexists. split; [vm_compute; reflexivity | reflexivity].
Qed.

(* ================================================================= *)
(** ** One step of each variant *)

Section StepFacts.

Context {D : Type} {SD : Scalar D}.

Lemma cwiseAdd_ok : forall a b : Matrix D,
  length a = length b -> cwiseAdd a b = Ok (mplus a b).
Proof.
  intros a b E. unfold cwiseAdd. rewrite E, Nat.eqb_refl. reflexivity.
Qed.

Lemma cwiseAdd_inv : forall a b c : Matrix D,
  cwiseAdd a b = Ok c -> length a = length b /\ c = mplus a b.
Proof.
  intros a b c H. unfold cwiseAdd in H.
  destruct (Nat.eqb_spec (length a) (length b)); [| discriminate].
  injection H as <-. split; [assumption | reflexivity].
Qed.

Lemma mplus_length : forall a b : Matrix D,
  length a = length b -> length (mplus a b) = length a.
Proof.
  induction a as [| ra a IH]; intros [| rb b] E; simpl in *;
    try reflexivity; try discriminate.
  f_equal. apply IH. congruence.
Qed.

Lemma mscale_length : forall (x : D) (m : Matrix D),
  length (mscale x m) = length m.
Proof. intros. unfold mscale. apply length_map. Qed.

Lemma mdivs_length : forall (m : Matrix D) (x : D),
  length (mdivs m x) = length m.
Proof. intros. unfold mdivs. apply length_map. Qed.

Lemma mzero_length : forall n, length (mzero (D := D) n) = n.
Proof. intros. unfold mzero. apply repeat_length. Qed.

Lemma stage_length : forall w t S,
  shaped w -> length S = length (_Sol (self w)) ->
  length (stage w t S) = length S.
Proof.
  intros w t S Hs HL. destruct (Hs S HL) as [HF HS]. unfold stage.
  rewrite mplus_length; rewrite mdivs_length; rewrite HF; auto.
Qed.

End StepFacts.

(** C2.  One Explicit Euler step, on providers that answer one row per
    cell, succeeds; it replaces the state S by
    S + dt * (Flux(t, S) / dx + Source(S)) and changes nothing else of the
    object; the flux provider is called once, at (t, S), then the source
    provider once, at S, and their buffers hold these two answers.  This
    holds in every arithmetic, binary64 included. *)
Theorem C2_ExplicitEuler_oneStep :
  forall (D : Type) (SD : Scalar D) (w : World D),
    let S := _Sol (self w) in
    let t := _currentTime (self w) in
    let dt := _timeStep (self w) in
    let dx := getSpaceStep (_mesh (self w)) in
    let F := fluxVectorOf (_finVol (self w)) t S in
    let Src := sourceTermOf (_physics (self w)) S in
    length F = length S ->
    length Src = length S ->
    ExplicitEuler.oneStep w =
      Ok {| self := with_Sol (self w)
                      (mplus S (mscale dt (mplus (mdivs F dx) Src)));
            sourceTerm := Src;
            exactSol := exactSol w;
            fluxVector := F;
            calls := calls w ++ [BuildFluxVector t S; BuildSourceTerm S];
            output := output w |}.
Proof.
  intros D SD w S t dt dx F Src HF HS.
  unfold ExplicitEuler.oneStep. simpl.
  fold S t dt dx F Src.
  rewrite cwiseAdd_ok by (rewrite mdivs_length; congruence).
  simpl.
  rewrite cwiseAdd_ok.
  - simpl. unfold with_self. simpl. rewrite <- app_assoc. reflexivity.
  - rewrite mscale_length, mplus_length; rewrite mdivs_length; congruence.
Qed.

(** C3.  One RK2 step, on providers that answer one row per cell, succeeds.
    Stage 1 is k1 = Flux(t, S) / dx + Source(S); the trial state is
    S + dt * k1; stage 2 is k2 = Flux(t + dt, trial) / dx + Source(trial);
    the state becomes S + (0.5 * dt) * (k1 + k2) and nothing else of the
    object changes.  The providers are called in the order flux at (t, S),
    source at S, source at the trial state, flux at (t + dt, trial state):
    in stage 2 the source comes first and both calls receive the same
    trial state.  This holds in every arithmetic, binary64 included. *)
Theorem C3_RK2_oneStep :
  forall (D : Type) (SD : Scalar D) (w : World D),
    let S := _Sol (self w) in
    let t := _currentTime (self w) in
    let dt := _timeStep (self w) in
    let dx := getSpaceStep (_mesh (self w)) in
    let Flux := fluxVectorOf (_finVol (self w)) in
    let Source := sourceTermOf (_physics (self w)) in
    let k1 := mplus (mdivs (Flux t S) dx) (Source S) in
    let trial := mplus S (mscale dt k1) in
    let k2 := mplus (mdivs (Flux (dadd t dt) trial) dx) (Source trial) in
    length (Flux t S) = length S ->
    length (Source S) = length S ->
    length (Source trial) = length S ->
    length (Flux (dadd t dt) trial) = length S ->
    RK2.oneStep w =
      Ok {| self := with_Sol (self w)
                      (mplus S (mscale (dmul dhalf dt) (mplus k1 k2)));
            sourceTerm := Source trial;
            exactSol := exactSol w;
            fluxVector := Flux (dadd t dt) trial;
            calls := calls w ++ [BuildFluxVector t S; BuildSourceTerm S;
                                 BuildSourceTerm trial;
                                 BuildFluxVector (dadd t dt) trial];
            output := output w |}.
Proof.
  intros D SD w S t dt dx Flux Source k1 trial k2 H1 H2 H3 H4.
  assert (L1 : length k1 = length S).
  { unfold k1. rewrite mplus_length; rewrite mdivs_length; congruence. }
  assert (L2 : length k2 = length S).
  { unfold k2. rewrite mplus_length; rewrite mdivs_length; congruence. }
  unfold RK2.oneStep. simpl.
  fold S t dt dx Flux Source.
  rewrite cwiseAdd_ok by (rewrite mdivs_length; congruence).
  simpl. fold k1.
  rewrite cwiseAdd_ok by (rewrite mscale_length; congruence).
  simpl. fold trial.
  rewrite cwiseAdd_ok by (rewrite mdivs_length; congruence).
  simpl. fold k2.
  rewrite cwiseAdd_ok by congruence.
  simpl.
  rewrite cwiseAdd_ok
    by (rewrite mscale_length, mplus_length; congruence).
  simpl. unfold with_self. simpl.
  repeat rewrite <- app_assoc. reflexivity.
Qed.

Lemma Lake_object_is_constructed :
  TimeScheme.new Lake.DF Lake.mesh Lake.physics Lake.finVol = Ok Lake.object.
Proof. reflexivity. Qed.

Lemma C2_ExplicitEuler_oneStep_witness :
  exists w' : World float,
    ExplicitEuler.oneStep Lake.world = Ok w' /\
    _Sol (self w') = repeat (1.25%float, 0.125%float) 5 /\
    calls w' = [BuildFluxVector 0%float (repeat (1%float, 0%float) 5);
                BuildSourceTerm (repeat (1%float, 0%float) 5)].
Proof.
  eexists. split.
  - apply (@C2_ExplicitEuler_oneStep float binary64 Lake.world);
      reflexivity.
  - split; vm_compute; reflexivity.
Defined.

Lemma C3_RK2_oneStep_witness :
  exists w' : World float,
    RK2.oneStep Lake.world = Ok w' /\
    _Sol (self w') = repeat (1.25%float, 0.125%float) 5 /\
    calls w' = [BuildFluxVector 0%float (repeat (1%float, 0%float) 5);
                BuildSourceTerm (repeat (1%float, 0%float) 5);
                BuildSourceTerm (repeat (1.25%float, 0.125%float) 5);
                BuildFluxVector 0.5%float (repeat (1.25%float, 0.125%float) 5)].
Proof.
  eexists. split.
  - apply (@C3_RK2_oneStep float binary64 Lake.world); reflexivity.
  - split; vm_compute; reflexivity.
Defined.

(* ================================================================= *)
(** ** Stepping repeatedly *)

Section AdvanceFacts.

Context {D : Type} {SD : Scalar D}.

Lemma oneStep_frame : forall v (w w' : World D),
  oneStep v w = Ok w' -> steppedFrom w w'.
Proof.
  intros v w w' H. unfold steppedFrom.
  destruct v; simpl in H;
    [unfold ExplicitEuler.oneStep in H | unfold RK2.oneStep in H];
    simpl in H;
    repeat match type of H with
           | bind (cwiseAdd ?a ?b) _ = _ =>
               destruct (cwiseAdd a b); simpl in H; [| discriminate H]
           end;
    injection H as <-; simpl; repeat split; reflexivity.
Qed.

Lemma oneStep_shaped : forall v (w : World D),
  shaped w ->
  exists w', oneStep v w = Ok w' /\
             _Sol (self w') = update v w /\
             steppedFrom w w'.
Proof.
  intros v w Hs.
  destruct (Hs _ eq_refl) as [HF HS].
  assert (L1 : length (rk2k1 w) = length (_Sol (self w)))
    by (apply stage_length; [assumption | reflexivity]).
  assert (Lt : length (rk2trial w) = length (_Sol (self w))).
  { unfold rk2trial. rewrite mplus_length; rewrite ?mscale_length; congruence. }
  assert (L2 : length (rk2k2 w) = length (_Sol (self w))).
  { unfold rk2k2. rewrite stage_length; assumption. }
  destruct (Hs _ Lt) as [HFt HSt].
  destruct v; simpl.
  - unfold ExplicitEuler.oneStep. simpl.
    rewrite cwiseAdd_ok by (rewrite mdivs_length, HF, HS; reflexivity).
    simpl.
    rewrite cwiseAdd_ok
      by (rewrite mscale_length, mplus_length; rewrite mdivs_length, HF; auto).
    simpl. eexists. split; [reflexivity |].
    split; [reflexivity | repeat split].
  - unfold RK2.oneStep. simpl.
    rewrite cwiseAdd_ok by (rewrite mdivs_length, HF, HS; reflexivity).
    simpl. fold (stage w (_currentTime (self w)) (_Sol (self w))).
    fold (rk2k1 w).
    rewrite cwiseAdd_ok by (rewrite mscale_length; congruence).
    simpl. fold (rk2trial w).
    rewrite cwiseAdd_ok by (rewrite mdivs_length, HFt, HSt; reflexivity).
    simpl.
    fold (stage w (dadd (_currentTime (self w)) (_timeStep (self w)))
            (rk2trial w)).
    fold (rk2k2 w).
    rewrite cwiseAdd_ok by congruence.
    simpl.
    rewrite cwiseAdd_ok by (rewrite mscale_length, mplus_length; congruence).
    simpl. eexists. split; [reflexivity |].
    split; [reflexivity | repeat split].
Qed.

Lemma update_length : forall v (w : World D),
  shaped w -> length (update v w) = length (_Sol (self w)).
Proof.
  intros v w Hs.
  assert (L1 : length (rk2k1 w) = length (_Sol (self w)))
    by (apply stage_length; [assumption | reflexivity]).
  assert (Lt : length (rk2trial w) = length (_Sol (self w))).
  { unfold rk2trial. rewrite mplus_length; rewrite ?mscale_length; congruence. }
  assert (L2 : length (rk2k2 w) = length (_Sol (self w))).
  { unfold rk2k2. rewrite stage_length; assumption. }
  destruct v; simpl.
  - unfold eulerUpdate.
    rewrite mplus_length; rewrite ?mscale_length, ?stage_length; auto.
  - unfold rk2Update.
    rewrite mplus_length; rewrite ?mscale_length, ?mplus_length; congruence.
Qed.

(** Coefficient-wise operations on matrices built row by row from one list. *)
Lemma mplus_map : forall (A : Type) (f g : A -> D * D) (l : list A),
  mplus (map f l) (map g l) =
  map (fun x => (dadd (fst (f x)) (fst (g x)), dadd (snd (f x)) (snd (g x)))) l.
Proof.
  intros A f g l. induction l as [| x l IH]; simpl; [| rewrite IH]; reflexivity.
Qed.

Lemma mscale_map : forall (A : Type) (a : D) (f : A -> D * D) (l : list A),
  mscale a (map f l) = map (fun x => (dmul a (fst (f x)), dmul a (snd (f x)))) l.
Proof. intros. unfold mscale. apply map_map. Qed.

Lemma mdivs_map : forall (A : Type) (a : D) (f : A -> D * D) (l : list A),
  mdivs (map f l) a = map (fun x => (ddiv (fst (f x)) a, ddiv (snd (f x)) a)) l.
Proof. intros. unfold mdivs. apply map_map. Qed.

Lemma mzero_map : forall (A : Type) (l : list A),
  mzero (length l) = map (fun _ => (dzero, dzero)) l.
Proof.
  intros A l. unfold mzero.
  induction l as [| x l IH]; simpl; [| rewrite IH]; reflexivity.
Qed.

Lemma fst_combine : forall (A B : Type) (a : list A) (b : list B),
  length a = length b -> map fst (combine a b) = a.
Proof.
  induction a as [| x a IH]; intros [| y b] E; simpl in *;
    try reflexivity; try discriminate.
  f_equal. apply IH. congruence.
Qed.

Lemma snd_combine : forall (A B : Type) (a : list A) (b : list B),
  length a = length b -> map snd (combine a b) = b.
Proof.
  induction a as [| x a IH]; intros [| y b] E; simpl in *;
    try reflexivity; try discriminate.
  f_equal. apply IH. congruence.
Qed.

(** Stepping keeps the shape of the state and leaves the collaborators in
    place, so [shaped] survives a pass. *)
Lemma shaped_step : forall (w w' : World D),
  shaped w -> steppedFrom w w' ->
  length (_Sol (self w')) = length (_Sol (self w)) ->
  shaped (TimeScheme.tick w').
Proof.
  intros w w' Hs [E _] L. unfold shaped, TimeScheme.tick in *. simpl.
  rewrite L. rewrite E. simpl. exact Hs.
Qed.

End AdvanceFacts.

(** *** In exact arithmetic *)

Section ExactSteps.

Local Open Scope R_scope.

Lemma mplus_zero_exact : forall S : Matrix R,
  mplus S (mzero (length S)) = S.
Proof.
  intros S. rewrite <- (map_id S) at 1. rewrite (mzero_map S), mplus_map.
  rewrite <- (map_id S) at 2. apply map_ext. intros [h q]. simpl.
  f_equal; lra.
Qed.

(** Zero flux and zero source: a stage is zero. *)
Lemma stage_zero_exact : forall (w : World R) t S,
  (forall t S, fluxVectorOf (_finVol (self w)) t S = mzero (length S)) ->
  (forall S, sourceTermOf (_physics (self w)) S = mzero (length S)) ->
  stage w t S = mzero (length S).
Proof.
  intros w t S HF HS. unfold stage. rewrite HF, HS.
  rewrite (mzero_map S), mdivs_map, mplus_map.
  apply map_ext. intros _. simpl. unfold Rdiv. f_equal; lra.
Qed.

Lemma mscale_zero_exact : forall a n, mscale (a : R) (mzero n) = mzero n.
Proof.
  intros a n. unfold mzero, mscale. induction n as [| n IH]; simpl;
    [reflexivity |]. f_equal; [f_equal; lra | exact IH].
Qed.

Lemma mplus_zero_zero_exact : forall n,
  mplus (mzero n) (mzero n) = mzero (D := R) n.
Proof.
  intros n. unfold mzero. induction n as [| n IH]; simpl; [reflexivity |].
  f_equal; [f_equal; lra | exact IH].
Qed.

Lemma update_zero_exact : forall v (w : World R),
  (forall t S, fluxVectorOf (_finVol (self w)) t S = mzero (length S)) ->
  (forall S, sourceTermOf (_physics (self w)) S = mzero (length S)) ->
  update v w = _Sol (self w).
Proof.
  intros v w HF HS.
  assert (K1 : rk2k1 w = mzero (length (_Sol (self w))))
    by (apply stage_zero_exact; assumption).
  assert (T : rk2trial w = _Sol (self w)).
  { unfold rk2trial. rewrite K1, mscale_zero_exact. apply mplus_zero_exact. }
  destruct v; simpl.
  - unfold eulerUpdate. rewrite stage_zero_exact by assumption.
    rewrite mscale_zero_exact. apply mplus_zero_exact.
  - unfold rk2Update, rk2k2. rewrite T, K1.
    rewrite (stage_zero_exact w _ _ HF HS).
    rewrite mplus_zero_zero_exact, mscale_zero_exact.
    apply mplus_zero_exact.
Qed.

Lemma zero_providers_shaped : forall w : World R,
  (forall t S, fluxVectorOf (_finVol (self w)) t S = mzero (length S)) ->
  (forall S, sourceTermOf (_physics (self w)) S = mzero (length S)) ->
  shaped w.
Proof.
  intros w HF HS S _. split; intros; rewrite ?HF, ?HS; apply mzero_length.
Qed.

End ExactSteps.

(** C4.  In exact arithmetic, with a nonzero spacing: when the flux
    provider answers zero for every time and state and the source provider
    answers zero for every state, [k] passes of either variant succeed and
    leave the state exactly as it was, for every state and every [k]. *)
Theorem C4_zero_flux_zero_source_fixed_point :
  forall (v : Scheme) (k : nat) (w : World R),
    (forall t S, fluxVectorOf (_finVol (self w)) t S = mzero (length S)) ->
    (forall S, sourceTermOf (_physics (self w)) S = mzero (length S)) ->
    getSpaceStep (_mesh (self w)) <> 0%R ->
    exists w', advance v k w = Ok w' /\ _Sol (self w') = _Sol (self w).
Proof.
  intros v k. induction k as [| k IH]; intros w HF HS Hdx.
  - exists w. split; reflexivity.
  - simpl.
    destruct (oneStep_shaped v (zero_providers_shaped w HF HS))
      as (w1 & E1 & S1 & Fr).
    rewrite E1. simpl.
    rewrite (update_zero_exact v w HF HS) in S1.
    destruct Fr as (Eself & _).
    destruct (IH (TimeScheme.tick w1)) as (w' & E' & S').
    + unfold TimeScheme.tick. simpl. rewrite Eself. simpl. exact HF.
    + unfold TimeScheme.tick. simpl. rewrite Eself. simpl. exact HS.
    + unfold TimeScheme.tick. simpl. rewrite Eself. simpl. exact Hdx.
    + exists w'. split; [exact E' |].
      rewrite S'. unfold TimeScheme.tick. simpl. exact S1.
Qed.

Lemma C4_zero_flux_zero_source_fixed_point_witness :
  exists w', advance SchemeRK2 5 StillLake.world = Ok w' /\
             _Sol (self w') = repeat (1%R, 0%R) 10.
Proof.
  apply (@C4_zero_flux_zero_source_fixed_point SchemeRK2 5 StillLake.world).
  - intros t S. reflexivity.
  - intros S. reflexivity.
  - simpl. lra.
Defined.

(** *** In binary64 *)

Lemma zero_over_divisor : forall dx, divisor64 dx -> isZero64 (PrimFloat.div 0 dx).
Proof.
  intros dx H. unfold isZero64, divisor64 in *. rewrite div_spec.
  change (Prim2SF 0) with (S754_zero false).
  destruct (Prim2SF dx) as [b | b | | b m e]; try contradiction;
    eexists; reflexivity.
Qed.

Lemma zero_plus_zero : forall a, isZero64 a -> PrimFloat.add a 0 = 0%float.
Proof.
  intros a [b H]. apply Prim2SF_inj. rewrite add_spec, H.
  change (Prim2SF 0) with (S754_zero false). destruct b; reflexivity.
Qed.

Lemma finite_times_zero : forall x, finite64 x -> isZero64 (PrimFloat.mul x 0).
Proof.
  intros x H. unfold isZero64, finite64 in *. rewrite mul_spec.
  change (Prim2SF 0) with (S754_zero false).
  destruct (Prim2SF x) as [b | b | | b m e]; try contradiction;
    eexists; reflexivity.
Qed.

Lemma plus_zero_keeps : forall s z,
  notNegativeZero s -> isZero64 z -> PrimFloat.add s z = s.
Proof.
  intros s z Hs [b Hz]. apply Prim2SF_inj. rewrite add_spec, Hz.
  unfold notNegativeZero in Hs.
  destruct (Prim2SF s) as [bs | bs | | bs m e]; try reflexivity.
  destruct bs; [contradiction Hs; reflexivity |].
  destruct b; reflexivity.
Qed.

Lemma stage_zero_binary64 : forall (w : World float) t S,
  (forall t S, fluxVectorOf (_finVol (self w)) t S = mzero (length S)) ->
  (forall S, sourceTermOf (_physics (self w)) S = mzero (length S)) ->
  divisor64 (getSpaceStep (_mesh (self w))) ->
  stage w t S = mzero (length S).
Proof.
  intros w t S HF HS Hdx. unfold stage. rewrite HF, HS.
  rewrite (mzero_map S), mdivs_map, mplus_map.
  apply map_ext. intros _. simpl.
  rewrite (@zero_plus_zero _ (@zero_over_divisor _ Hdx)). reflexivity.
Qed.

Lemma mplus_zeros_binary64 : forall n,
  mplus (mzero n) (mzero n) = mzero (D := float) n.
Proof.
  intros n. unfold mzero. induction n as [| n IH]; simpl; [reflexivity |].
  f_equal. exact IH.
Qed.

Lemma keep_binary64 : forall (S : Matrix float) (a : float),
  clean S -> finite64 a ->
  mplus S (mscale a (mzero (length S))) = S.
Proof.
  intros S a Hc Ha.
  rewrite <- (map_id S) at 1. rewrite (mzero_map S), mscale_map, mplus_map.
  rewrite <- (map_id S) at 2. apply map_ext_in. intros [h q] Hin.
  unfold clean in Hc. rewrite Forall_forall in Hc.
  destruct (Hc _ Hin) as [Hh Hq]. simpl in *.
  rewrite (@plus_zero_keeps h _ Hh (@finite_times_zero a Ha)).
  rewrite (@plus_zero_keeps q _ Hq (@finite_times_zero a Ha)). reflexivity.
Qed.

Lemma update_zero_binary64 : forall v (w : World float),
  (forall t S, fluxVectorOf (_finVol (self w)) t S = mzero (length S)) ->
  (forall S, sourceTermOf (_physics (self w)) S = mzero (length S)) ->
  divisor64 (getSpaceStep (_mesh (self w))) ->
  finite64 (_timeStep (self w)) ->
  finite64 (PrimFloat.mul 0.5 (_timeStep (self w))) ->
  clean (_Sol (self w)) ->
  update v w = _Sol (self w).
Proof.
  intros v w HF HS Hdx Hdt Hhalf Hc.
  assert (K1 : rk2k1 w = mzero (length (_Sol (self w))))
    by (apply stage_zero_binary64; assumption).
  assert (T : rk2trial w = _Sol (self w)).
  { unfold rk2trial. rewrite K1. apply keep_binary64; assumption. }
  destruct v; simpl.
  - unfold eulerUpdate. rewrite stage_zero_binary64 by assumption.
    apply keep_binary64; assumption.
  - unfold rk2Update, rk2k2. rewrite T, K1.
    rewrite (stage_zero_binary64 w _ _ HF HS Hdx).
    rewrite mplus_zeros_binary64. apply keep_binary64; assumption.
Qed.

Lemma zero_providers_shaped64 : forall w : World float,
  (forall t S, fluxVectorOf (_finVol (self w)) t S = mzero (length S)) ->
  (forall S, sourceTermOf (_physics (self w)) S = mzero (length S)) ->
  shaped w.
Proof.
  intros w HF HS S _. split; intros; rewrite ?HF, ?HS; apply mzero_length.
Qed.

(** X6.  The zero fixed point in binary64.  When the flux provider and the
    source provider answer zero, the spacing is neither zero nor a NaN, the
    time step and its half are finite and no entry of the state is the
    negative zero, [k] passes of either variant succeed and leave the
    state exactly as it was (infinite and NaN entries included), for every
    [k]. *)
Theorem zero_flux_zero_source_fixed_point_binary64 :
  forall (v : Scheme) (k : nat) (w : World float),
    (forall t S, fluxVectorOf (_finVol (self w)) t S = mzero (length S)) ->
    (forall S, sourceTermOf (_physics (self w)) S = mzero (length S)) ->
    divisor64 (getSpaceStep (_mesh (self w))) ->
    finite64 (_timeStep (self w)) ->
    finite64 (PrimFloat.mul 0.5 (_timeStep (self w))) ->
    clean (_Sol (self w)) ->
    exists w', advance v k w = Ok w' /\ _Sol (self w') = _Sol (self w).
Proof.
  intros v k. induction k as [| k IH]; intros w HF HS Hdx Hdt Hhalf Hc.
  - exists w. split; reflexivity.
  - simpl.
    destruct (@oneStep_shaped float binary64 v w (zero_providers_shaped64 w HF HS))
      as (w1 & E1 & S1 & Fr).
    rewrite E1. simpl.
    rewrite (update_zero_binary64 v w HF HS Hdx Hdt Hhalf Hc) in S1.
    destruct Fr as (Eself & _).
    destruct (IH (TimeScheme.tick w1)) as (w' & E' & S');
      try (unfold TimeScheme.tick; simpl; rewrite Eself; simpl; assumption).
    + unfold TimeScheme.tick. simpl. rewrite Eself. simpl. rewrite S1. exact Hc.
    + exists w'. split; [exact E' |].
      rewrite S'. unfold TimeScheme.tick. simpl. exact S1.
Qed.

Lemma zero_flux_zero_source_fixed_point_binary64_witness :
  exists w',
    advance SchemeRK2 7 (Basin.world 0.5%float 1 false) = Ok w' /\
    _Sol (self w') = _Sol (self (Basin.world 0.5%float 1 false)).
Proof.
  apply (@zero_flux_zero_source_fixed_point_binary64 SchemeRK2 7
           (Basin.world 0.5%float 1 false)).
  - intros t S. reflexivity.
  - intros S. reflexivity.
  - exact I.
  - exact I.
  - exact I.
  - unfold clean. simpl.
    repeat (constructor; [split; vm_compute; discriminate |]). constructor.
Defined.


(** The same run in binary64, for both variants: five passes leave the
    ten rows (1, 0) as they were. *)
Example still_lake_binary64 :
  let DF := Scenario.dataFile 0%float 0.1%float 0.5%float 1%float 9.81%float
              1 false [] [] in
  let physics := Scenario.physics (repeat (1%float, 0%float) 10)
                   (repeat 0%float 10) in
  let mesh := Scenario.mesh (repeat 0%float 10) 1%float in
  let finVol := Scenario.constantFlux (0%float, 0%float) in
  forall v,
    exists this w',
      TimeScheme.new DF mesh physics finVol = Ok this /\
      advance v 5 (Scenario.world this) = Ok w' /\
      _Sol (self w') = getInitialCondition physics.
Proof.
  intros DF physics mesh finVol v.
  destruct v; do 2 eexists;
    (split; [reflexivity | split; vm_compute; reflexivity]).
Qed.

Section ExactFixedFlux.

Local Open Scope R_scope.

Ltac rows_normalise :=
  repeat (rewrite mdivs_map || rewrite mscale_map || rewrite mplus_map).

Ltac rows_equal :=
  apply map_ext; intros [[h q] [ch cq]];
  apply injective_projections; simpl; unfold Rdiv;
  repeat match goal with
         | |- context [/ ?x] => is_var x; generalize (/ x); intro
         end;
  field.

Lemma euler_fixed_flux_rows : forall (l : list ((R * R) * (R * R))) (dt dx : R),
  mplus (map fst l)
        (mscale dt (mplus (mdivs (map snd l) dx) (mzero (length l)))) =
  mplus (map fst l) (mscale dt (mdivs (map snd l) dx)).
Proof.
  intros l dt dx. rewrite (mzero_map l). rows_normalise. rows_equal.
Qed.

Lemma rk2_fixed_flux_rows : forall (l : list ((R * R) * (R * R))) (dt dx : R),
  mplus (map fst l)
        (mscale (1 / 2 * dt)
           (mplus (mplus (mdivs (map snd l) dx) (mzero (length l)))
                  (mplus (mdivs (map snd l) dx) (mzero (length l))))) =
  mplus (map fst l) (mscale dt (mdivs (map snd l) dx)).
Proof.
  intros l dt dx. rewrite (mzero_map l). rows_normalise. rows_equal.
Qed.

Lemma accumulate_rows : forall (l : list ((R * R) * (R * R))) (a b dx : R),
  mplus (mplus (map fst l) (mscale a (mdivs (map snd l) dx)))
        (mscale b (mdivs (map snd l) dx)) =
  mplus (map fst l) (mscale (b + 1 * a) (mdivs (map snd l) dx)).
Proof.
  intros l a b dx. rows_normalise. rows_equal.
Qed.

Lemma nothing_rows : forall (l : list ((R * R) * (R * R))) (a dx : R),
  mplus (map fst l) (mscale (0 * a) (mdivs (map snd l) dx)) = map fst l.
Proof.
  intros l a dx. rows_normalise. rewrite <- (map_id (map fst l)), map_map.
  rows_equal.
Qed.

(** A state and a flux array of the same size, as rows of one list. *)
Lemma paired : forall S c : Matrix R,
  length c = length S ->
  exists l : list ((R * R) * (R * R)),
    S = map fst l /\ c = map snd l /\ length l = length S.
Proof.
  intros S c E. exists (combine S c).
  rewrite fst_combine, snd_combine by congruence.
  rewrite length_combine, E, Nat.min_id. repeat split; reflexivity.
Qed.

Lemma fixed_flux_shaped : forall c w, fixedFluxZeroSource c w -> shaped w.
Proof.
  intros c w (HF & HS & L) S E. split.
  - intros t. rewrite HF. congruence.
  - rewrite HS. apply mzero_length.
Qed.

Lemma stage_fixed_flux : forall c w t S,
  fixedFluxZeroSource c w ->
  stage w t S = mplus (mdivs c (getSpaceStep (_mesh (self w)))) (mzero (length S)).
Proof.
  intros c w t S (HF & HS & L). unfold stage. rewrite HF, HS. reflexivity.
Qed.

(** One pass under a constant flux [c] and a zero source adds
    dt * (c / dx), for both variants. *)
Lemma update_fixed_flux_exact : forall v c (w : World R),
  fixedFluxZeroSource c w ->
  update v w =
    mplus (_Sol (self w))
          (mscale (_timeStep (self w))
                  (mdivs c (getSpaceStep (_mesh (self w))))).
Proof.
  intros v c w H.
  assert (Hs := fixed_flux_shaped H).
  assert (Lt : length (rk2trial w) = length (_Sol (self w))).
  { unfold rk2trial, rk2k1.
    rewrite mplus_length; rewrite ?mscale_length, ?stage_length; auto. }
  destruct H as (HF & HS & L).
  destruct (paired (_Sol (self w)) c L) as (l & ES & Ec & El).
  assert (H : fixedFluxZeroSource c w) by (repeat split; assumption).
  destruct v; simpl.
  - unfold eulerUpdate. rewrite (stage_fixed_flux _ _ H).
    rewrite <- El. rewrite ES, Ec. apply euler_fixed_flux_rows.
  - unfold rk2Update, rk2k2, rk2k1.
    rewrite !(stage_fixed_flux _ _ H). rewrite Lt.
    rewrite <- El. rewrite ES, Ec. apply rk2_fixed_flux_rows.
Qed.

(** [k] passes add k * dt * (c / dx). *)
Lemma advance_fixed_flux_exact : forall v c k (w : World R),
  fixedFluxZeroSource c w ->
  exists w', advance v k w = Ok w' /\
    _Sol (self w') =
      mplus (_Sol (self w))
            (mscale (INR k * _timeStep (self w))
                    (mdivs c (getSpaceStep (_mesh (self w))))).
Proof.
  intros v c k. induction k as [| k IH]; intros w H.
  - exists w. split; [reflexivity |].
    destruct H as (HF & HS & L).
    destruct (paired (_Sol (self w)) c L) as (l & ES & Ec & El).
    simpl INR. rewrite ES, Ec. symmetry. apply nothing_rows.
  - assert (Hs := fixed_flux_shaped H).
    destruct (oneStep_shaped v Hs) as (w1 & E1 & S1 & Fr).
    rewrite (update_fixed_flux_exact v H) in S1.
    assert (Fr' := Fr). destruct Fr' as (Eself & _).
    assert (L1 : length (_Sol (self w1)) = length (_Sol (self w))).
    { rewrite S1. destruct H as (_ & _ & L).
      rewrite mplus_length; rewrite ?mscale_length, ?mdivs_length; auto. }
    destruct (IH (TimeScheme.tick w1)) as (w' & E' & S').
    { destruct H as (HF & HS & L). unfold fixedFluxZeroSource, TimeScheme.tick.
      simpl. rewrite L1. rewrite Eself. simpl. repeat split; assumption. }
    exists w'. split.
    + simpl. rewrite E1. simpl. exact E'.
    + rewrite S_INR, S'. unfold TimeScheme.tick. simpl. rewrite Eself. simpl.
      rewrite S1.
      destruct H as (HF & HS & L).
      destruct (paired (_Sol (self w)) c L) as (l & ES & Ec & El).
      rewrite ES, Ec. rewrite accumulate_rows.
      replace (INR k * _timeStep (self w) + 1 * _timeStep (self w))
        with ((INR k + 1) * _timeStep (self w)) by ring.
      reflexivity.
Qed.

End ExactFixedFlux.

(** C5 as stated fails: on the lake (dt = 0.5, dx = 2, constant flux rows
    c = (1, 0.5), state rows (1, 0)) two passes of either variant give
    rows (1.5, 0.25), while State_0 + 2 * dt * c has rows (2, 0.5). *)
Lemma C5_constant_flux_counterexample :
  exists wE wR : World float,
    advance SchemeExplicitEuler 2 Lake.world = Ok wE /\
    advance SchemeRK2 2 Lake.world = Ok wR /\
    _Sol (self wE) = repeat (1.5%float, 0.25%float) 5 /\
    _Sol (self wR) = repeat (1.5%float, 0.25%float) 5 /\
    announcedLinear (_Sol Lake.object)
      (fluxVectorOf Lake.finVol 0%float (_Sol Lake.object))
      2%float (_timeStep Lake.object) = repeat (2%float, 0.5%float) 5 /\
    repeat (1.5%float, 0.25%float) 5 <> repeat (2%float, 0.5%float) 5.
Proof.
  do 2 eexists.
  split; [vm_compute; reflexivity |].
  split; [vm_compute; reflexivity |].
  split; [reflexivity |].
  split; [reflexivity |].
  split; [vm_compute; reflexivity |].
  intro E. apply (f_equal firstHeight) in E. simpl in E.
  float_neq E 2%float.
Qed.

(** C5, amended.  In exact arithmetic: when the flux provider answers the
    same array [c] (one row per cell) for every time and state and the
    source provider answers zero, [k] passes of either variant succeed and
    give State_k = State_0 + k * dt * (c / dx): the flux enters divided by
    the spacing. *)
Theorem C5_constant_flux_linear_in_time :
  forall (v : Scheme) (c : Matrix R) (k : nat) (w : World R),
    (forall t S, fluxVectorOf (_finVol (self w)) t S = c) ->
    (forall S, sourceTermOf (_physics (self w)) S = mzero (length S)) ->
    length c = length (_Sol (self w)) ->
    getSpaceStep (_mesh (self w)) <> 0%R ->
    exists w', advance v k w = Ok w' /\
      _Sol (self w') =
        mplus (_Sol (self w))
              (mscale (INR k * _timeStep (self w))%R
                      (mdivs c (getSpaceStep (_mesh (self w))))).
Proof.
  intros v c k w HF HS L _.
  apply advance_fixed_flux_exact. repeat split; assumption.
Qed.

Lemma C5_constant_flux_linear_in_time_witness :
  exists w', advance SchemeRK2 2 Stream.world = Ok w' /\
    _Sol (self w') =
      mplus [(1%R, 0%R); (1%R, 0%R)]
            (mscale (INR 2 * (1 / 2))%R (mdivs Stream.flux 2%R)).
Proof.
  apply (@C5_constant_flux_linear_in_time SchemeRK2 Stream.flux 2 Stream.world).
  - intros t S. reflexivity.
  - intros S. reflexivity.
  - reflexivity.
  - simpl. lra.
Defined.

(* ================================================================= *)
(** ** Probe resolution *)

Lemma index_nth : forall (A : Type) (l : list A) (k : nat) (d : A),
  (k < length l)%nat -> index l (Z.of_nat k) = Ok (nth k l d).
Proof.
  intros A l k d H. unfold index.
  destruct (Z.ltb_spec (Z.of_nat k) 0); [lia |].
  rewrite Nat2Z.id.
  destruct (nth_error l k) eqn:E.
  - rewrite (nth_error_nth _ _ d E). reflexivity.
  - apply nth_error_None in E. lia.
Qed.



Section NearestCell.

Local Open Scope R_scope.

Variable centers : list R.
Variable pos : R.




End NearestCell.





(* ================================================================= *)
(** ** Diagnostics *)

Section LoopsOverIndices.

Variables A St : Type.

(** A [for] loop that reads [l] at its counter visits the items of [l]. *)
Lemma for_each_indexed :
  forall (body : A -> St -> result St) (g : Z -> St -> result St) (l : list A)
         (m : nat) (s : St),
    (forall k a s, nth_error l k = Some a ->
                   g (Z.of_nat (m + k)) s = body a s) ->
    for_each g (map Z.of_nat (seq m (length l))) s = for_each body l s.
Proof.
  intros body g l. induction l as [| a l IH]; intros m s H; [reflexivity |].
  simpl. rewrite <- (H 0%nat a s eq_refl), Nat.add_0_r.
  destruct (g (Z.of_nat m) s) as [s' | f]; simpl; [| reflexivity].
  apply IH. intros k b s0 Hk.
  replace (S m + k)%nat with (m + S k)%nat by lia. apply H. exact Hk.
Qed.

(** A loop whose body cannot fault is a fold. *)
Lemma for_each_pure : forall (f : St -> A -> St) (l : list A) (s : St),
  for_each (fun a s => Ok (f s a)) l s = Ok (fold_left f l s).
Proof.
  intros f l. induction l as [| a l IH]; intros s; simpl; [reflexivity |].
  apply IH.
Qed.

End LoopsOverIndices.

Lemma nth_error_combine : forall (A B : Type) (a : list A) (b : list B) k x y,
  nth_error (combine a b) k = Some (x, y) ->
  nth_error a k = Some x /\ nth_error b k = Some y.
Proof.
  induction a as [| x0 a IH]; intros [| y0 b] k x y H;
    try (destruct k; discriminate).
  destruct k as [| k]; simpl in *.
  - injection H as -> ->. split; reflexivity.
  - apply IH. exact H.
Qed.

Lemma index_nth_error : forall (A : Type) (l : list A) (k : nat) (a : A),
  nth_error l k = Some a -> index l (Z.of_nat k) = Ok a.
Proof.
  intros A l k a H. unfold index.
  destruct (Z.ltb_spec (Z.of_nat k) 0); [lia |].
  rewrite Nat2Z.id, H. reflexivity.
Qed.

(** Two columns computed from the same rows, read side by side. *)
Lemma side_by_side : forall (X Y Z : Type) (rows : list X) (p : X -> Y) (q : X -> Z),
  map (fun x => (p x, q x)) rows = combine (map p rows) (map q rows).
Proof.
  intros X Y Z rows p q. induction rows as [| x rows IH]; simpl;
    [| rewrite IH]; reflexivity.
Qed.

Section ExactErrors.

Local Open Scope R_scope.

Lemma computeL1Error_fold : forall w : World R,
  (length (_Sol (self w)) <= length (exactSol w))%nat ->
  TimeScheme.computeL1Error w =
    let error := fold_left l1Step (combine (_Sol (self w)) (exactSol w)) (0, 0) in
    Ok (fst error * getDx (_DF (self w)), snd error * getDx (_DF (self w))).
Proof.
  intros w L. unfold TimeScheme.computeL1Error.
  unfold upto, rows. rewrite Nat2Z.id.
  replace (length (_Sol (self w)))
    with (length (combine (_Sol (self w)) (exactSol w)))
    by (rewrite length_combine; lia).
  rewrite (for_each_indexed
             (fun (p : (R * R) * (R * R)) error => Ok (l1Step error p))).
  - rewrite for_each_pure. reflexivity.
  - intros k [s e] error H. apply nth_error_combine in H. destruct H as [Hs He].
    simpl. rewrite (index_nth_error _ _ Hs). simpl.
    rewrite (index_nth_error _ _ He). reflexivity.
Qed.

Lemma l1_sum_fst : forall (a : R) (l : list ((R * R) * (R * R))) error,
  (forall p, In p l -> Rabs (fst (fst p) - fst (snd p)) = a) ->
  fst (fold_left l1Step l error) = fst error + INR (length l) * a.
Proof.
  intros a l. induction l as [| p l IH]; intros error H.
  - simpl. ring.
  - change (fold_left l1Step (p :: l) error)
      with (fold_left l1Step l (l1Step error p)).
    rewrite IH by (intros q Hq; apply H; right; exact Hq).
    change (length (p :: l)) with (S (length l)). rewrite S_INR.
    simpl fst. rewrite (H p) by (left; reflexivity). ring.
Qed.

Lemma l1_sum_snd : forall (a : R) (l : list ((R * R) * (R * R))) error,
  (forall p, In p l -> Rabs (snd (fst p) - snd (snd p)) = a) ->
  snd (fold_left l1Step l error) = snd error + INR (length l) * a.
Proof.
  intros a l. induction l as [| p l IH]; intros error H.
  - simpl. ring.
  - change (fold_left l1Step (p :: l) error)
      with (fold_left l1Step l (l1Step error p)).
    rewrite IH by (intros q Hq; apply H; right; exact Hq).
    change (length (p :: l)) with (S (length l)). rewrite S_INR.
    simpl snd. rewrite (H p) by (left; reflexivity). ring.
Qed.

(** A column of the state that is a column of the reference shifted by
    [c], read pair by pair. *)
Lemma shifted_pairs : forall (A : Type) (col : A -> R) (c : R) (S E : list A),
  map col S = map (fun e => col e + c) E ->
  forall p, In p (combine S E) -> col (fst p) - col (snd p) = c.
Proof.
  intros A col c. induction S as [| s S IH]; intros [| e E] H p Hp;
    simpl in *; try contradiction; try discriminate.
  injection H as H0 H. destruct Hp as [<- | Hp].
  - simpl. lra.
  - apply (IH E); assumption.
Qed.

Lemma squares_sum : forall (c : R) (l : list R) acc,
  (forall d, In d l -> d = c) ->
  fold_left (fun acc d => acc + d * d) l acc = acc + INR (length l) * (c * c).
Proof.
  intros c l. induction l as [| d l IH]; intros acc H.
  - simpl. ring.
  - change (fold_left (fun acc d => acc + d * d) (d :: l) acc)
      with (fold_left (fun acc d => acc + d * d) l (acc + d * d)).
    rewrite IH by (intros q Hq; apply H; right; exact Hq).
    change (length (d :: l)) with (S (length l)). rewrite S_INR.
    rewrite (H d) by (left; reflexivity). ring.
Qed.

(** The norm of the difference of two columns that differ by [c]
    everywhere. *)
Lemma norm_shifted : forall (A : Type) (col : A -> R) (c : R) (S E : list A),
  length S = length E ->
  map col S = map (fun e => col e + c) E ->
  TimeScheme.norm (map col S) (map col E) = Ok (sqrt (INR (length S)) * Rabs c).
Proof.
  intros A col c S E L H. unfold TimeScheme.norm.
  rewrite !length_map, L, Nat.eqb_refl. f_equal.
  rewrite H, <- side_by_side, map_map. simpl.
  rewrite (@squares_sum c).
  - rewrite length_map, <- L. simpl dzero.
    replace (0 + INR (length S) * (c * c)) with (INR (length S) * (c * c)) by ring.
    rewrite sqrt_mult_alt by apply pos_INR.
    f_equal. fold (Rsqr c). apply sqrt_Rsqr_abs.
  - intros d Hd. apply in_map_iff in Hd. destruct Hd as (e & <- & _). ring.
Qed.

Lemma computeL2Error_shifted : forall (w : World R) (ch cq : R),
  length (_Sol (self w)) = length (exactSol w) ->
  map fst (_Sol (self w)) = map (fun e => fst e + ch) (exactSol w) ->
  map snd (_Sol (self w)) = map (fun e => snd e + cq) (exactSol w) ->
  TimeScheme.computeL2Error w =
    Ok (sqrt (INR (length (_Sol (self w)))) * Rabs ch * getDx (_DF (self w)),
        sqrt (INR (length (_Sol (self w)))) * Rabs cq * getDx (_DF (self w))).
Proof.
  intros w ch cq L Hh Hq. unfold TimeScheme.computeL2Error.
  rewrite (norm_shifted fst ch _ _ L Hh). simpl.
  rewrite (norm_shifted snd cq _ _ L Hq). reflexivity.
Qed.

Lemma computeL1Error_shifted : forall (w : World R) (ch cq : R),
  length (_Sol (self w)) = length (exactSol w) ->
  map fst (_Sol (self w)) = map (fun e => fst e + ch) (exactSol w) ->
  map snd (_Sol (self w)) = map (fun e => snd e + cq) (exactSol w) ->
  TimeScheme.computeL1Error w =
    Ok (INR (length (_Sol (self w))) * Rabs ch * getDx (_DF (self w)),
        INR (length (_Sol (self w))) * Rabs cq * getDx (_DF (self w))).
Proof.
  intros w ch cq L Hh Hq. rewrite computeL1Error_fold by lia. simpl.
  rewrite (@l1_sum_fst (Rabs ch)), (@l1_sum_snd (Rabs cq)).
  - rewrite length_combine, <- L, Nat.min_id. simpl.
    f_equal. apply injective_projections; simpl; ring.
  - intros p Hp. f_equal. apply (shifted_pairs snd cq _ _ Hq p Hp).
  - intros p Hp. f_equal. apply (shifted_pairs fst ch _ _ Hh p Hp).
Qed.

Lemma shifted_by_zero : forall (A : Type) (col : A -> R) (E : list A),
  map col E = map (fun e => col e + 0) E.
Proof. intros. apply map_ext. intros. ring. Qed.

End ExactErrors.

(** *** A state compared with itself, in binary64 *)

Lemma minus_itself : forall x, finite64 x -> PrimFloat.sub x x = 0%float.
Proof.
  intros x H. apply Prim2SF_inj. rewrite sub_spec.
  change (Prim2SF 0) with (S754_zero false). unfold finite64 in H.
  destruct (Prim2SF x) as [b | b | | b m e]; try contradiction.
  - destruct b; reflexivity.
  - unfold SF64sub, SFsub. rewrite Z.sub_diag. reflexivity.
Qed.

Lemma zero_times_finite : forall x, finite64 x -> isZero64 (PrimFloat.mul 0 x).
Proof.
  intros x H. unfold isZero64, finite64 in *. rewrite mul_spec.
  change (Prim2SF 0) with (S754_zero false).
  destruct (Prim2SF x) as [b | b | | b m e]; try contradiction;
    eexists; reflexivity.
Qed.

(** The loop of [computeL1Error] on a finite state compared with itself
    adds nothing. *)
Lemma l1_identical_from : forall (M : Matrix float) len m,
  finiteState M -> (m + len <= length M)%nat ->
  for_each
    (fun i (error : float * float) =>
       s <- index M i ;;
       e <- index M i ;;
       Ok (dadd (fst error) (dabs (dsub (fst s) (fst e))),
           dadd (snd error) (dabs (dsub (snd s) (snd e)))))
    (map Z.of_nat (seq m len)) (0%float, 0%float)
  = Ok (0%float, 0%float).
Proof.
  intros M len. induction len as [| len IH]; intros m HS Hlen; [reflexivity |].
  simpl for_each.
  rewrite (index_nth M (0%float, 0%float)) by lia. simpl bind.
  unfold finiteState in HS. rewrite Forall_forall in HS.
  destruct (HS (nth m M (0%float, 0%float))) as [Hh Hq];
    [apply nth_In; lia |].
  simpl dsub. rewrite (@minus_itself _ Hh), (@minus_itself _ Hq).
  change (dadd (fst (0%float, 0%float)) (dabs 0%float)) with 0%float.
  change (dadd (snd (0%float, 0%float)) (dabs 0%float)) with 0%float.
  apply IH; [apply Forall_forall; exact HS | lia].
Qed.

(** The sum of squares of [norm] on a finite column compared with itself. *)
Lemma squares_identical : forall a : list float,
  Forall finite64 a ->
  fold_left (fun acc d => dadd acc (dmul d d))
    (map (fun p => dsub (fst p) (snd p)) (combine a a)) 0%float = 0%float.
Proof.
  induction a as [| x a IH]; intros H; [reflexivity |].
  inversion H as [| y l Hx Ha]; subst. simpl.
  rewrite (@minus_itself _ Hx).
  change (PrimFloat.add 0 (PrimFloat.mul 0 0)) with 0%float.
  apply IH. exact Ha.
Qed.

Lemma finite_column : forall (col : float * float -> float) (S : Matrix float),
  (forall r, finite64 (fst r) /\ finite64 (snd r) -> finite64 (col r)) ->
  finiteState S -> Forall finite64 (map col S).
Proof.
  intros col S Hcol HS. unfold finiteState in HS.
  induction HS as [| r S Hr HS IH]; simpl; constructor; auto.
Qed.

(** A finite state compared with itself, in binary64: both errors are
    zeros. *)
Lemma identical_binary64 : forall w : World float,
  _Sol (self w) = exactSol w ->
  finiteState (_Sol (self w)) ->
  finite64 (getDx (_DF (self w))) ->
  exists l1 l2,
    TimeScheme.computeL1Error w = Ok l1 /\
    TimeScheme.computeL2Error w = Ok l2 /\
    isZero64 (fst l1) /\ isZero64 (snd l1) /\
    isZero64 (fst l2) /\ isZero64 (snd l2).
Proof.
  intros w E HS Hdx.
  unfold TimeScheme.computeL1Error, TimeScheme.computeL2Error, TimeScheme.norm.
  rewrite <- E. rewrite !Nat.eqb_refl.
  unfold upto, rows. rewrite Nat2Z.id.
  change (@dzero float binary64) with 0%float.
  rewrite (@l1_identical_from (_Sol (self w)) (length (_Sol (self w))) 0%nat HS)
    by lia.
  rewrite !squares_identical
    by (apply finite_column; [intros r Hr; apply Hr | exact HS]).
  simpl. do 2 eexists. split; [reflexivity |]. split; [reflexivity |].
  simpl. change (PrimFloat.sqrt 0) with 0%float.
  repeat split; apply zero_times_finite; exact Hdx.
Qed.

(** C8 as stated fails in binary64, the arithmetic of the program.  Ten
    cells whose heights are those of the reference (zero) plus c = 0.1,
    with dx = 1: the loop of [computeL1Error] adds 0.1 ten times and
    returns 0.99999999999999989, below N * |c| * dx = 1.  Two cells whose
    heights are those of the reference plus c = 1.5, with dx = 1:
    [computeL2Error] returns the square root of 4.5,
    2.1213203435596424, and sqrt(N) * |c| * dx is 2.1213203435596428. *)
Lemma C8_error_norms_counterexample :
  map fst (_Sol (self (Offset.world 10 0.1))) =
    map (fun e => dadd (fst e) 0.1%float) (exactSol (Offset.world 10 0.1)) /\
  TimeScheme.computeL1Error (Offset.world 10 0.1)
    = Ok (0.99999999999999989%float, 0%float) /\
  dmul (dmul 10%float (dabs 0.1%float)) (getDx (_DF (self (Offset.world 10 0.1))))
    = 1%float /\
  dltb 0.99999999999999989%float 1%float = true /\
  map fst (_Sol (self (Offset.world 2 1.5))) =
    map (fun e => dadd (fst e) 1.5%float) (exactSol (Offset.world 2 1.5)) /\
  TimeScheme.computeL2Error (Offset.world 2 1.5)
    = Ok (2.1213203435596424%float, 0%float) /\
  dmul (dmul (dsqrt 2%float) (dabs 1.5%float))
       (getDx (_DF (self (Offset.world 2 1.5))))
    = 2.1213203435596428%float /\
  dltb 2.1213203435596424%float 2.1213203435596428%float = true.
Proof.
  repeat split; vm_compute; reflexivity.
Qed.

(** C8, amended.  When the state equals the reference solution, both
    functions return zeros: in binary64 for a state whose entries are
    finite and a finite spacing dx = [getDx] (the zeros are negative when
    dx is), and in exact arithmetic, where they return (0, 0).  In exact
    arithmetic, for every state and reference solution of N cells: when the
    heights (resp. the discharges) of the state are those of the reference
    plus a constant c on every cell, both functions succeed, the L1 error
    of that component is N * |c| * dx and its L2 error is
    sqrt(N) * |c| * dx.  In binary64 the two functions return the rounded
    sums they compute, which these closed forms only approximate. *)
Theorem C8_error_norms :
  (forall w : World float,
     _Sol (self w) = exactSol w ->
     finiteState (_Sol (self w)) ->
     finite64 (getDx (_DF (self w))) ->
     exists l1 l2,
       TimeScheme.computeL1Error w = Ok l1 /\
       TimeScheme.computeL2Error w = Ok l2 /\
       isZero64 (fst l1) /\ isZero64 (snd l1) /\
       isZero64 (fst l2) /\ isZero64 (snd l2)) /\
  (forall (w : World R),
    let S := _Sol (self w) in
    let E := exactSol w in
    let dx := getDx (_DF (self w)) in
    let N := INR (length S) in
    (S = E ->
       TimeScheme.computeL1Error w = Ok (0%R, 0%R) /\
       TimeScheme.computeL2Error w = Ok (0%R, 0%R)) /\
    (forall c : R,
       length S = length E ->
       map fst S = map (fun e => (fst e + c)%R) E ->
       exists l1 l2,
         TimeScheme.computeL1Error w = Ok l1 /\
         TimeScheme.computeL2Error w = Ok l2 /\
         fst l1 = (N * Rabs c * dx)%R /\
         fst l2 = (sqrt N * Rabs c * dx)%R) /\
    (forall c : R,
       length S = length E ->
       map snd S = map (fun e => (snd e + c)%R) E ->
       exists l1 l2,
         TimeScheme.computeL1Error w = Ok l1 /\
         TimeScheme.computeL2Error w = Ok l2 /\
         snd l1 = (N * Rabs c * dx)%R /\
         snd l2 = (sqrt N * Rabs c * dx)%R)).
Proof.
  split; [exact identical_binary64 |].
  intros w S E dx N. subst S E dx N. split; [| split].
  - intros H.
    assert (L : length (_Sol (self w)) = length (exactSol w))
      by (rewrite H; reflexivity).
    assert (Hh : map fst (_Sol (self w)) = map (fun e => (fst e + 0)%R) (exactSol w))
      by (rewrite H; apply shifted_by_zero).
    assert (Hq : map snd (_Sol (self w)) = map (fun e => (snd e + 0)%R) (exactSol w))
      by (rewrite H; apply shifted_by_zero).
    rewrite (@computeL1Error_shifted w 0%R 0%R L Hh Hq).
    rewrite (@computeL2Error_shifted w 0%R 0%R L Hh Hq).
    rewrite Rabs_R0.
    split; f_equal; apply injective_projections; simpl; ring.
  - intros c L Hh.
    rewrite computeL1Error_fold by lia.
    unfold TimeScheme.computeL2Error.
    rewrite (@norm_shifted _ fst c (_Sol (self w)) (exactSol w) L Hh).
    simpl bind.
    unfold TimeScheme.norm. rewrite !length_map, L, Nat.eqb_refl. simpl bind.
    do 2 eexists. split; [reflexivity |]. split; [reflexivity |].
    simpl fst. split; [| reflexivity].
    rewrite (@l1_sum_fst (Rabs c)).
    + rewrite length_combine, <- L, Nat.min_id. simpl. ring.
    + intros p Hp. f_equal. apply (shifted_pairs fst c _ _ Hh p Hp).
  - intros c L Hq.
    rewrite computeL1Error_fold by lia.
    unfold TimeScheme.computeL2Error.
    rewrite (@norm_shifted _ snd c (_Sol (self w)) (exactSol w) L Hq).
    unfold TimeScheme.norm. rewrite !length_map, L, Nat.eqb_refl. simpl bind.
    do 2 eexists. split; [reflexivity |]. split; [reflexivity |].
    simpl snd. split; [| reflexivity].
    rewrite (@l1_sum_snd (Rabs c)).
    + rewrite length_combine, <- L, Nat.min_id. simpl. ring.
    + intros p Hp. f_equal. apply (shifted_pairs snd c _ _ Hq p Hp).
Qed.

Lemma C8_error_norms_witness :
  (exists l1 l2,
     TimeScheme.computeL1Error (Offset.world 10 0) = Ok l1 /\
     TimeScheme.computeL2Error (Offset.world 10 0) = Ok l2 /\
     isZero64 (fst l1) /\ isZero64 (snd l1) /\
     isZero64 (fst l2) /\ isZero64 (snd l2)) /\
  exists l1 l2,
    TimeScheme.computeL1Error Gauge.world = Ok l1 /\
    TimeScheme.computeL2Error Gauge.world = Ok l2 /\
    fst l1 = (INR 3 * Rabs (- (1 / 2)) * (1 / 10))%R /\
    fst l2 = (sqrt (INR 3) * Rabs (- (1 / 2)) * (1 / 10))%R.
Proof.
  split.
  - apply (proj1 C8_error_norms (Offset.world 10 0)).
    + reflexivity.
    + unfold finiteState. simpl.
      repeat (constructor; [split; exact I |]). constructor.
    + exact I.
  - apply (proj1 (proj2 (proj2 C8_error_norms Gauge.world)) (- (1 / 2))%R).
    + reflexivity.
    + simpl. repeat (f_equal; try lra).
Defined.

(* ================================================================= *)
(** ** The time loop *)

Lemma in_upto : forall n i,
  In i (upto n) -> exists k, i = Z.of_nat k /\ (k < Z.to_nat n)%nat.
Proof.
  intros n i H. unfold upto in H. apply in_map_iff in H.
  destruct H as (k & <- & Hk). apply in_seq in Hk. exists k. split; [reflexivity | lia].
Qed.

Lemma for_each_ok : forall (A St : Type) (g : A -> St -> result St) (l : list A) (s : St),
  (forall a s, In a l -> exists s', g a s = Ok s') ->
  exists s', for_each g l s = Ok s'.
Proof.
  intros A St g l. induction l as [| a l IH]; intros s H.
  - exists s. reflexivity.
  - simpl. destruct (H a s (or_introl eq_refl)) as (s1 & E1). rewrite E1. simpl.
    apply IH. intros b s0 Hb. apply H. right. exact Hb.
Qed.

Lemma int_rem_ok : forall n d, 0 <= n -> d <> 0 -> int_rem n d = Ok (Z.rem n d).
Proof.
  intros n d Hn Hd. unfold int_rem.
  destruct (Z.eqb_spec d 0); [contradiction |].
  destruct (Z.eqb_spec n INT_MIN); [unfold INT_MIN in *; lia |]. reflexivity.
Qed.

Lemma int_div_ok : forall n d, 0 <= n -> d <> 0 -> int_div n d = Ok (Z.quot n d).
Proof.
  intros n d Hn Hd. unfold int_div.
  destruct (Z.eqb_spec d 0); [contradiction |].
  destruct (Z.eqb_spec n INT_MIN); [unfold INT_MIN in *; lia |]. reflexivity.
Qed.

Lemma int_div_10 : forall a, int_div a 10 = Ok (Z.quot a 10).
Proof.
  intros a. unfold int_div. simpl. rewrite andb_false_r. reflexivity.
Qed.

Lemma int_rem_zero : forall n, int_rem n 0 = Fault DivisionByZero.
Proof. reflexivity. Qed.

(** The integer tenth of an [int] is zero exactly strictly between -10 and
    10: the division truncates toward zero. *)
Lemma tenth_vanishes : forall sf, Z.quot sf 10 = 0 <-> -10 < sf < 10.
Proof.
  intros sf. rewrite Z.quot_small_iff by lia. lia.
Qed.

Section LoopFacts.

Context {D : Type} {SD : Scalar D}.

Lemma emitAll_self : forall es (w : World D), self (emitAll w es) = self w.
Proof.
  unfold emitAll. induction es as [| e es IH]; intros w; simpl;
    [reflexivity |]. rewrite IH. reflexivity.
Qed.

Lemma emitAll_output : forall es (w : World D),
  output (emitAll w es) = output w ++ es.
Proof.
  unfold emitAll. induction es as [| e es IH]; intros w; simpl.
  - rewrite app_nil_r. reflexivity.
  - rewrite IH. simpl. rewrite <- app_assoc. reflexivity.
Qed.

Lemma saveCurrentSolution_ok : forall fileName (w : World D),
  snapshotReady (self w) ->
  exists lines,
    TimeScheme.saveCurrentSolution fileName w =
      Ok (emit w (WriteFile fileName (Some TimeScheme.header) lines)).
Proof.
  intros fileName w [Hc Ht]. unfold TimeScheme.saveCurrentSolution.
  match goal with
  | |- context [for_each ?g ?l ?s] =>
      destruct (@for_each_ok _ _ g l s) as (lines & E)
  end.
  - intros i acc Hi. apply in_upto in Hi. destruct Hi as (k & -> & Hk).
    unfold rows in Hk. rewrite Nat2Z.id in Hk.
    rewrite (index_nth (getCellCenters (_mesh (self w))) dzero) by lia.
    simpl.
    rewrite (index_nth (_Sol (self w)) (dzero, dzero)) by lia. simpl.
    rewrite (index_nth (getTopography (_physics (self w))) dzero) by lia.
    simpl. eexists. reflexivity.
  - rewrite E. simpl. exists lines. reflexivity.
Qed.

Lemma saveProbes_from : forall (this : TimeScheme D) len m (acc : World D),
  probesReady this ->
  (m + len <= Z.to_nat (getNumberOfProbes (_DF this)))%nat ->
  for_each
    (fun i w' =>
       ref <- index (_probesRef this) i ;;
       let fileName :=
         TimeScheme.probeFile (getResultsDirectory (_DF this)) ref in
       idx <- index (_probesIndices this) i ;;
       r <- index (_Sol this) idx ;;
       z <- index (getTopography (_physics this)) idx ;;
       Ok (emit w' (AppendLine fileName
                      (TimeScheme.columns (getGravityAcceleration (_DF this))
                         (_currentTime this) z r))))
    (map Z.of_nat (seq m len)) acc
  = Ok (emitAll acc (map (probeRecord this) (seq m len))).
Proof.
  intros this len. induction len as [| len IH]; intros m acc Hr Hlen.
  - reflexivity.
  - destruct Hr as [Hn Hk].
    destruct (Hk m) as (Href & idx & Hidx & HS & HT); [lia |].
    simpl.
    rewrite (index_nth (_probesRef this) 0 Href). simpl.
    rewrite (index_nth_error _ _ Hidx). simpl.
    rewrite (index_nth (_Sol this) (dzero, dzero) HS). simpl.
    rewrite (index_nth (getTopography (_physics this)) dzero HT). simpl.
    rewrite IH; [| split; assumption | lia].
    unfold probeRecord at 2.
    rewrite (nth_error_nth _ _ 0 Hidx), Nat2Z.id. reflexivity.
Qed.

Lemma saveProbes_ok : forall w : World D,
  probesReady (self w) ->
  TimeScheme.saveProbes w = Ok (emitAll w (probeRecords (self w))).
Proof.
  intros w Hr. unfold TimeScheme.saveProbes, probeRecords, upto.
  apply saveProbes_from; [assumption | lia].
Qed.

End LoopFacts.

Section LoopSafety.

Context {D : Type} {SD : Scalar D}.

Lemma ready_moved : forall (w w' : World D) S' t',
  ready w ->
  self w' = with_currentTime (with_Sol (self w) S') t' ->
  length S' = length (_Sol (self w)) ->
  ready w'.
Proof.
  intros w w' S' t' (Hs & Hsnap & Hp & Hd) E L.
  unfold ready, shaped, snapshotReady, probesReady, samplingDefined in *.
  rewrite E. simpl. rewrite L. repeat split; try tauto.
  - apply (Hs S H).
  - apply (Hs S H).
  - apply (proj2 Hp k H).
  - apply (proj2 Hp k H).
Qed.

Lemma saveCurrentSolution_self : forall fileName (w w' : World D),
  TimeScheme.saveCurrentSolution fileName w = Ok w' ->
  exists e, w' = emit w e.
Proof.
  intros fileName w w' H. unfold TimeScheme.saveCurrentSolution in H.
  match type of H with
  | bind ?x _ = _ => destruct x as [lines | f]; simpl in H; [| discriminate H]
  end.
  injection H as <-. eexists. reflexivity.
Qed.

Lemma saveStep_self : forall resultsDir fluxName n (w w' : World D),
  TimeScheme.saveStep resultsDir fluxName n w = Ok w' -> self w' = self w.
Proof.
  intros resultsDir fluxName n w w' H. unfold TimeScheme.saveStep in H.
  destruct (negb (isSaveFinalTimeOnly (_DF (self w)))).
  - destruct (int_rem n (getSaveFrequency (_DF (self w)))) as [r | f];
      simpl in H; [| discriminate H].
    destruct (r =? 0).
    + destruct (int_div n (getSaveFrequency (_DF (self w)))) as [k | f];
        simpl in H; [| discriminate H].
      apply saveCurrentSolution_self in H. destruct H as (e & ->). reflexivity.
    + injection H as <-. reflexivity.
  - injection H as <-. reflexivity.
Qed.

Lemma saveStep_ok : forall resultsDir fluxName n (w : World D),
  snapshotReady (self w) -> samplingDefined (self w) -> 0 <= n ->
  exists w', TimeScheme.saveStep resultsDir fluxName n w = Ok w' /\
             self w' = self w.
Proof.
  intros resultsDir fluxName n w Hsnap [Hd _] Hn. unfold TimeScheme.saveStep.
  destruct (isSaveFinalTimeOnly (_DF (self w))) eqn:Ef; simpl.
  - exists w. split; reflexivity.
  - destruct Hd as [Hd | Hd]; [discriminate Hd |].
    rewrite (int_rem_ok Hn Hd). simpl.
    destruct (Z.rem n (getSaveFrequency (_DF (self w))) =? 0).
    + rewrite (int_div_ok Hn Hd). simpl.
      destruct (saveCurrentSolution_ok
                  (TimeScheme.solutionFile resultsDir fluxName
                     (Z.quot n (getSaveFrequency (_DF (self w))))) w Hsnap)
        as (lines & E).
      rewrite E. eexists. split; reflexivity.
    + exists w. split; reflexivity.
Qed.

(** The second sampling test, when its divisor is not zero. *)
Lemma probeStep_defined : forall n (w : World D),
  _nProbes (self w) <> 0 ->
  Z.quot (getSaveFrequency (_DF (self w))) 10 <> 0 ->
  0 <= n ->
  TimeScheme.probeStep n w =
    if Z.rem n (Z.quot (getSaveFrequency (_DF (self w))) 10) =? 0
    then TimeScheme.saveProbes w else Ok w.
Proof.
  intros n w Hp Hq Hn. unfold TimeScheme.probeStep.
  destruct (Z.eqb_spec (_nProbes (self w)) 0); [contradiction |]. simpl.
  rewrite int_div_10. simpl. rewrite (int_rem_ok Hn Hq). reflexivity.
Qed.

(** The second sampling test, when its divisor is zero. *)
Lemma probeStep_undefined : forall n (w : World D),
  _nProbes (self w) <> 0 ->
  Z.quot (getSaveFrequency (_DF (self w))) 10 = 0 ->
  TimeScheme.probeStep n w = Fault DivisionByZero.
Proof.
  intros n w Hp Hq. unfold TimeScheme.probeStep.
  destruct (Z.eqb_spec (_nProbes (self w)) 0); [contradiction |]. simpl.
  rewrite int_div_10. simpl. rewrite Hq. reflexivity.
Qed.

Lemma probeStep_ok : forall n (w : World D),
  probesReady (self w) -> samplingDefined (self w) -> 0 <= n ->
  exists w', TimeScheme.probeStep n w = Ok w' /\ self w' = self w.
Proof.
  intros n w Hr [_ Hd] Hn.
  destruct (Z.eq_dec (_nProbes (self w)) 0) as [E0 | Hp].
  - unfold TimeScheme.probeStep. rewrite E0. simpl.
    exists w. split; reflexivity.
  - destruct Hd as [Hd | Hd]; [contradiction |].
    rewrite (probeStep_defined w Hp Hd Hn).
    destruct (Z.rem n (Z.quot (getSaveFrequency (_DF (self w))) 10) =? 0).
    + rewrite (saveProbes_ok w Hr). eexists. split; [reflexivity |].
      apply emitAll_self.
    + exists w. split; reflexivity.
Qed.

(** A pass of the loop on a ready world succeeds: the state is the update
    of the variant, the clock has moved by the time step, the counter by
    one. *)
Lemma loopBody_ok : forall v resultsDir fluxName (w : World D) n,
  ready w -> 0 <= n < INT_MAX ->
  exists w',
    TimeScheme.loopBody (oneStep v) resultsDir fluxName w n = Ok (w', n + 1) /\
    self w' = with_currentTime (with_Sol (self w) (update v w))
                (dadd (_currentTime (self w)) (_timeStep (self w))).
Proof.
  intros v resultsDir fluxName w n Hr Hn.
  assert (Hr' := Hr). destruct Hr' as (Hs & Hsnap & Hp & Hd).
  unfold TimeScheme.loopBody.
  destruct (oneStep_shaped v Hs) as (w1 & E1 & S1 & Eself & _).
  rewrite E1. simpl.
  unfold incr. destruct (Z.ltb_spec n INT_MAX); [| lia]. simpl.
  assert (Et : self (TimeScheme.tick w1) =
               with_currentTime (with_Sol (self w) (update v w))
                 (dadd (_currentTime (self w)) (_timeStep (self w)))).
  { unfold TimeScheme.tick. simpl. rewrite Eself, S1. reflexivity. }
  assert (Hr1 : ready (TimeScheme.tick w1)).
  { eapply ready_moved; [exact Hr | exact Et |].
    apply update_length. exact Hs. }
  destruct Hr1 as (_ & Hsnap1 & Hp1 & Hd1).
  destruct (saveStep_ok resultsDir fluxName (n := n + 1) (TimeScheme.tick w1))
    as (w2 & E2 & Es2); [assumption | assumption | lia |].
  rewrite E2. simpl.
  destruct (probeStep_ok (n := n + 1) w2) as (w3 & E3 & Es3);
    [rewrite Es2; assumption | rewrite Es2; assumption | lia |].
  rewrite E3. simpl. exists w3. split; [reflexivity |].
  rewrite Es3, Es2. exact Et.
Qed.

(** The loop on a ready world: if the clock, advanced by repeated addition
    of the time step, is below the final time before each of the passes
    0 .. k-1 and not below it after k passes, then the loop makes exactly k
    passes. *)
Lemma timeLoop_passes : forall k v resultsDir fluxName (w : World D) n fuel,
  ready w -> 0 <= n -> n + Z.of_nat k <= INT_MAX ->
  (forall j, (j < k)%nat ->
     dltb (clockAfter (_currentTime (self w)) (_timeStep (self w)) j)
          (_finalTime (self w)) = true) ->
  dltb (clockAfter (_currentTime (self w)) (_timeStep (self w)) k)
       (_finalTime (self w)) = false ->
  (k <= fuel)%nat ->
  exists w',
    TimeScheme.timeLoop (oneStep v) resultsDir fluxName fuel w n
      = Some (Ok (w', n + Z.of_nat k)) /\
    _currentTime (self w') =
      clockAfter (_currentTime (self w)) (_timeStep (self w)) k /\
    _finalTime (self w') = _finalTime (self w) /\
    ready w'.
Proof.
  induction k as [| k IH]; intros v resultsDir fluxName w n fuel Hr Hn Hmax Hlt Hge Hf.
  - exists w. simpl in Hge. rewrite Z.add_0_r.
    destruct fuel; simpl; rewrite Hge;
      (split; [reflexivity | split; [reflexivity | split; [reflexivity | exact Hr]]]).
  - destruct fuel as [| fuel]; [lia |].
    assert (H0 := Hlt 0%nat ltac:(lia)). simpl in H0.
    simpl TimeScheme.timeLoop. rewrite H0.
    destruct (@loopBody_ok v resultsDir fluxName w n Hr) as (w1 & E1 & Es1);
      [lia |].
    rewrite E1.
    assert (Hr1 : ready w1).
    { eapply ready_moved; [exact Hr | exact Es1 |].
      apply update_length. apply Hr. }
    destruct (IH v resultsDir fluxName w1 (n + 1) fuel) as (w' & E' & Hc & HT & Hr');
      try assumption; try lia.
    + intros j Hj. rewrite Es1. simpl. apply (Hlt (S j)). lia.
    + rewrite Es1. simpl. exact Hge.
    + exists w'. rewrite E'. rewrite Es1 in Hc, HT. simpl in Hc, HT.
      split; [| split; [exact Hc | split; [exact HT | exact Hr']]].
      do 3 f_equal. lia.
Qed.

End LoopSafety.

Lemma Bench_ready : forall dt T sf,
  Z.quot sf 10 <> 0 -> ready (Bench.world dt T sf).
Proof.
  intros dt T sf Hq. unfold ready. split; [| split; [| split]].
  - intros S HS. simpl. split.
    + intros _. apply repeat_length.
    + apply mzero_length.
  - split; simpl; lia.
  - split; [reflexivity |]. simpl. intros k Hk.
    assert (k = 0%nat) by lia. subst k. split; [lia |].
    exists 2%nat. simpl. repeat split; lia.
  - split; simpl.
    + right. intros E. apply Hq. rewrite E. reflexivity.
    + right. exact Hq.
Qed.

Section ExactClock.

Local Open Scope R_scope.

Lemma clockAfter_exact : forall k (t dt : R),
  clockAfter t dt k = t + INR k * dt.
Proof.
  induction k as [| k IH]; intros t dt.
  - simpl. ring.
  - rewrite S_INR. simpl clockAfter. rewrite IH. ring.
Qed.

Lemma Rltb_lt : forall a b : R, Rltb a b = true <-> a < b.
Proof.
  intros a b. unfold Rltb. destruct (Rlt_dec a b); split; intros H;
    try assumption; try reflexivity; try discriminate; contradiction.
Qed.

Lemma Rltb_ge : forall a b : R, Rltb a b = false <-> b <= a.
Proof.
  intros a b. unfold Rltb. destruct (Rlt_dec a b); split; intros H;
    try reflexivity; try discriminate; lra.
Qed.

(** With a positive step there is a least number of steps that reaches
    the final time. *)
Lemma least_passes : forall t0 dt T : R,
  0 < dt -> t0 <= T ->
  exists k : nat,
    T <= t0 + INR k * dt /\
    forall j : nat, T <= t0 + INR j * dt -> (k <= j)%nat.
Proof.
  intros t0 dt T Hdt HT.
  destruct (dec_inh_nat_subset_has_unique_least_element
              (fun k => T <= t0 + INR k * dt)) as (k & [Hk Hleast] & _).
  - intros n. destruct (Rle_dec T (t0 + INR n * dt)); [left | right]; assumption.
  - set (x := (T - t0) / dt).
    assert (Hx : 0 <= x).
    { unfold x. apply Rmult_le_pos; [lra |].
      left. apply Rinv_0_lt_compat. exact Hdt. }
    destruct (archimed x) as [Hup _].
    assert (Hpos : (0 <= up x)%Z).
    { apply le_IZR. lra. }
    exists (Z.to_nat (up x)).
    rewrite INR_IZR_INZ, Z2Nat.id by exact Hpos.
    assert (E : x * dt = T - t0) by (unfold x; field; lra).
    assert (x * dt < IZR (up x) * dt) by (apply Rmult_lt_compat_r; lra).
    lra.
  - exists k. split; [exact Hk | exact Hleast].
Qed.

End ExactClock.

(** C6 as stated fails.  In binary64 with initial time 0, final time 1 and
    time step 0.1 (zero flux and source, frequency 20, one probe) the
    least k with 0 + k * 0.1 >= 1 is 10, but the loop makes 11 passes: the
    clock it tests is the sum of ten additions of 0.1, which is below 1.
    And with a save frequency of 5 and one probe (time step 1, final time
    1) the first pass stops on a modulo by zero. *)
Lemma C6_time_loop_counterexample :
  (exists w',
     TimeScheme.timeLoop (oneStep SchemeExplicitEuler) "results" "constant"
       11 (Bench.world 0.1%float 1%float 20) 0 = Some (Ok (w', 11)) /\
     _currentTime (self w') = 1.0999999999999999%float) /\
  forallb (fun k => dltb (dadd 0%float (dmul k 0.1%float)) 1%float)
    [0; 1; 2; 3; 4; 5; 6; 7; 8; 9]%float = true /\
  dltb (dadd 0%float (dmul 10%float 0.1%float)) 1%float = false /\
  dltb (clockAfter 0%float 0.1%float 10) 1%float = true /\
  TimeScheme.timeLoop (oneStep SchemeExplicitEuler) "results" "constant"
    11 (Bench.world 1%float 1%float 5) 0 = Some (Fault DivisionByZero).
Proof.
  split; [eexists; split; vm_compute; reflexivity |].
  repeat split; vm_compute; reflexivity.
Qed.

(** C6, amended.  The loop tests clock < finalTime before each pass.  On a
    world that is ready (providers answering one row per cell, centres and
    bottom heights for every cell, probe tables in range, no sampling test
    dividing by zero), in every arithmetic: if the clock obtained by adding
    the time step k times is below the final time for every count below k
    and not below it at k, and the counter stays within [int], the loop
    ends after exactly k passes with that clock and the counter advanced
    by k.  In exact arithmetic, for timeStep > 0 and finalTime >= clock at
    entry, such a k exists: it is the least k with
    clock + k * timeStep >= finalTime, and on exit the clock is
    >= finalTime. *)
Theorem C6_time_loop_passes :
  (forall (D : Type) (SD : Scalar D) (v : Scheme) (resultsDir fluxName : string)
          (w : World D) (n : Z) (k fuel : nat),
     let t0 := _currentTime (self w) in
     let dt := _timeStep (self w) in
     let T := _finalTime (self w) in
     ready w -> 0 <= n -> n + Z.of_nat k <= INT_MAX ->
     (forall j, (j < k)%nat -> dltb (clockAfter t0 dt j) T = true) ->
     dltb (clockAfter t0 dt k) T = false ->
     (k <= fuel)%nat ->
     exists w',
       TimeScheme.timeLoop (oneStep v) resultsDir fluxName fuel w n
         = Some (Ok (w', n + Z.of_nat k)) /\
       _currentTime (self w') = clockAfter t0 dt k /\
       dltb (_currentTime (self w')) (_finalTime (self w')) = false) /\
  (forall (v : Scheme) (resultsDir fluxName : string) (w : World R) (n : Z),
     let t0 := _currentTime (self w) in
     let dt := _timeStep (self w) in
     let T := _finalTime (self w) in
     ready w -> 0 <= n -> (0 < dt)%R -> (t0 <= T)%R ->
     exists k : nat,
       (T <= t0 + INR k * dt)%R /\
       (forall j : nat, (T <= t0 + INR j * dt)%R -> (k <= j)%nat) /\
       (n + Z.of_nat k <= INT_MAX ->
        forall fuel, (k <= fuel)%nat ->
        exists w',
          TimeScheme.timeLoop (oneStep v) resultsDir fluxName fuel w n
            = Some (Ok (w', n + Z.of_nat k)) /\
          _currentTime (self w') = (t0 + INR k * dt)%R /\
          (_finalTime (self w') <= _currentTime (self w'))%R)).
Proof.
  split.
  - intros D SD v resultsDir fluxName w n k fuel t0 dt T Hr Hn Hmax Hlt Hge Hf.
    destruct (@timeLoop_passes D SD k v resultsDir fluxName w n fuel
                Hr Hn Hmax Hlt Hge Hf) as (w' & E & Hc & HT & _).
    exists w'. split; [exact E |]. split; [exact Hc |].
    rewrite Hc, HT. exact Hge.
  - intros v resultsDir fluxName w n t0 dt T Hr Hn Hdt HT. subst t0 dt T.
    destruct (least_passes Hdt HT) as (k & Hk & Hleast).
    exists k. split; [exact Hk |]. split; [exact Hleast |].
    intros Hmax fuel Hf.
    destruct (@timeLoop_passes R exact k v resultsDir fluxName w n fuel Hr Hn Hmax)
      as (w' & E & Hc & HT' & _).
    + intros j Hj. rewrite clockAfter_exact. apply Rltb_lt.
      destruct (Rlt_dec (_currentTime (self w) + INR j * _timeStep (self w))
                        (_finalTime (self w))) as [| Hnlt]; [assumption |].
      assert (k <= j)%nat by (apply Hleast; lra). lia.
    + rewrite clockAfter_exact. apply Rltb_ge. exact Hk.
    + exact Hf.
    + exists w'. split; [exact E |].
      rewrite Hc, HT', clockAfter_exact. split; [reflexivity | exact Hk].
Qed.

Lemma C6_time_loop_passes_witness :
  exists w',
    TimeScheme.timeLoop (oneStep SchemeRK2) "results" "constant" 11
      (Bench.world 0.1%float 1%float 20) 0 = Some (Ok (w', 0 + Z.of_nat 11)) /\
    _currentTime (self w') = clockAfter 0%float 0.1%float 11 /\
    dltb (_currentTime (self w')) (_finalTime (self w')) = false.
Proof.
  apply (proj1 C6_time_loop_passes float binary64 SchemeRK2 "results" "constant"
           (Bench.world 0.1%float 1%float 20) 0 11%nat 11%nat).
  - apply Bench_ready. vm_compute. discriminate.
  - lia.
  - vm_compute. discriminate.
  - intros j Hj.
    do 11 (destruct j as [| j]; [vm_compute; reflexivity |]). lia.
  - vm_compute. reflexivity.
  - lia.
Defined.

(* ================================================================= *)
(** ** Sampling of the probes *)

Section ProbeSampling.

Context {D : Type} {SD : Scalar D}.

Lemma saveStep_output : forall resultsDir fluxName n (w w' : World D),
  TimeScheme.saveStep resultsDir fluxName n w = Ok w' ->
  exists snapshot, output w' = output w ++ snapshot /\
                   Forall isSnapshot snapshot.
Proof.
  intros resultsDir fluxName n w w' H. unfold TimeScheme.saveStep in H.
  assert (Hnone : exists snapshot, output w = output w ++ snapshot /\
                                   Forall isSnapshot snapshot).
  { exists []. rewrite app_nil_r. split; [reflexivity | constructor]. }
  destruct (negb (isSaveFinalTimeOnly (_DF (self w))));
    [| injection H as <-; exact Hnone].
  destruct (int_rem n (getSaveFrequency (_DF (self w)))) as [r | f];
    simpl in H; [| discriminate H].
  destruct (r =? 0); [| injection H as <-; exact Hnone].
  destruct (int_div n (getSaveFrequency (_DF (self w)))) as [k | f];
    simpl in H; [| discriminate H].
  unfold TimeScheme.saveCurrentSolution in H.
  match type of H with
  | bind ?x _ = _ => destruct x as [lines | f]; simpl in H; [| discriminate H]
  end.
  injection H as <-. simpl. eexists. split; [reflexivity |].
  constructor; [exact I | constructor].
Qed.

(** The second sampling test on a world whose probe tables are in range
    and whose divisor is not zero. *)
Lemma probeStep_records : forall n (w : World D),
  0 < getNumberOfProbes (_DF (self w)) ->
  probesReady (self w) ->
  Z.quot (getSaveFrequency (_DF (self w))) 10 <> 0 ->
  0 <= n ->
  exists w',
    TimeScheme.probeStep n w = Ok w' /\
    self w' = self w /\
    output w' =
      output w ++
      (if Z.rem n (Z.quot (getSaveFrequency (_DF (self w))) 10) =? 0
       then probeRecords (self w) else []).
Proof.
  intros n w Hnb Hr Hq Hn.
  assert (Hp : _nProbes (self w) <> 0) by (destruct Hr as [-> _]; lia).
  rewrite (probeStep_defined w Hp Hq Hn).
  destruct (Z.rem n (Z.quot (getSaveFrequency (_DF (self w))) 10) =? 0).
  - rewrite (saveProbes_ok w Hr). eexists. split; [reflexivity |].
    split; [apply emitAll_self | apply emitAll_output].
  - exists w. rewrite app_nil_r. repeat split; reflexivity.
Qed.

(** A pass of the loop on a ready world with probes: what it writes. *)
Lemma loopBody_records : forall v resultsDir fluxName (w : World D) n,
  ready w -> 0 <= n < INT_MAX ->
  0 < getNumberOfProbes (_DF (self w)) ->
  exists w' snapshot,
    TimeScheme.loopBody (oneStep v) resultsDir fluxName w n = Ok (w', n + 1) /\
    Forall isSnapshot snapshot /\
    output w' =
      output w ++ snapshot ++
      (if Z.rem (n + 1) (Z.quot (getSaveFrequency (_DF (self w))) 10) =? 0
       then probeRecords (self w') else []).
Proof.
  intros v resultsDir fluxName w n Hr Hn Hnb.
  assert (Hr' := Hr). destruct Hr' as (Hs & Hsnap & Hp & Hd).
  unfold TimeScheme.loopBody.
  destruct (oneStep_shaped v Hs) as (w1 & E1 & S1 & Eself & Eout & _).
  rewrite E1. simpl.
  unfold incr. destruct (Z.ltb_spec n INT_MAX); [| lia]. simpl.
  assert (Et : self (TimeScheme.tick w1) =
               with_currentTime (with_Sol (self w) (update v w))
                 (dadd (_currentTime (self w)) (_timeStep (self w)))).
  { unfold TimeScheme.tick. simpl. rewrite Eself, S1. reflexivity. }
  assert (Hr1 : ready (TimeScheme.tick w1)).
  { eapply ready_moved; [exact Hr | exact Et |].
    apply update_length. exact Hs. }
  destruct Hr1 as (_ & Hsnap1 & Hp1 & Hd1).
  destruct (saveStep_ok resultsDir fluxName (n := n + 1) (TimeScheme.tick w1))
    as (w2 & E2 & Es2); [assumption | assumption | lia |].
  rewrite E2. simpl.
  destruct (saveStep_output _ _ _ _ E2) as (snapshot & Eo2 & Hsn).
  assert (EDF : _DF (self w2) = _DF (self w)) by (rewrite Es2, Et; reflexivity).
  destruct (@probeStep_records (n + 1) w2) as (w3 & E3 & Es3 & Eo3).
  - rewrite EDF. exact Hnb.
  - rewrite Es2. exact Hp1.
  - rewrite EDF. destruct Hd as [_ [Hd | Hd]]; [| exact Hd].
    destruct Hp as [Hp _]. lia.
  - lia.
  - rewrite E3. simpl. exists w3, snapshot. split; [reflexivity |].
    split; [exact Hsn |].
    rewrite Eo3, Eo2, EDF, Es3. unfold TimeScheme.tick. simpl.
    rewrite Eout, <- app_assoc. reflexivity.
Qed.

End ProbeSampling.

(** C7 as stated fails.  With a save frequency of 25 and one probe
    (binary64, time step 0.5, final time 2) the loop makes four passes and
    appends a probe record at the counters 2 and 4, and the sampling test
    appends one at the counter 2, although no multiple of 25/10 is 2:
    the divisor is the integer quotient 25 / 10 = 2.  With a save frequency
    of 5 the test faults on a modulo by zero at every counter. *)
Lemma C7_probe_sampling_counterexample :
  (exists w',
     TimeScheme.timeLoop (oneStep SchemeExplicitEuler) "results" "constant"
       4 (Bench.world 0.5%float 2%float 25) 0 = Some (Ok (w', 4)) /\
     output w' =
       [AppendLine "results/probe_1.txt" [1; 1; 1; 0; 0; 0]%float;
        AppendLine "results/probe_1.txt" [2; 1; 1; 0; 0; 0]%float]) /\
  (exists w',
     TimeScheme.probeStep 2 (Bench.world 0.5%float 2%float 25) = Ok w' /\
     output w' = [AppendLine "results/probe_1.txt" [0; 1; 1; 0; 0; 0]%float]) /\
  (forall m : Z, 10 * 2 <> m * 25) /\
  Z.quot 25 10 = 2 /\
  TimeScheme.probeStep 1 (Bench.world 0.5%float 2%float 5)
    = Fault DivisionByZero.
Proof.
  split; [eexists; split; vm_compute; reflexivity |].
  split; [eexists; split; vm_compute; reflexivity |].
  split; [intros m; lia |].
  split; reflexivity.
Qed.

(** C7, amended.  With at least one probe configured, probe tables in
    range and a nonzero integer quotient q = saveFrequency / 10, the
    sampling test at the counter n >= 0 succeeds and appends the records
    of all probes, one per probe in their order, exactly when n % q == 0,
    that is when n is a multiple of q, and nothing otherwise; a pass of
    the loop on a ready world appends, after at most a snapshot, these
    records exactly when its incremented counter is such a multiple.
    This holds in every arithmetic. *)
Theorem C7_probe_records_at_multiples_of_integer_tenth :
  forall (D : Type) (SD : Scalar D) (w : World D) (n : Z),
    let this := self w in
    let q := Z.quot (getSaveFrequency (_DF this)) 10 in
    0 < getNumberOfProbes (_DF this) ->
    probesReady this ->
    q <> 0 ->
    0 <= n ->
    (exists w',
       TimeScheme.probeStep n w = Ok w' /\
       self w' = this /\
       output w' = output w ++ (if Z.rem n q =? 0 then probeRecords this else [])) /\
    length (probeRecords this) = Z.to_nat (getNumberOfProbes (_DF this)) /\
    (Z.rem n q = 0 <-> exists m, n = m * q) /\
    (forall v resultsDir fluxName,
       ready w -> n < INT_MAX ->
       exists w' snapshot,
         TimeScheme.loopBody (oneStep v) resultsDir fluxName w n
           = Ok (w', n + 1) /\
         Forall isSnapshot snapshot /\
         output w' =
           output w ++ snapshot ++
           (if Z.rem (n + 1) q =? 0 then probeRecords (self w') else [])).
Proof.
  intros D SD w n this q Hnb Hr Hq Hn. subst this q.
  split; [| split; [| split]].
  - exact (probeStep_records w Hnb Hr Hq Hn).
  - unfold probeRecords. rewrite length_map, length_seq. reflexivity.
  - rewrite (Z.rem_divide _ _ Hq). unfold Z.divide. reflexivity.
  - intros v resultsDir fluxName Hready Hmax.
    apply loopBody_records; [exact Hready | lia | exact Hnb].
Qed.

Lemma C7_probe_records_at_multiples_of_integer_tenth_witness :
  (exists w',
     TimeScheme.probeStep 4 (Bench.world 0.5%float 2%float 25) = Ok w' /\
     self w' = self (Bench.world 0.5%float 2%float 25) /\
     output w' =
       output (Bench.world 0.5%float 2%float 25) ++
       (if Z.rem 4 (Z.quot 25 10) =? 0
        then probeRecords (self (Bench.world 0.5%float 2%float 25))
        else [])) /\
  length (probeRecords (self (Bench.world 0.5%float 2%float 25))) = 1%nat.
Proof.
  destruct (@C7_probe_records_at_multiples_of_integer_tenth float binary64
              (Bench.world 0.5%float 2%float 25) 4) as (H1 & H2 & _).
  - reflexivity.
  - apply Bench_ready. vm_compute. discriminate.
  - vm_compute. discriminate.
  - lia.
  - split; [exact H1 | exact H2].
Defined.

(** C10 as stated fails.  The save frequency is an [int], and the integer
    quotient truncates toward zero: with a save frequency of -10, which is
    below 10, and one probe (binary64, time step 0.5), the divisor is
    -10 / 10 = -1 and not zero; the sampling test at the counter 3
    succeeds and appends a probe record, and a pass of the loop from that
    counter completes. *)
Lemma C10_probe_sampling_counterexample :
  -10 < 10 /\
  Z.quot (-10) 10 = -1 /\
  (exists w',
     TimeScheme.probeStep 3 (Bench.world 0.5%float 2%float (-10)) = Ok w' /\
     output w' =
       [AppendLine "results/probe_1.txt" [0; 1; 1; 0; 0; 0]%float]) /\
  (exists w',
     TimeScheme.loopBody (oneStep SchemeRK2) "results" "constant"
       (Bench.world 0.5%float 2%float (-10)) 3 = Ok (w', 4) /\
     output w' =
       [AppendLine "results/probe_1.txt" [0.5; 1; 1; 0; 0; 0]%float]).
Proof.
  split; [lia |]. split; [reflexivity |].
  split; eexists; split; vm_compute; reflexivity.
Qed.

(** C10, amended.  The probe-sampling test of the loop computes the counter
    modulo the integer quotient saveFrequency / 10.  With at least one
    probe ([_nProbes] not zero), in every arithmetic: the divisor is
    nonzero exactly when saveFrequency >= 10 or saveFrequency <= -10, and
    for a save frequency that is not negative exactly when
    saveFrequency >= 10; for every save frequency strictly between -10 and
    10 the test faults on a modulo by zero at every counter and no pass of
    the loop completes; otherwise the test is the source's
    [n % (saveFrequency / 10) == 0]. *)
Theorem C10_probe_sampling_divisor :
  forall (D : Type) (SD : Scalar D) (v : Scheme) (resultsDir fluxName : string)
         (w : World D) (n : Z),
    let sf := getSaveFrequency (_DF (self w)) in
    _nProbes (self w) <> 0 ->
    0 <= n ->
    (Z.quot sf 10 <> 0 <-> sf <= -10 \/ 10 <= sf) /\
    (0 <= sf -> (Z.quot sf 10 <> 0 <-> 10 <= sf)) /\
    (-10 < sf < 10 ->
       TimeScheme.probeStep n w = Fault DivisionByZero /\
       exists f,
         TimeScheme.loopBody (oneStep v) resultsDir fluxName w n = Fault f) /\
    (sf <= -10 \/ 10 <= sf ->
       TimeScheme.probeStep n w =
         if Z.rem n (Z.quot sf 10) =? 0 then TimeScheme.saveProbes w else Ok w).
Proof.
  intros D SD v resultsDir fluxName w n sf Hp Hn. subst sf.
  assert (Hz := tenth_vanishes (getSaveFrequency (_DF (self w)))).
  split; [| split; [| split]].
  - split; intros H.
    + destruct (Z.eq_dec (Z.quot (getSaveFrequency (_DF (self w))) 10) 0)
        as [E | _]; [contradiction |].
      destruct (Z.le_gt_cases (getSaveFrequency (_DF (self w))) (-10));
        [left; assumption |].
      destruct (Z.le_gt_cases 10 (getSaveFrequency (_DF (self w))));
        [right; assumption |].
      exfalso. apply H. apply Hz. lia.
    + intros E. apply Hz in E. lia.
  - intros Hsf. split; intros H.
    + destruct (Z.le_gt_cases 10 (getSaveFrequency (_DF (self w))));
        [assumption |].
      exfalso. apply H. apply Hz. lia.
    + intros E. apply Hz in E. lia.
  - intros Hlt. apply Hz in Hlt. split.
    + apply probeStep_undefined; assumption.
    + unfold TimeScheme.loopBody.
      destruct (oneStep v w) as [w1 | f] eqn:E1; simpl; [| eexists; reflexivity].
      destruct (incr n) as [n1 | f]; simpl; [| eexists; reflexivity].
      destruct (TimeScheme.saveStep resultsDir fluxName n1 (TimeScheme.tick w1))
        as [w2 | f] eqn:E2; simpl; [| eexists; reflexivity].
      apply saveStep_self in E2.
      apply oneStep_frame in E1. destruct E1 as (E1 & _).
      assert (Es : self w2 = with_currentTime (with_Sol (self w) (_Sol (self w1)))
                               (dadd (_currentTime (self w1)) (_timeStep (self w1)))).
      { rewrite E2. unfold TimeScheme.tick. simpl. rewrite E1 at 1. reflexivity. }
      rewrite probeStep_undefined.
      * simpl. eexists. reflexivity.
      * rewrite Es. simpl. exact Hp.
      * rewrite Es. simpl. exact Hlt.
  - intros Hge. apply probeStep_defined; try assumption.
    intros E. apply Hz in E. lia.
Qed.

Lemma C10_probe_sampling_divisor_witness :
  (Z.quot 5 10 <> 0 <-> 5 <= -10 \/ 10 <= 5) /\
  TimeScheme.probeStep 3 (Bench.world 0.5%float 2%float 5)
    = Fault DivisionByZero /\
  exists f,
    TimeScheme.loopBody (oneStep SchemeRK2) "results" "constant"
      (Bench.world 0.5%float 2%float 5) 3 = Fault f.
Proof.
  destruct (@C10_probe_sampling_divisor float binary64 SchemeRK2
              "results" "constant" (Bench.world 0.5%float 2%float 5) 3)
    as (H1 & _ & H2 & _).
  - vm_compute. discriminate.
  - lia.
  - split; [exact H1 |]. apply H2. simpl. lia.
Defined.

(* ================================================================= *)
(** ** The whole of [solve] *)

Section Resolve.
Context {D : Type} {SD : Scalar D}.

Lemma closer_in_range : forall (centers : list D) pos (k : nat) (st : Z * D) (i : nat),
  (k < length centers)%nat -> fst st = Z.of_nat i -> (i < length centers)%nat ->
  exists st' i', TimeScheme.closer centers pos (Z.of_nat k) st = Ok st' /\
                 fst st' = Z.of_nat i' /\ (i' < length centers)%nat.
Proof.
  intros centers pos k st i Hk Hst Hi. unfold TimeScheme.closer.
  rewrite (index_nth centers dzero Hk). simpl.
  destruct (dltb _ _).
  - exists (Z.of_nat k, dabs (dsub pos (nth k centers dzero))), k.
    split; [reflexivity | split; [reflexivity | assumption]].
  - exists st, i. split; [reflexivity | split; assumption].
Qed.

Lemma scan_in_range : forall (centers : list D) pos len m (st : Z * D) (i : nat),
  (m + len <= length centers)%nat -> fst st = Z.of_nat i -> (i < length centers)%nat ->
  exists st' i', for_each (TimeScheme.closer centers pos) (map Z.of_nat (seq m len)) st = Ok st' /\
                 fst st' = Z.of_nat i' /\ (i' < length centers)%nat.
Proof.
  intros centers pos len. induction len as [| len IH]; intros m st i Hlen Hst Hi.
  - exists st, i. split; [reflexivity | split; assumption].
  - simpl.
    destruct (@closer_in_range centers pos m st i) as (st1 & i1 & E1 & H1 & L1);
      [lia | assumption | assumption |].
    rewrite E1. simpl. apply (IH (S m) st1 i1); [lia | assumption | assumption].
Qed.

(** In every arithmetic the resolved index is a cell of the mesh. *)
Lemma nearestCell_in_range : forall (centers : list D) (nbCells : Z) pos,
  centers <> [] -> nbCells <= Z.of_nat (length centers) ->
  exists i : nat, TimeScheme.nearestCell centers nbCells pos = Ok (Z.of_nat i) /\
                  (i < length centers)%nat.
Proof.
  intros centers nbCells pos Hne Hnb.
  assert (H0 : (0 < length centers)%nat)
    by (destruct centers; [contradiction | simpl; lia]).
  unfold TimeScheme.nearestCell.
  change 0 with (Z.of_nat 0) at 1. rewrite (index_nth centers dzero H0). simpl.
  destruct (@scan_in_range centers pos (Z.to_nat nbCells) 0%nat
              (0, dabs (dsub pos (nth 0 centers dzero))) 0%nat)
    as (st' & i' & E & Hf & Hi); [lia | reflexivity | assumption |].
  unfold upto. rewrite E. simpl. rewrite Hf. exists i'. split; [reflexivity | assumption].
Qed.

End Resolve.

Lemma set_nth_length : forall (A : Type) (l : list A) i a,
  length (set_nth l i a) = length l.
Proof.
  intros A l. induction l as [| x l IH]; intros [| i] a; simpl;
    try reflexivity. rewrite IH. reflexivity.
Qed.

Lemma set_nth_same : forall (A : Type) (l : list A) i a,
  (i < length l)%nat -> nth_error (set_nth l i a) i = Some a.
Proof.
  intros A l. induction l as [| x l IH]; intros [| i] a H; simpl in *;
    try lia; try reflexivity. apply IH. lia.
Qed.

Lemma set_nth_other : forall (A : Type) (l : list A) i j a,
  i <> j -> nth_error (set_nth l i a) j = nth_error l j.
Proof.
  intros A l. induction l as [| x l IH]; intros [| i] [| j] a H; simpl;
    try reflexivity; try contradiction. apply IH. congruence.
Qed.

Lemma assign_ok : forall (A : Type) (l : list A) (k : nat) (a : A),
  (k < length l)%nat -> assign l (Z.of_nat k) a = Ok (set_nth l k a).
Proof.
  intros A l k a H. unfold assign.
  destruct (Z.leb_spec 0 (Z.of_nat k)); [| lia].
  destruct (Z.ltb_spec (Z.of_nat k) (Z.of_nat (length l))); [| lia].
  simpl. rewrite Nat2Z.id. reflexivity.
Qed.

Section BuildProbes.
Context {D : Type} {SD : Scalar D}.

Lemma buildProbes_from : forall (this : TimeScheme D) len m (ix : list Z),
  resolvable this ->
  length ix = length (_probesIndices this) ->
  (m + len <= Z.to_nat (_nProbes this))%nat ->
  exists ix',
    for_each
      (fun i ts =>
         pos <- index (_probesPos ts) i ;;
         idx <- TimeScheme.nearestCell (getCellCenters (_mesh this))
                  (getNumberOfCells (_mesh this)) pos ;;
         ix <- assign (_probesIndices ts) i idx ;;
         Ok (with_probesIndices ts ix))
      (map Z.of_nat (seq m len)) (with_probesIndices this ix)
    = Ok (with_probesIndices this ix') /\
    length ix' = length ix /\
    (forall k, (k < m)%nat -> nth_error ix' k = nth_error ix k) /\
    (forall k, (m <= k < m + len)%nat ->
       exists idx : nat, nth_error ix' k = Some (Z.of_nat idx) /\
                         (idx < length (getCellCenters (_mesh this)))%nat).
Proof.
  intros this len. induction len as [| len IH]; intros m ix Hr Hix Hlen.
  - exists ix. split; [reflexivity |]. split; [reflexivity |].
    split; [reflexivity | intros k Hk; lia].
  - assert (Hr' := Hr). destruct Hr' as (Hne & Hnb & Hpos & Hidx).
    simpl.
    rewrite (index_nth (_probesPos this) dzero) by lia. simpl.
    destruct (nearestCell_in_range (nth m (_probesPos this) dzero) Hne Hnb)
      as (i & Ei & Hi).
    rewrite Ei. simpl.
    rewrite assign_ok by lia. simpl.
    destruct (IH (S m) (set_nth ix m (Z.of_nat i)) Hr) as (ix' & E & L & Hold & Hnew).
    + rewrite set_nth_length. exact Hix.
    + lia.
    + exists ix'. split; [exact E |]. split; [| split].
      * rewrite L. apply set_nth_length.
      * intros k Hk. rewrite Hold by lia. apply set_nth_other. lia.
      * intros k Hk. destruct (Nat.eq_dec k m) as [-> | Hne'].
        -- exists i. rewrite Hold by lia. split; [| exact Hi].
           apply set_nth_same. lia.
        -- apply Hnew. lia.
Qed.

(** [buildProbesCellIndices] succeeds in every arithmetic and stores, for
    every probe, the index of a cell of the mesh. *)
Lemma buildProbesCellIndices_ok : forall this : TimeScheme D,
  resolvable this ->
  exists ix,
    TimeScheme.buildProbesCellIndices this = Ok (with_probesIndices this ix) /\
    length ix = length (_probesIndices this) /\
    forall k, (k < Z.to_nat (_nProbes this))%nat ->
      exists idx : nat, nth_error ix k = Some (Z.of_nat idx) /\
                        (idx < length (getCellCenters (_mesh this)))%nat.
Proof.
  intros this Hr. unfold TimeScheme.buildProbesCellIndices, upto.
  destruct (@buildProbes_from this (Z.to_nat (_nProbes this)) 0%nat
              (_probesIndices this) Hr eq_refl) as (ix & E & L & _ & H); [lia |].
  exists ix.
  replace (with_probesIndices this (_probesIndices this)) with this in E
    by (destruct this; reflexivity).
  split; [exact E |]. split; [exact L |].
  intros k Hk. apply H. lia.
Qed.

End BuildProbes.

Section SolveFacts.
Context {D : Type} {SD : Scalar D}.

Lemma update_self : forall v (a b : World D),
  self a = self b -> update v a = update v b.
Proof.
  intros v a b H.
  destruct v; simpl;
    unfold eulerUpdate, rk2Update, rk2k2, rk2trial, rk2k1, stage;
    rewrite H; reflexivity.
Qed.

Lemma shaped_self : forall a b : World D,
  self a = self b -> shaped a -> shaped b.
Proof. intros a b H Hs. unfold shaped in *. rewrite <- H. exact Hs. Qed.

Lemma self_rebuilt : forall this : TimeScheme D,
  this = with_currentTime (with_Sol this (_Sol this)) (_currentTime this).
Proof. intros this. destruct this. reflexivity. Qed.

(** Stepping depends on the object only, and changes only its state and
    its clock. *)
Lemma advance_self : forall v k (a b : World D),
  self a = self b -> shaped a ->
  exists a' b',
    advance v k a = Ok a' /\ advance v k b = Ok b' /\ self a' = self b' /\
    exists S' t',
      self a' = with_currentTime (with_Sol (self a) S') t' /\
      length S' = length (_Sol (self a)).
Proof.
  intros v k. induction k as [| k IH]; intros a b H Hs.
  - exists a, b. repeat split; try assumption.
    exists (_Sol (self a)), (_currentTime (self a)).
    split; [apply self_rebuilt | reflexivity].
  - destruct (@oneStep_shaped D SD v a Hs) as (a1 & Ea & Sa & Fr).
    assert (Fa := proj1 Fr).
    destruct (@oneStep_shaped D SD v b (@shaped_self a b H Hs)) as (b1 & Eb & Sb & Fb & _).
    assert (L : length (_Sol (self a1)) = length (_Sol (self a)))
      by (rewrite Sa; apply update_length; exact Hs).
    assert (E1 : self (TimeScheme.tick a1) = self (TimeScheme.tick b1)).
    { unfold TimeScheme.tick. simpl. rewrite Fa, Fb, Sa, Sb, H.
      rewrite (@update_self v a b H). reflexivity. }
    assert (Hs1 : shaped (TimeScheme.tick a1)).
    { apply (@shaped_step D SD a a1 Hs); [exact Fr | exact L]. }
    destruct (IH (TimeScheme.tick a1) (TimeScheme.tick b1) E1 Hs1)
      as (a' & b' & Ea' & Eb' & E' & S' & t' & ES & LS).
    exists a', b'. simpl. rewrite Ea, Eb. simpl.
    split; [exact Ea' |]. split; [exact Eb' |]. split; [exact E' |].
    exists S', t'. split.
    + rewrite ES. unfold TimeScheme.tick. simpl. rewrite Fa. reflexivity.
    + rewrite LS. unfold TimeScheme.tick. simpl. exact L.
Qed.

End SolveFacts.

Section SolveRun.
Context {D : Type} {SD : Scalar D}.

(** The loop and [advance] make the same object. *)
Lemma timeLoop_advance : forall k v resultsDir fluxName (w : World D) n fuel,
  ready w -> 0 <= n -> n + Z.of_nat k <= INT_MAX ->
  (forall j, (j < k)%nat ->
     dltb (clockAfter (_currentTime (self w)) (_timeStep (self w)) j)
          (_finalTime (self w)) = true) ->
  dltb (clockAfter (_currentTime (self w)) (_timeStep (self w)) k)
       (_finalTime (self w)) = false ->
  (k <= fuel)%nat ->
  exists w' wk,
    TimeScheme.timeLoop (oneStep v) resultsDir fluxName fuel w n
      = Some (Ok (w', n + Z.of_nat k)) /\
    advance v k w = Ok wk /\
    self w' = self wk.
Proof.
  induction k as [| k IH]; intros v resultsDir fluxName w n fuel Hr Hn Hmax Hlt Hge Hf.
  - exists w, w. simpl in Hge. rewrite Z.add_0_r.
    destruct fuel; simpl; rewrite Hge; repeat split; reflexivity.
  - destruct fuel as [| fuel]; [lia |].
    assert (H0 := Hlt 0%nat ltac:(lia)). simpl in H0.
    simpl TimeScheme.timeLoop. rewrite H0.
    destruct (@loopBody_ok D SD v resultsDir fluxName w n Hr) as (w1 & E1 & Es1);
      [lia |].
    rewrite E1.
    assert (Hs : shaped w) by apply Hr.
    assert (Hr1 : ready w1).
    { eapply ready_moved; [exact Hr | exact Es1 |].
      apply update_length. exact Hs. }
    destruct (@oneStep_shaped D SD v w Hs) as (a1 & Ea & Sa & Fr).
    assert (Et : self w1 = self (TimeScheme.tick a1)).
    { rewrite Es1. unfold TimeScheme.tick. simpl.
      rewrite (proj1 Fr), Sa. reflexivity. }
    destruct (IH v resultsDir fluxName w1 (n + 1) fuel) as (w' & wk & E' & Ek & Ew);
      try assumption; try lia.
    + intros j Hj. rewrite Es1. simpl. apply (Hlt (S j)). lia.
    + rewrite Es1. simpl. exact Hge.
    + destruct (@advance_self D SD v k w1 (TimeScheme.tick a1) Et (proj1 Hr1))
        as (x & y & Ex & Ey & Exy & _).
      exists w', y. rewrite E'. split; [do 3 f_equal; lia |].
      split.
      * simpl. rewrite Ea. simpl. exact Ey.
      * rewrite Ew. rewrite Ek in Ex. injection Ex as <-. exact Exy.
Qed.

Lemma prologue_ok : forall resultsDir fluxName (w : World D),
  snapshotReady (self w) -> resolvable (self w) ->
  exists w' ix,
    TimeScheme.prologue resultsDir fluxName w = Ok w' /\
    self w' = with_probesIndices (self w) ix /\
    length ix = length (_probesIndices (self w)) /\
    forall k, (k < Z.to_nat (_nProbes (self w)))%nat ->
      exists idx : nat, nth_error ix k = Some (Z.of_nat idx) /\
                        (idx < length (getCellCenters (_mesh (self w))))%nat.
Proof.
  intros resultsDir fluxName w Hsnap Hres. unfold TimeScheme.prologue.
  destruct (saveCurrentSolution_ok
              (TimeScheme.solutionFile resultsDir fluxName 0) w Hsnap) as (lines & E).
  rewrite E. simpl.
  match goal with
  | |- context [for_each ?g ?l ?s] =>
      destruct (@for_each_ok _ _ g l s) as (topo & Et)
  end.
  - intros i acc Hi. apply in_upto in Hi. destruct Hi as (k & -> & Hk).
    unfold rows in Hk. rewrite Nat2Z.id in Hk. destruct Hsnap as [Hc Ht].
    rewrite (index_nth (getCellCenters (_mesh (self w))) dzero) by lia. simpl.
    rewrite (index_nth (getTopography (_physics (self w))) dzero) by lia. simpl.
    eexists. reflexivity.
  - rewrite Et. simpl.
    destruct (buildProbesCellIndices_ok Hres) as (ix & Eb & L & H).
    rewrite Eb. simpl. eexists. exists ix. split; [reflexivity |].
    split; [reflexivity | split; assumption].
Qed.

Lemma norm_ok : forall a b : list D,
  length a = length b -> exists r, TimeScheme.norm a b = Ok r.
Proof.
  intros a b H. unfold TimeScheme.norm. rewrite H, Nat.eqb_refl.
  eexists. reflexivity.
Qed.

Lemma computeL2Error_ok : forall w : World D,
  length (_Sol (self w)) = length (exactSol w) ->
  exists e, TimeScheme.computeL2Error w = Ok e.
Proof.
  intros w L. unfold TimeScheme.computeL2Error.
  destruct (@norm_ok (map fst (_Sol (self w))) (map fst (exactSol w))) as (e0 & E0);
    [rewrite !length_map; exact L |].
  destruct (@norm_ok (map snd (_Sol (self w))) (map snd (exactSol w))) as (e1 & E1);
    [rewrite !length_map; exact L |].
  rewrite E0. simpl. rewrite E1. simpl. eexists. reflexivity.
Qed.

Lemma computeL1Error_ok : forall w : World D,
  (length (_Sol (self w)) <= length (exactSol w))%nat ->
  exists e, TimeScheme.computeL1Error w = Ok e.
Proof.
  intros w L. unfold TimeScheme.computeL1Error.
  match goal with
  | |- context [for_each ?g ?l ?s] =>
      destruct (@for_each_ok _ _ g l s) as (e & E)
  end.
  - intros i acc Hi. apply in_upto in Hi. destruct Hi as (k & -> & Hk).
    unfold rows in Hk. rewrite Nat2Z.id in Hk.
    rewrite (index_nth (_Sol (self w)) (dzero, dzero)) by lia. simpl.
    rewrite (index_nth (exactSol w) (dzero, dzero)) by lia. simpl.
    eexists. reflexivity.
  - rewrite E. simpl. eexists. reflexivity.
Qed.

Lemma epilogue_ok : forall resultsDir fluxName (w : World D) n,
  snapshotReady (self w) -> closable (self w) -> 0 <= n ->
  exists w', TimeScheme.epilogue resultsDir fluxName w n = Ok w' /\
             self w' = self w.
Proof.
  intros resultsDir fluxName w n Hsnap [Hfin Htest] Hn.
  unfold TimeScheme.epilogue.
  assert (H1 : exists w1,
             (if isSaveFinalTimeOnly (_DF (self w))
              then k <- int_div n (getSaveFrequency (_DF (self w))) ;;
                   TimeScheme.saveCurrentSolution
                     (TimeScheme.solutionFile resultsDir fluxName k) w
              else Ok w) = Ok w1 /\ self w1 = self w).
  { destruct (isSaveFinalTimeOnly (_DF (self w))).
    - rewrite (int_div_ok Hn (Hfin eq_refl)). simpl.
      destruct (saveCurrentSolution_ok
                  (TimeScheme.solutionFile resultsDir fluxName
                     (Z.quot n (getSaveFrequency (_DF (self w))))) w Hsnap)
        as (lines & E).
      rewrite E. eexists. split; reflexivity.
    - exists w. split; reflexivity. }
  destruct H1 as (w1 & E1 & Es1). rewrite E1. simpl.
  destruct (isTestCase (_DF (self w))) eqn:Et.
  - specialize (Htest eq_refl).
    match goal with
    | |- context [TimeScheme.computeL2Error ?x] =>
        destruct (@computeL2Error_ok x) as (e2 & E2)
    end.
    { simpl. rewrite Es1. symmetry. apply Htest. }
    rewrite E2. simpl.
    match goal with
    | |- context [TimeScheme.computeL1Error ?x] =>
        destruct (@computeL1Error_ok x) as (e1 & E1')
    end.
    { simpl. rewrite Es1, Htest. lia. }
    rewrite E1'. simpl. eexists. split; [reflexivity |]. simpl. exact Es1.
  - exists w1. split; [reflexivity | exact Es1].
Qed.

End SolveRun.

Section SolveTotal.
Context {D : Type} {SD : Scalar D}.

Ltac stepping_fields H :=
  let Hm := fresh "Hmesh" in
  let Hp := fresh "Hphysics" in
  let Hf := fresh "HfinVol" in
  let HS := fresh "HSol" in
  let Ht := fresh "Hclock" in
  let Hd := fresh "Hdt" in
  pose proof (f_equal (@_mesh D) H) as Hm;
  pose proof (f_equal (@_physics D) H) as Hp;
  pose proof (f_equal (@_finVol D) H) as Hf;
  pose proof (f_equal (@_Sol D) H) as HS;
  pose proof (f_equal (@_currentTime D) H) as Ht;
  pose proof (f_equal (@_timeStep D) H) as Hd;
  simpl in Hm, Hp, Hf, HS, Ht, Hd.

Lemma update_same : forall v (a b : World D),
  sameStepping (self a) (self b) -> update v a = update v b.
Proof.
  intros v a b H. unfold sameStepping in H. stepping_fields H.
  destruct v; simpl;
    unfold eulerUpdate, rk2Update, rk2k2, rk2trial, rk2k1, stage;
    rewrite Hmesh, Hphysics, HfinVol, HSol, Hclock, Hdt; reflexivity.
Qed.

Lemma shaped_same : forall a b : World D,
  sameStepping (self a) (self b) -> shaped a -> shaped b.
Proof.
  intros a b H Hs. unfold sameStepping in H. stepping_fields H.
  unfold shaped in *. rewrite <- Hphysics, <- HfinVol, <- HSol. exact Hs.
Qed.

Lemma advance_same : forall v k (a b : World D),
  sameStepping (self a) (self b) -> shaped a ->
  exists a' b',
    advance v k a = Ok a' /\ advance v k b = Ok b' /\
    sameStepping (self a') (self b').
Proof.
  intros v k. induction k as [| k IH]; intros a b H Hs.
  - exists a, b. repeat split; assumption.
  - destruct (@oneStep_shaped D SD v a Hs) as (a1 & Ea & Sa & Fr).
    assert (Fa := proj1 Fr).
    destruct (@oneStep_shaped D SD v b (@shaped_same a b H Hs))
      as (b1 & Eb & Sb & Fb & _).
    assert (L : length (_Sol (self a1)) = length (_Sol (self a)))
      by (rewrite Sa; apply update_length; exact Hs).
    assert (E1 : sameStepping (self (TimeScheme.tick a1)) (self (TimeScheme.tick b1))).
    { assert (U := @update_same v a b H).
      unfold sameStepping in *. unfold TimeScheme.tick. simpl.
      rewrite Fa, Fb, Sa, Sb, U. simpl.
      pose proof (f_equal (@_DF D) H) as H1. pose proof (f_equal (@_mesh D) H) as H2.
      pose proof (f_equal (@_physics D) H) as H3. pose proof (f_equal (@_finVol D) H) as H4.
      pose proof (f_equal (@_timeStep D) H) as H5. pose proof (f_equal (@_initialTime D) H) as H6.
      pose proof (f_equal (@_finalTime D) H) as H7. pose proof (f_equal (@_currentTime D) H) as H8.
      pose proof (f_equal (@_nProbes D) H) as H9. pose proof (f_equal (@_probesRef D) H) as H10.
      pose proof (f_equal (@_probesPos D) H) as H11.
      simpl in H1, H2, H3, H4, H5, H6, H7, H8, H9, H10, H11.
      unfold with_probesIndices, with_currentTime, with_Sol. simpl.
      rewrite H1, H2, H3, H4, H5, H6, H7, H8, H9, H10, H11. reflexivity. }
    assert (Hs1 : shaped (TimeScheme.tick a1)).
    { apply (@shaped_step D SD a a1 Hs); [exact Fr | exact L]. }
    destruct (IH (TimeScheme.tick a1) (TimeScheme.tick b1) E1 Hs1)
      as (a' & b' & Ea' & Eb' & E').
    exists a', b'. simpl. rewrite Ea, Eb. simpl.
    split; [exact Ea' |]. split; [exact Eb' | exact E'].
Qed.

Lemma closable_moved : forall (this this' : TimeScheme D) S' t',
  closable this ->
  this' = with_currentTime (with_Sol this S') t' ->
  length S' = length (_Sol this) ->
  closable this'.
Proof.
  intros this this' S' t' [Hf Ht] -> L. unfold closable. simpl.
  rewrite L. split; assumption.
Qed.

Lemma new_constructed : forall (DF : DataFile D) mesh physics finVol,
  0 <= getNumberOfProbes DF ->
  TimeScheme.new DF mesh physics finVol = Ok (constructed DF mesh physics finVol).
Proof.
  intros DF mesh physics finVol H. unfold TimeScheme.new, vector_n.
  destruct (Z.ltb_spec (getNumberOfProbes DF) 0); [lia |]. reflexivity.
Qed.

Lemma solve_run : forall v (DF : DataFile D) mesh physics finVol (w : World D)
    (k fuel : nat),
  configured DF mesh physics finVol ->
  self w = constructed DF mesh physics finVol ->
  Z.of_nat k <= INT_MAX ->
  (forall j, (j < k)%nat ->
     dltb (clockAfter (getInitialTime DF) (getTimeStep DF) j) (getFinalTime DF) = true) ->
  dltb (clockAfter (getInitialTime DF) (getTimeStep DF) k) (getFinalTime DF) = false ->
  (k <= fuel)%nat ->
  exists w' wk,
    solve v fuel w = Some (Ok w') /\
    advance v k w = Ok wk /\
    _Sol (self w') = _Sol (self wk) /\
    _currentTime (self w') = clockAfter (getInitialTime DF) (getTimeStep DF) k.
Proof.
  intros v DF mesh physics finVol w k fuel Hc Hw Hmax Hlt Hge Hf.
  destruct Hc as (HN & Hcells & Hcen & Htopo & Hprov & Hnb & Hrefs & Hpos & Hsf & Hq & Hex).
  unfold solve, TimeScheme.solve.
  destruct (@prologue_ok D SD (getResultsDirectory (_DF (self w)))
              (getFluxName (_finVol (self w))) w) as (w1 & ix & E1 & Es1 & Lix & Hix).
  { rewrite Hw. split; simpl; lia. }
  { rewrite Hw. unfold resolvable. simpl. rewrite repeat_length.
    repeat split; try lia.
    intros E. rewrite E in Hcen. simpl in Hcen. lia. }
  rewrite E1.
  assert (Hr1 : ready w1).
  { unfold ready, shaped, snapshotReady, probesReady, samplingDefined.
    rewrite Es1, Hw. simpl. repeat split; try lia.
    - apply (Hprov S H).
    - apply (Hprov S H).
    - destruct (Hix k0) as (idx & Hn & Hi); [rewrite Hw; simpl; exact H |].
      exists idx. rewrite Hw in Hi. simpl in Hi. repeat split; try assumption; lia. }
  assert (Hclk : _currentTime (self w1) = getInitialTime DF) by (rewrite Es1, Hw; reflexivity).
  assert (Hdt : _timeStep (self w1) = getTimeStep DF) by (rewrite Es1, Hw; reflexivity).
  assert (HT : _finalTime (self w1) = getFinalTime DF) by (rewrite Es1, Hw; reflexivity).
  destruct (@timeLoop_advance D SD k v (getResultsDirectory (_DF (self w)))
              (getFluxName (_finVol (self w))) w1 0 fuel Hr1) as (w2 & wk1 & E2 & Ek1 & Es2);
    try lia; try (rewrite Hclk, Hdt, HT; assumption).
  destruct (@timeLoop_passes D SD k v (getResultsDirectory (_DF (self w)))
              (getFluxName (_finVol (self w))) w1 0 fuel Hr1) as (w2' & E2' & Hc2 & _ & Hr2);
    try lia; try (rewrite Hclk, Hdt, HT; assumption).
  rewrite E2 in E2'. injection E2' as <-.
  rewrite E2.
  assert (Hsame : sameStepping (self w1) (self w)).
  { unfold sameStepping. rewrite Es1. reflexivity. }
  destruct (@advance_same v k w1 w Hsame (proj1 Hr1)) as (x & wk & Ex & Ek & Exy).
  rewrite Ek1 in Ex. injection Ex as <-.
  destruct (@advance_self D SD v k w1 w1 eq_refl (proj1 Hr1))
    as (y & _ & Ey & _ & _ & S' & t' & ES & LS).
  rewrite Ek1 in Ey. injection Ey as <-.
  destruct (@epilogue_ok D SD (getResultsDirectory (_DF (self w)))
              (getFluxName (_finVol (self w))) w2 (0 + Z.of_nat k)) as (w3 & E3 & Es3).
  { apply Hr2. }
  { apply (@closable_moved (self w1) (self w2) S' t'); [| rewrite Es2; exact ES | exact LS].
    unfold closable. rewrite Es1, Hw. simpl. split; [intros _; exact Hsf | exact Hex]. }
  { lia. }
  exists w3, wk. split; [rewrite E3; reflexivity |]. split; [exact Ek |].
  rewrite Es3. split.
  - rewrite Es2. exact (f_equal (@_Sol D) Exy).
  - rewrite Hc2, Hclk, Hdt. reflexivity.
Qed.

End SolveTotal.

(** In exact arithmetic [solve] ends. *)
Lemma solve_run_exact :
  forall v (DF : DataFile R) mesh physics finVol (w : World R),
    configured DF mesh physics finVol ->
    self w = constructed DF mesh physics finVol ->
    (0 < getTimeStep DF)%R ->
    (getInitialTime DF <= getFinalTime DF)%R ->
    exists k : nat,
      (getFinalTime DF <= getInitialTime DF + INR k * getTimeStep DF)%R /\
      (forall j : nat,
         (getFinalTime DF <= getInitialTime DF + INR j * getTimeStep DF)%R ->
         (k <= j)%nat) /\
      (Z.of_nat k <= INT_MAX ->
       forall fuel, (k <= fuel)%nat ->
       exists w' wk,
         solve v fuel w = Some (Ok w') /\
         advance v k w = Ok wk /\
         _Sol (self w') = _Sol (self wk) /\
         _currentTime (self w') = (getInitialTime DF + INR k * getTimeStep DF)%R /\
         (getFinalTime DF <= _currentTime (self w'))%R).
Proof.
  intros v DF mesh physics finVol w Hc Hw Hdt HT.
  destruct (least_passes Hdt HT) as (k & Hk & Hleast).
  exists k. split; [exact Hk |]. split; [exact Hleast |].
  intros Hmax fuel Hf.
  destruct (@solve_run R exact v DF mesh physics finVol w k fuel Hc Hw Hmax)
    as (w' & wk & E & Ek & ES & Eclk).
  - intros j Hj. rewrite clockAfter_exact. apply Rltb_lt.
    destruct (Rlt_dec (getInitialTime DF + INR j * getTimeStep DF)
                      (getFinalTime DF)) as [| Hnlt]; [assumption |].
    assert (k <= j)%nat by (apply Hleast; lra). lia.
  - rewrite clockAfter_exact. apply Rltb_ge. exact Hk.
  - exact Hf.
  - exists w', wk. rewrite clockAfter_exact in Eclk.
    split; [exact E |]. split; [exact Ek |]. split; [exact ES |].
    split; [exact Eclk | rewrite Eclk; exact Hk].
Qed.

Lemma Basin_configured : forall T sf finalOnly,
  sf <> 0 ->
  configured (Basin.DF T sf finalOnly) Basin.mesh Basin.physics Basin.finVol.
Proof.
  intros T sf finalOnly Hsf. unfold configured. simpl.
  repeat split; try lia; try reflexivity; try discriminate.
  - intros t. simpl. apply repeat_length.
  - apply mzero_length.
Qed.

(** X1.  [solve] on a configured run.  In every arithmetic: when the
    object was built by the constructor on a configuration that is
    [configured], and the clock obtained by adding the time step to the
    initial time is below the final time for every count below k and not
    below it at k (k within [int]), [solve] ends without a fault after
    exactly k passes, its clock is that sum, and its state is the one k
    steps of the variant produce.  In exact arithmetic, for a positive
    time step and a final time not before the initial time, k is the
    least k with initialTime + k * timeStep >= finalTime. *)
Theorem solve_completes :
  (forall (D : Type) (SD : Scalar D) (v : Scheme) (DF : DataFile D) mesh
          physics finVol (w : World D) (k fuel : nat),
     configured DF mesh physics finVol ->
     self w = constructed DF mesh physics finVol ->
     Z.of_nat k <= INT_MAX ->
     (forall j, (j < k)%nat ->
        dltb (clockAfter (getInitialTime DF) (getTimeStep DF) j)
             (getFinalTime DF) = true) ->
     dltb (clockAfter (getInitialTime DF) (getTimeStep DF) k)
          (getFinalTime DF) = false ->
     (k <= fuel)%nat ->
     exists w' wk,
       solve v fuel w = Some (Ok w') /\
       advance v k w = Ok wk /\
       _Sol (self w') = _Sol (self wk) /\
       _currentTime (self w') =
         clockAfter (getInitialTime DF) (getTimeStep DF) k) /\
  (forall (v : Scheme) (DF : DataFile R) mesh physics finVol (w : World R),
     configured DF mesh physics finVol ->
     self w = constructed DF mesh physics finVol ->
     (0 < getTimeStep DF)%R ->
     (getInitialTime DF <= getFinalTime DF)%R ->
     exists k : nat,
       (getFinalTime DF <= getInitialTime DF + INR k * getTimeStep DF)%R /\
       (forall j : nat,
          (getFinalTime DF <= getInitialTime DF + INR j * getTimeStep DF)%R ->
          (k <= j)%nat) /\
       (Z.of_nat k <= INT_MAX ->
        forall fuel, (k <= fuel)%nat ->
        exists w' wk,
          solve v fuel w = Some (Ok w') /\
          advance v k w = Ok wk /\
          _Sol (self w') = _Sol (self wk) /\
          _currentTime (self w') =
            (getInitialTime DF + INR k * getTimeStep DF)%R /\
          (getFinalTime DF <= _currentTime (self w'))%R)).
Proof.
  split.
  - intros D SD v DF mesh physics finVol w k fuel.
    apply solve_run.
  - intros v DF mesh physics finVol w. apply solve_run_exact.
Qed.

Lemma solve_completes_witness :
  exists w' wk,
    solve SchemeRK2 12 (Basin.world 1.2%float 4 false) = Some (Ok w') /\
    advance SchemeRK2 12 (Basin.world 1.2%float 4 false) = Ok wk /\
    _Sol (self w') = _Sol (self wk) /\
    _currentTime (self w') = clockAfter 0%float 0.1%float 12.
Proof.
  apply (proj1 solve_completes float binary64 SchemeRK2
           (Basin.DF 1.2%float 4 false) Basin.mesh Basin.physics Basin.finVol
           (Basin.world 1.2%float 4 false) 12%nat 12%nat).
  - apply Basin_configured. discriminate.
  - reflexivity.
  - vm_compute. discriminate.
  - intros j Hj.
    do 12 (destruct j as [| j]; [vm_compute; reflexivity |]). lia.
  - vm_compute. reflexivity.
  - lia.
Defined.

(** X2.  In every arithmetic, on a mesh with at least one centre whose cell
    count does not exceed the number of centres, and with probe tables
    that have an entry per probe, [buildProbesCellIndices] succeeds, keeps
    the size of the index table and stores for every probe the index of a
    cell of the mesh; it changes nothing else of the object. *)
Theorem buildProbesCellIndices_in_range :
  forall (D : Type) (SD : Scalar D) (this : TimeScheme D),
    getCellCenters (_mesh this) <> [] ->
    getNumberOfCells (_mesh this)
      <= Z.of_nat (length (getCellCenters (_mesh this))) ->
    (Z.to_nat (_nProbes this) <= length (_probesPos this))%nat ->
    (Z.to_nat (_nProbes this) <= length (_probesIndices this))%nat ->
    exists ix,
      TimeScheme.buildProbesCellIndices this = Ok (with_probesIndices this ix) /\
      length ix = length (_probesIndices this) /\
      forall k, (k < Z.to_nat (_nProbes this))%nat ->
        exists idx : nat,
          nth_error ix k = Some (Z.of_nat idx) /\
          (idx < length (getCellCenters (_mesh this)))%nat.
Proof.
  intros D SD this H1 H2 H3 H4.
  apply buildProbesCellIndices_ok. repeat split; assumption.
Qed.

Lemma buildProbesCellIndices_in_range_witness :
  exists ix,
    TimeScheme.buildProbesCellIndices FiveCells.object
      = Ok (with_probesIndices FiveCells.object ix) /\
    length ix = 2%nat /\
    forall k, (k < 2)%nat ->
      exists idx : nat, nth_error ix k = Some (Z.of_nat idx) /\ (idx < 5)%nat.
Proof.
  apply (@buildProbesCellIndices_in_range float binary64 FiveCells.object).
  - discriminate.
  - vm_compute. discriminate.
  - simpl. lia.
  - simpl. lia.
Defined.

(** X3.  The end-to-end scenario of the specification, in binary64: ten
    cells of height 1 at rest on a flat bottom, zero flux and zero source,
    dt = 0.1, final time 0.5.  [solve] makes five passes (the providers
    are called once per stage: 10 calls for Explicit Euler, 20 for RK2)
    and the final state equals the initial state exactly. *)
Theorem still_lake_solve_binary64 :
  forall v : Scheme,
    exists w',
      solve v 5 (Basin.world 0.5%float 1 false) = Some (Ok w') /\
      _Sol (self w') = getInitialCondition Basin.physics /\
      _currentTime (self w') = 0.5%float /\
      length (calls w') =
        match v with SchemeExplicitEuler => 10%nat | SchemeRK2 => 20%nat end.
Proof.
  intros v. destruct v; eexists;
    (split; [vm_compute; reflexivity | repeat split; vm_compute; reflexivity]).
Qed.

(** X4.  The save-frequency scenario of the specification, in binary64:
    save frequency 4, twelve passes (dt = 0.1, final time 1.2), no probe.
    [solve] writes the initial snapshot, the topography, and exactly three
    more snapshots, numbered 1, 2, 3 (the passes 4, 8, 12 divided by the
    frequency), each with the header line and one row per cell. *)
Theorem save_frequency_scenario_binary64 :
  forall v : Scheme,
    exists w',
      solve v 12 (Basin.world 1.2%float 4 false) = Some (Ok w') /\
      map written (output w') =
        [Some ("results/solution_constant_0.txt", true, 10%nat);
         Some ("results/topography.txt", false, 10%nat);
         Some ("results/solution_constant_1.txt", true, 10%nat);
         Some ("results/solution_constant_2.txt", true, 10%nat);
         Some ("results/solution_constant_3.txt", true, 10%nat)].
Proof.
  intros v. destruct v; eexists;
    (split; [vm_compute; reflexivity | vm_compute; reflexivity]).
Qed.

Section Alike.
Context {D : Type} {SD : Scalar D}.

(** Two objects that differ by their index tables only, tables of one
    length that agree before the probe [m]: resolving the probes from [m]
    on faults alike on both, or leaves tables that agree up to the last
    probe resolved. *)
Lemma resolve_alike : forall (c : TimeScheme D) len m (ixa ixb : list Z),
  length ixa = length ixb ->
  (forall k, (k < m)%nat -> nth_error ixa k = nth_error ixb k) ->
  let body := fun i ts =>
       pos <- index (_probesPos ts) i ;;
       idx <- TimeScheme.nearestCell (getCellCenters (_mesh c))
                (getNumberOfCells (_mesh c)) pos ;;
       ix <- assign (_probesIndices ts) i idx ;;
       Ok (with_probesIndices ts ix) in
  match for_each body (map Z.of_nat (seq m len)) (with_probesIndices c ixa),
        for_each body (map Z.of_nat (seq m len)) (with_probesIndices c ixb) with
  | Ok a', Ok b' =>
      exists ixa' ixb',
        a' = with_probesIndices c ixa' /\ b' = with_probesIndices c ixb' /\
        length ixa' = length ixa /\ length ixb' = length ixb /\
        forall k, (k < m + len)%nat -> nth_error ixa' k = nth_error ixb' k
  | Fault f, Fault g => f = g
  | _, _ => False
  end.
Proof.
  intros c len. induction len as [| len IH]; intros m ixa ixb L H body.
  - simpl. exists ixa, ixb. repeat split; try reflexivity.
    intros k Hk. apply H. lia.
  - subst body. simpl for_each. simpl _probesPos. simpl _probesIndices.
    destruct (index (_probesPos c) (Z.of_nat m)) as [pos | f];
      simpl bind; [| reflexivity].
    destruct (TimeScheme.nearestCell _ _ pos) as [idx | f];
      simpl bind; [| reflexivity].
    unfold assign. rewrite <- L.
    destruct ((0 <=? Z.of_nat m) && (Z.of_nat m <? Z.of_nat (length ixa)))
      eqn:Hin; simpl bind; [| reflexivity].
    apply andb_true_iff in Hin. destruct Hin as [_ Hin].
    apply Z.ltb_lt in Hin. rewrite Nat2Z.id.
    change (with_probesIndices (with_probesIndices c ixa)
              (set_nth ixa m idx))
      with (with_probesIndices c (set_nth ixa m idx)).
    change (with_probesIndices (with_probesIndices c ixb)
              (set_nth ixb m idx))
      with (with_probesIndices c (set_nth ixb m idx)).
    specialize (IH (S m) (set_nth ixa m idx) (set_nth ixb m idx)).
    simpl in IH.
    match type of IH with
    | ?P -> ?Q -> _ =>
        assert (HP : P) by (rewrite !set_nth_length; exact L);
        assert (HQ : Q)
    end.
    { intros k Hk. destruct (Nat.eq_dec k m) as [-> | Hne].
      - rewrite !set_nth_same by lia. reflexivity.
      - rewrite !set_nth_other by lia. apply H. lia. }
    specialize (IH HP HQ).
    destruct (for_each _ _ (with_probesIndices c (set_nth ixa m idx)))
      as [a' | f];
      destruct (for_each _ _ (with_probesIndices c (set_nth ixb m idx)))
        as [b' | g]; try exact IH.
    destruct IH as (ixa' & ixb' & Ea & Eb & La & Lb & Hk).
    exists ixa', ixb'. rewrite set_nth_length in La, Lb.
    split; [exact Ea |]. split; [exact Eb |].
    split; [exact La |]. split; [congruence |].
    intros k Hlt. apply Hk. lia.
Qed.

Lemma same_entries : forall (a b : list Z),
  length a = length b ->
  (forall k, (k < length a)%nat -> nth_error a k = nth_error b k) ->
  a = b.
Proof.
  intros a b L H. apply nth_error_ext. intros k.
  destruct (Nat.lt_ge_cases k (length a)) as [Hlt | Hge]; [apply H; exact Hlt |].
  rewrite (proj2 (nth_error_None a k)) by lia.
  rewrite (proj2 (nth_error_None b k)) by lia. reflexivity.
Qed.

(** Index tables of the size of the probe count: what they held before
    does not show in what [buildProbesCellIndices] returns. *)
Lemma buildProbesCellIndices_alike : forall (c : TimeScheme D) (ixa ixb : list Z),
  length ixa = Z.to_nat (_nProbes c) ->
  length ixb = Z.to_nat (_nProbes c) ->
  TimeScheme.buildProbesCellIndices (with_probesIndices c ixa) =
  TimeScheme.buildProbesCellIndices (with_probesIndices c ixb).
Proof.
  intros c ixa ixb La Lb.
  assert (L : length ixa = length ixb) by congruence.
  pose proof (@resolve_alike c (Z.to_nat (_nProbes c)) 0%nat ixa ixb L) as R.
  simpl in R. specialize (R ltac:(intros k Hk; lia)).
  unfold TimeScheme.buildProbesCellIndices, upto. simpl.
  destruct (for_each _ _ (with_probesIndices c ixa)) as [a' | f];
    destruct (for_each _ _ (with_probesIndices c ixb)) as [b' | g];
    try contradiction.
  - destruct R as (ixa' & ixb' & -> & -> & La' & Lb' & Hk).
    do 2 f_equal. apply same_entries; [congruence |].
    intros k Hlt. apply Hk. lia.
  - rewrite R. reflexivity.
Qed.

Lemma prologue_alike : forall resultsDir fluxName (w : World D)
    (c : TimeScheme D) (ixa ixb : list Z),
  length ixa = Z.to_nat (_nProbes c) ->
  length ixb = Z.to_nat (_nProbes c) ->
  TimeScheme.prologue resultsDir fluxName (with_self w (with_probesIndices c ixa)) =
  TimeScheme.prologue resultsDir fluxName (with_self w (with_probesIndices c ixb)).
Proof.
  intros resultsDir fluxName w c ixa ixb La Lb.
  unfold TimeScheme.prologue, TimeScheme.saveCurrentSolution. simpl.
  match goal with
  | |- context [for_each ?g ?l ?s] => destruct (for_each g l s) as [lines | f]
  end; simpl; [| reflexivity].
  match goal with
  | |- context [for_each ?g ?l ?s] => destruct (for_each g l s) as [topo | f]
  end; simpl; [| reflexivity].
  rewrite (buildProbesCellIndices_alike c ixa ixb La Lb).
  destruct (TimeScheme.buildProbesCellIndices _) as [this | f]; reflexivity.
Qed.

Lemma solve_alike : forall v fuel (w : World D) (c : TimeScheme D)
    (ixa ixb : list Z),
  length ixa = Z.to_nat (_nProbes c) ->
  length ixb = Z.to_nat (_nProbes c) ->
  solve v fuel (with_self w (with_probesIndices c ixa)) =
  solve v fuel (with_self w (with_probesIndices c ixb)).
Proof.
  intros v fuel w c ixa ixb La Lb. unfold solve, TimeScheme.solve. simpl.
  rewrite (prologue_alike _ _ w c ixa ixb La Lb). reflexivity.
Qed.

End Alike.

(** X5.  [TimeScheme::Initialize] on a used object, in every arithmetic.
    For a probe count that is not negative, on any object whatever its
    state, the clock and the tables it holds: [Initialize] succeeds and
    returns the object the four-argument constructor builds from the same
    collaborators (state = initial condition of the physics, clock =
    initial time, time step, final time, probe count, references and
    positions from the configuration), but for the index table: it has the
    size of the probe count and may keep indices of the earlier use where
    the constructor puts zeros.  On the two objects
    [buildProbesCellIndices] and every run of [solve] of either variant
    give the same in the model: the same object, files, records and calls,
    or the same first fault (an access out of bounds or a division by
    zero, where the model stops and C++ leaves the behaviour undefined).
    Nothing of the earlier use is left in a run. *)
Theorem TimeScheme_Initialize_runs_like_the_constructor :
  forall (D : Type) (SD : Scalar D) (DF : DataFile D) mesh physics finVol
         (w : World D),
    let fresh := constructed DF mesh physics finVol in
    0 <= getNumberOfProbes DF ->
    exists this' ix,
      TimeScheme.Initialize DF mesh physics finVol (self w) = Ok this' /\
      TimeScheme.new DF mesh physics finVol = Ok fresh /\
      this' = with_probesIndices fresh ix /\
      length ix = length (_probesIndices fresh) /\
      TimeScheme.buildProbesCellIndices this' =
        TimeScheme.buildProbesCellIndices fresh /\
      forall v fuel,
        solve v fuel (with_self w this') = solve v fuel (with_self w fresh).
Proof.
  intros D SD DF mesh physics finVol w fresh Hnb.
  unfold TimeScheme.Initialize, vector_resize.
  destruct (Z.ltb_spec (getNumberOfProbes DF) 0); [lia |]. simpl bind.
  set (n := Z.to_nat (getNumberOfProbes DF)).
  set (ix := firstn n (_probesIndices (self w)) ++
             repeat 0 (n - length (_probesIndices (self w)))).
  assert (L : length ix = n).
  { unfold ix. rewrite length_app, length_firstn, repeat_length. lia. }
  assert (Lf : length (_probesIndices fresh) = n) by apply repeat_length.
  assert (Ef : fresh = with_probesIndices fresh (_probesIndices fresh))
    by reflexivity.
  eexists. exists ix. split; [reflexivity |].
  split; [apply new_constructed; exact Hnb |].
  split; [reflexivity |]. split; [congruence |].
  change (TimeScheme.buildProbesCellIndices (with_probesIndices fresh ix) =
          TimeScheme.buildProbesCellIndices
            (with_probesIndices fresh (_probesIndices fresh)) /\
          forall v fuel,
            solve v fuel (with_self w (with_probesIndices fresh ix)) =
            solve v fuel (with_self w (with_probesIndices fresh
                                         (_probesIndices fresh)))).
  split.
  - apply buildProbesCellIndices_alike; assumption.
  - intros v fuel. apply solve_alike; assumption.
Qed.

Lemma TimeScheme_Initialize_runs_like_the_constructor_witness :
  exists this' ix,
    TimeScheme.Initialize Lake.DF Lake.mesh Lake.physics Lake.finVol
      (self Reused.world) = Ok this' /\
    TimeScheme.new Lake.DF Lake.mesh Lake.physics Lake.finVol
      = Ok (constructed Lake.DF Lake.mesh Lake.physics Lake.finVol) /\
    this' = with_probesIndices
              (constructed Lake.DF Lake.mesh Lake.physics Lake.finVol) ix /\
    length ix = length (_probesIndices
                          (constructed Lake.DF Lake.mesh Lake.physics Lake.finVol)) /\
    TimeScheme.buildProbesCellIndices this' =
      TimeScheme.buildProbesCellIndices
        (constructed Lake.DF Lake.mesh Lake.physics Lake.finVol) /\
    forall v fuel,
      solve v fuel (with_self Reused.world this') =
      solve v fuel (with_self Reused.world
                      (constructed Lake.DF Lake.mesh Lake.physics Lake.finVol)).
Proof.
  apply (@TimeScheme_Initialize_runs_like_the_constructor float binary64
           Lake.DF Lake.mesh Lake.physics Lake.finVol Reused.world).
  vm_compute. discriminate.
Defined.

(* ================================================================= *)
(** ** What is written: snapshots *)

Section Snapshot.
Context {D : Type} {SD : Scalar D}.

Lemma for_each_app : forall (A St : Type) (g : A -> St -> result St)
    (l1 l2 : list A) (s : St),
  for_each g (l1 ++ l2) s = (s' <- for_each g l1 s ;; for_each g l2 s').
Proof.
  intros A St g l1. induction l1 as [| a l1 IH]; intros l2 s; simpl.
  - reflexivity.
  - destruct (g a s) as [s1 | f]; simpl; [apply IH | reflexivity].
Qed.

Lemma bind_Ok : forall (A B : Type) (a : A) (k : A -> result B),
  bind (Ok a) k = k a.
Proof. reflexivity. Qed.

Lemma index_beyond : forall (A : Type) (l : list A) (k : nat),
  (length l <= k)%nat -> index l (Z.of_nat k) = Fault OutOfRange.
Proof.
  intros A l k H. unfold index.
  destruct (Z.ltb_spec (Z.of_nat k) 0); [reflexivity |].
  rewrite Nat2Z.id.
  destruct (nth_error l k) eqn:E; [| reflexivity].
  assert (nth_error l k <> None) by (rewrite E; discriminate).
  apply nth_error_Some in H1. lia.
Qed.

Lemma snapshot_from : forall (this : TimeScheme D) len m (acc : list (list D)),
  (m + len <= length (getCellCenters (_mesh this)))%nat ->
  (m + len <= length (getTopography (_physics this)))%nat ->
  (m + len <= length (_Sol this))%nat ->
  for_each
    (fun i acc =>
       x <- index (getCellCenters (_mesh this)) i ;;
       r <- index (_Sol this) i ;;
       z <- index (getTopography (_physics this)) i ;;
       Ok (acc ++ [TimeScheme.columns (getGravityAcceleration (_DF this)) x z r]))
    (map Z.of_nat (seq m len)) acc
  = Ok (acc ++
        map (fun i => TimeScheme.columns (getGravityAcceleration (_DF this))
                        (nth i (getCellCenters (_mesh this)) dzero)
                        (nth i (getTopography (_physics this)) dzero)
                        (nth i (_Sol this) (dzero, dzero)))
            (seq m len)).
Proof.
  intros this len. induction len as [| len IH]; intros m acc Hc Ht HS.
  - simpl. rewrite app_nil_r. reflexivity.
  - simpl.
    rewrite (index_nth (getCellCenters (_mesh this)) dzero) by lia. simpl.
    rewrite (index_nth (_Sol this) (dzero, dzero)) by lia. simpl.
    rewrite (index_nth (getTopography (_physics this)) dzero) by lia. simpl.
    rewrite IH by lia. rewrite <- app_assoc. reflexivity.
Qed.

Lemma snapshot_fault : forall (this : TimeScheme D) len m (acc : list (list D)),
  (length (getCellCenters (_mesh this)) <= m)%nat \/
  (length (getTopography (_physics this)) <= m)%nat ->
  (m < length (_Sol this))%nat ->
  for_each
    (fun i acc =>
       x <- index (getCellCenters (_mesh this)) i ;;
       r <- index (_Sol this) i ;;
       z <- index (getTopography (_physics this)) i ;;
       Ok (acc ++ [TimeScheme.columns (getGravityAcceleration (_DF this)) x z r]))
    (map Z.of_nat (seq m (S len))) acc
  = Fault OutOfRange.
Proof.
  intros this len m acc H HS. simpl.
  destruct (Nat.le_gt_cases (length (getCellCenters (_mesh this))) m) as [Hc | Hc].
  - rewrite (index_beyond _ Hc). reflexivity.
  - rewrite (index_nth (getCellCenters (_mesh this)) dzero Hc). simpl.
    rewrite (index_nth (_Sol this) (dzero, dzero) HS). simpl.
    destruct H as [H | H]; [lia |].
    rewrite (index_beyond _ H). reflexivity.
Qed.

Lemma saveCurrentSolution_rows : forall fileName (w : World D),
  snapshotReady (self w) ->
  TimeScheme.saveCurrentSolution fileName w =
    Ok (emit w (WriteFile fileName (Some TimeScheme.header) (snapshotRows (self w)))).
Proof.
  intros fileName w [Hc Ht]. unfold TimeScheme.saveCurrentSolution, upto, rows.
  rewrite Nat2Z.id.
  rewrite (@snapshot_from (self w) (length (_Sol (self w))) 0%nat []) by lia.
  reflexivity.
Qed.

Lemma saveCurrentSolution_fault : forall fileName (w : World D),
  ~ snapshotReady (self w) ->
  TimeScheme.saveCurrentSolution fileName w = Fault OutOfRange.
Proof.
  intros fileName w Hn. unfold TimeScheme.saveCurrentSolution, upto, rows.
  rewrite Nat2Z.id.
  set (m := Nat.min (length (getCellCenters (_mesh (self w))))
                    (length (getTopography (_physics (self w))))).
  assert (Hm : (m < length (_Sol (self w)))%nat).
  { destruct (Nat.le_gt_cases (length (_Sol (self w))) m) as [H | H]; [| exact H].
    exfalso. apply Hn. split; unfold m in H; lia. }
  replace (length (_Sol (self w))) with (m + S (length (_Sol (self w)) - S m))%nat at 1 by lia.
  rewrite seq_app, map_app, for_each_app.
  rewrite (@snapshot_from (self w) m 0%nat []) by (unfold m; lia).
  rewrite bind_Ok, snapshot_fault; [reflexivity | unfold m; lia | exact Hm].
Qed.

End Snapshot.

(** X7.  [saveCurrentSolution], in every arithmetic.  When every cell of
    the state has a centre and a bottom height, it succeeds, touches
    nothing of the object, and writes one file: the header line, then
    exactly one row per cell, in the order of the cells, holding x, h + z,
    h, q / h, q and |q / h| / sqrt(g h).  When a cell lacks a centre or a
    bottom height it stops on a read out of range. *)
Theorem saveCurrentSolution_one_row_per_cell :
  forall (D : Type) (SD : Scalar D) (fileName : string) (w : World D),
    (snapshotReady (self w) ->
       TimeScheme.saveCurrentSolution fileName w =
         Ok (emit w (WriteFile fileName (Some TimeScheme.header)
                       (snapshotRows (self w)))) /\
       length (snapshotRows (self w)) = length (_Sol (self w))) /\
    (~ snapshotReady (self w) ->
       TimeScheme.saveCurrentSolution fileName w = Fault OutOfRange).
Proof.
  intros D SD fileName w. split.
  - intros H. split; [apply saveCurrentSolution_rows; exact H |].
    unfold snapshotRows. rewrite length_map, length_seq. reflexivity.
  - apply saveCurrentSolution_fault.
Qed.

(* ================================================================= *)
(** ** What a pass, the loop and [solve] write and call *)

Section PassOutput.
Context {D : Type} {SD : Scalar D}.

Lemma saveStep_events : forall resultsDir fluxName n (w : World D),
  snapshotReady (self w) -> samplingDefined (self w) -> 0 <= n ->
  TimeScheme.saveStep resultsDir fluxName n w =
    Ok (emitAll w
          (if negb (isSaveFinalTimeOnly (_DF (self w)))
              && (Z.rem n (getSaveFrequency (_DF (self w))) =? 0)
           then [WriteFile
                   (TimeScheme.solutionFile resultsDir fluxName
                      (Z.quot n (getSaveFrequency (_DF (self w)))))
                   (Some TimeScheme.header) (snapshotRows (self w))]
           else [])).
Proof.
  intros resultsDir fluxName n w Hsnap [Hd _] Hn. unfold TimeScheme.saveStep.
  destruct (isSaveFinalTimeOnly (_DF (self w))) eqn:Ef; simpl.
  - destruct w; reflexivity.
  - destruct Hd as [Hd | Hd]; [discriminate Hd |].
    rewrite (int_rem_ok Hn Hd). simpl.
    destruct (Z.rem n (getSaveFrequency (_DF (self w))) =? 0).
    + rewrite (int_div_ok Hn Hd). simpl.
      rewrite (saveCurrentSolution_rows _ w Hsnap). reflexivity.
    + destruct w; reflexivity.
Qed.

Lemma probeStep_events : forall n (w : World D),
  probesReady (self w) -> samplingDefined (self w) -> 0 <= n ->
  TimeScheme.probeStep n w =
    Ok (emitAll w
          (if negb (_nProbes (self w) =? 0)
              && (Z.rem n (Z.quot (getSaveFrequency (_DF (self w))) 10) =? 0)
           then probeRecords (self w)
           else [])).
Proof.
  intros n w Hr [_ Hd] Hn.
  destruct (Z.eq_dec (_nProbes (self w)) 0) as [E0 | Hp].
  - unfold TimeScheme.probeStep. rewrite E0. simpl. reflexivity.
  - destruct Hd as [Hd | Hd]; [contradiction |].
    rewrite (probeStep_defined w Hp Hd Hn).
    destruct (Z.eqb_spec (_nProbes (self w)) 0); [contradiction |]. simpl.
    destruct (Z.rem n (Z.quot (getSaveFrequency (_DF (self w))) 10) =? 0).
    + apply saveProbes_ok. exact Hr.
    + reflexivity.
Qed.

Lemma oneStep_calls : forall v (w w' : World D),
  oneStep v w = Ok w' -> calls w' = calls w ++ stepCalls v w.
Proof.
  intros v w w' H.
  destruct v; simpl in H;
    [unfold ExplicitEuler.oneStep in H | unfold RK2.oneStep in H];
    simpl in H.
  - repeat match type of H with
           | bind (cwiseAdd ?a ?b) _ = _ =>
               destruct (cwiseAdd a b); simpl in H; [| discriminate H]
           end.
    injection H as <-. simpl. rewrite <- app_assoc. reflexivity.
  - destruct (cwiseAdd _ _) as [k1 |] eqn:E1 in H; simpl in H; [| discriminate H].
    apply cwiseAdd_inv in E1. destruct E1 as [_ ->].
    destruct (cwiseAdd _ _) as [trial |] eqn:E2 in H; simpl in H; [| discriminate H].
    apply cwiseAdd_inv in E2. destruct E2 as [_ ->].
    repeat match type of H with
           | bind (cwiseAdd ?a ?b) _ = _ =>
               destruct (cwiseAdd a b); simpl in H; [| discriminate H]
           end.
    injection H as <-. simpl. repeat rewrite <- app_assoc. reflexivity.
Qed.

(** One pass on a ready world: the object, what was written, and the
    provider calls. *)
Lemma loopBody_events : forall v resultsDir fluxName (w : World D) n,
  ready w -> 0 <= n < INT_MAX ->
  exists w',
    TimeScheme.loopBody (oneStep v) resultsDir fluxName w n = Ok (w', n + 1) /\
    self w' = passed v w /\
    output w' = output w ++ passEvents resultsDir fluxName (passed v w) (n + 1) /\
    calls w' = calls w ++ stepCalls v w.
Proof.
  intros v resultsDir fluxName w n Hr Hn.
  assert (Hr' := Hr). destruct Hr' as (Hs & Hsnap & Hp & Hd).
  unfold TimeScheme.loopBody.
  destruct (oneStep_shaped v Hs) as (w1 & E1 & S1 & Eself & Eout & _).
  rewrite E1. simpl.
  unfold incr. destruct (Z.ltb_spec n INT_MAX); [| lia]. simpl.
  assert (Et : self (TimeScheme.tick w1) = passed v w).
  { unfold TimeScheme.tick, passed. simpl. rewrite Eself, S1. reflexivity. }
  assert (Hr1 : ready (TimeScheme.tick w1)).
  { eapply ready_moved; [exact Hr | exact Et |].
    apply update_length. exact Hs. }
  destruct Hr1 as (_ & Hsnap1 & Hp1 & Hd1).
  rewrite saveStep_events by (try assumption; lia). rewrite bind_Ok.
  rewrite probeStep_events
    by (rewrite ?emitAll_self; try assumption; lia).
  rewrite bind_Ok. eexists. split; [reflexivity |].
  assert (Hc : forall es (x : World D), calls (emitAll x es) = calls x).
  { unfold emitAll. induction es as [| e es IH]; intros x; simpl;
      [reflexivity |]. rewrite IH. reflexivity. }
  rewrite !emitAll_self, !emitAll_output, !Hc, !Et.
  split; [reflexivity |]. split.
  - unfold passEvents. replace (output (TimeScheme.tick w1)) with (output w)
      by (symmetry; exact Eout).
    rewrite <- app_assoc. reflexivity.
  - replace (calls (TimeScheme.tick w1)) with (calls w1) by reflexivity.
    apply (oneStep_calls v w E1).
Qed.

End PassOutput.

Section LoopOutput.
Context {D : Type} {SD : Scalar D}.

Lemma passed_self : forall v (a b : World D),
  self a = self b -> passed v a = passed v b.
Proof.
  intros v a b H. unfold passed. rewrite (@update_self D SD v a b H), H. reflexivity.
Qed.

Lemma passed_ready : forall v (w w' : World D),
  ready w -> self w' = passed v w -> ready w'.
Proof.
  intros v w w' Hr E. eapply ready_moved; [exact Hr | exact E |].
  apply update_length. apply Hr.
Qed.

Lemma loopEvents_self : forall v resultsDir fluxName k (a b : World D) n,
  self a = self b ->
  loopEvents v resultsDir fluxName k a n = loopEvents v resultsDir fluxName k b n.
Proof.
  intros v resultsDir fluxName k. induction k as [| k IH]; intros a b n H; simpl.
  - reflexivity.
  - rewrite (@passed_self v a b H). f_equal. apply IH. reflexivity.
Qed.

Lemma stepCalls_self : forall v (a b : World D),
  self a = self b -> stepCalls v a = stepCalls v b.
Proof.
  intros v a b H. unfold stepCalls, rk2trial, rk2k1, stage. rewrite H. reflexivity.
Qed.

Lemma loopCalls_self : forall v k (a b : World D),
  self a = self b -> loopCalls v k a = loopCalls v k b.
Proof.
  intros v k. induction k as [| k IH]; intros a b H; simpl.
  - reflexivity.
  - rewrite (@stepCalls_self v a b H), (@passed_self v a b H). f_equal.
    apply IH. reflexivity.
Qed.

(** The loop on a ready world: the passes it makes, what it writes and the
    provider calls it makes. *)
Lemma timeLoop_events : forall k v resultsDir fluxName (w : World D) n fuel,
  ready w -> 0 <= n -> n + Z.of_nat k <= INT_MAX ->
  (forall j, (j < k)%nat ->
     dltb (clockAfter (_currentTime (self w)) (_timeStep (self w)) j)
          (_finalTime (self w)) = true) ->
  dltb (clockAfter (_currentTime (self w)) (_timeStep (self w)) k)
       (_finalTime (self w)) = false ->
  (k <= fuel)%nat ->
  exists w',
    TimeScheme.timeLoop (oneStep v) resultsDir fluxName fuel w n
      = Some (Ok (w', n + Z.of_nat k)) /\
    output w' = output w ++ loopEvents v resultsDir fluxName k w n /\
    calls w' = calls w ++ loopCalls v k w /\
    exists S',
      self w' = with_currentTime (with_Sol (self w) S')
                  (clockAfter (_currentTime (self w)) (_timeStep (self w)) k) /\
      length S' = length (_Sol (self w)).
Proof.
  induction k as [| k IH]; intros v resultsDir fluxName w n fuel Hr Hn Hmax Hlt Hge Hf.
  - exists w. simpl in Hge. rewrite Z.add_0_r. simpl. rewrite !app_nil_r.
    destruct fuel; simpl; rewrite Hge;
      (split; [reflexivity |]; split; [reflexivity |]; split; [reflexivity |];
       exists (_Sol (self w)); split; [apply self_rebuilt | reflexivity]).
  - destruct fuel as [| fuel]; [lia |].
    assert (H0 := Hlt 0%nat ltac:(lia)). simpl in H0.
    simpl TimeScheme.timeLoop. rewrite H0.
    destruct (@loopBody_events D SD v resultsDir fluxName w n Hr)
      as (w1 & E1 & Es1 & Eo1 & Ec1); [lia |].
    rewrite E1.
    assert (Hr1 : ready w1) by (apply (@passed_ready v w w1 Hr Es1)).
    destruct (IH v resultsDir fluxName w1 (n + 1) fuel)
      as (w' & E' & Eo & Ec & S' & ES & LS);
      try assumption; try lia.
    + intros j Hj. rewrite Es1. simpl. apply (Hlt (S j)). lia.
    + rewrite Es1. simpl. exact Hge.
    + exists w'. rewrite E'. split; [do 3 f_equal; lia |].
      assert (Hself : self w1 = self (with_self w (passed v w)))
        by (rewrite Es1; reflexivity).
      split; [| split].
      * rewrite Eo, Eo1. simpl. rewrite <- app_assoc.
        rewrite (@loopEvents_self v resultsDir fluxName k _ _ (n + 1) Hself).
        reflexivity.
      * rewrite Ec, Ec1. simpl. rewrite <- app_assoc.
        rewrite (@loopCalls_self v k _ _ Hself). reflexivity.
      * exists S'. rewrite ES, LS, Es1. unfold passed. simpl.
        split; [reflexivity |]. apply update_length. apply Hr.
Qed.

Lemma topography_from : forall (this : TimeScheme D) len m (acc : list (list D)),
  (m + len <= length (getCellCenters (_mesh this)))%nat ->
  (m + len <= length (getTopography (_physics this)))%nat ->
  for_each
    (fun i acc =>
       x <- index (getCellCenters (_mesh this)) i ;;
       z <- index (getTopography (_physics this)) i ;;
       Ok (acc ++ [[x; z]]))
    (map Z.of_nat (seq m len)) acc
  = Ok (acc ++
        map (fun i => [nth i (getCellCenters (_mesh this)) dzero;
                       nth i (getTopography (_physics this)) dzero])
            (seq m len)).
Proof.
  intros this len. induction len as [| len IH]; intros m acc Hc Ht.
  - simpl. rewrite app_nil_r. reflexivity.
  - simpl.
    rewrite (index_nth (getCellCenters (_mesh this)) dzero) by lia. simpl.
    rewrite (index_nth (getTopography (_physics this)) dzero) by lia. simpl.
    rewrite IH by lia. rewrite <- app_assoc. reflexivity.
Qed.

(** What [solve] does before the loop, on an object whose cells have
    centres and bottom heights and whose probes can be resolved. *)
Lemma prologue_events : forall resultsDir fluxName (w : World D),
  snapshotReady (self w) -> resolvable (self w) ->
  exists w' ix,
    TimeScheme.prologue resultsDir fluxName w = Ok w' /\
    self w' = with_probesIndices (self w) ix /\
    length ix = length (_probesIndices (self w)) /\
    (forall k, (k < Z.to_nat (_nProbes (self w)))%nat ->
       exists idx : nat, nth_error ix k = Some (Z.of_nat idx) /\
                         (idx < length (getCellCenters (_mesh (self w))))%nat) /\
    output w' =
      output w ++
      [WriteFile (TimeScheme.solutionFile resultsDir fluxName 0)
         (Some TimeScheme.header) (snapshotRows (self w));
       WriteFile (resultsDir ++ "/topography.txt")%string None
         (topographyRows (self w))] /\
    calls w' = calls w.
Proof.
  intros resultsDir fluxName w Hsnap Hres. unfold TimeScheme.prologue.
  rewrite (@saveCurrentSolution_rows D SD _ w Hsnap). rewrite bind_Ok.
  destruct Hsnap as [Hc Ht].
  unfold upto, rows. rewrite Nat2Z.id.
  replace (self (emit w _)) with (self w) by reflexivity.
  rewrite (@topography_from (self w) (length (_Sol (self w))) 0%nat []) by lia.
  rewrite bind_Ok.
  destruct (@buildProbesCellIndices_ok D SD (self w) Hres) as (ix & Eb & L & H).
  replace (self (emit (emit w _) _)) with (self w) by reflexivity.
  rewrite Eb. rewrite bind_Ok. eexists. exists ix. split; [reflexivity |].
  split; [reflexivity |]. split; [exact L |]. split; [exact H |].
  split; [| reflexivity].
  simpl. rewrite <- app_assoc. reflexivity.
Qed.

Lemma norm_same : forall (a b : World D),
  self a = self b -> exactSol a = exactSol b ->
  TimeScheme.computeL2Error a = TimeScheme.computeL2Error b /\
  TimeScheme.computeL1Error a = TimeScheme.computeL1Error b.
Proof.
  intros a b H1 H2. unfold TimeScheme.computeL2Error, TimeScheme.computeL1Error.
  rewrite H1, H2. split; reflexivity.
Qed.

(** What [solve] does after the loop. *)
Lemma epilogue_events : forall resultsDir fluxName (w : World D) n,
  snapshotReady (self w) -> closable (self w) -> 0 <= n ->
  let DF := _DF (self w) in
  let wE := buildExactSolution (_currentTime (self w)) w in
  exists w' tail,
    TimeScheme.epilogue resultsDir fluxName w n = Ok w' /\
    self w' = self w /\
    output w' =
      output w ++
      (if isSaveFinalTimeOnly DF
       then [WriteFile
               (TimeScheme.solutionFile resultsDir fluxName
                  (Z.quot n (getSaveFrequency DF)))
               (Some TimeScheme.header) (snapshotRows (self w))]
       else []) ++ tail /\
    (if isTestCase DF
     then exists L2error L1error,
       exactSol w' = exactSol wE /\
       TimeScheme.computeL2Error wE = Ok L2error /\
       TimeScheme.computeL1Error wE = Ok L1error /\
       tail = reported resultsDir (getDx DF) (exactSol wE) L2error L1error
     else tail = [] /\ exactSol w' = exactSol w) /\
    calls w' =
      calls w ++
      (if isTestCase DF then [BuildExactSolution (_currentTime (self w))] else []).
Proof.
  intros resultsDir fluxName w n Hsnap [Hfin Htest] Hn DF wE. subst DF.
  unfold TimeScheme.epilogue.
  set (final := if isSaveFinalTimeOnly (_DF (self w))
                then [WriteFile
                        (TimeScheme.solutionFile resultsDir fluxName
                           (Z.quot n (getSaveFrequency (_DF (self w)))))
                        (Some TimeScheme.header) (snapshotRows (self w))]
                else []).
  assert (H1 : (if isSaveFinalTimeOnly (_DF (self w))
                then k <- int_div n (getSaveFrequency (_DF (self w))) ;;
                     TimeScheme.saveCurrentSolution
                       (TimeScheme.solutionFile resultsDir fluxName k) w
                else Ok w) = Ok (emitAll w final)).
  { unfold final. destruct (isSaveFinalTimeOnly (_DF (self w))) eqn:Ef.
    - rewrite (@int_div_ok n _ Hn (Hfin eq_refl)). rewrite bind_Ok.
      rewrite (@saveCurrentSolution_rows D SD _ w Hsnap). reflexivity.
    - reflexivity. }
  rewrite H1. rewrite bind_Ok.
  assert (Hc : calls (emitAll w final) = calls w).
  { unfold final. destruct (isSaveFinalTimeOnly (_DF (self w))); reflexivity. }
  destruct (isTestCase (_DF (self w))) eqn:Et.
  - specialize (Htest eq_refl).
    set (w3 := emit _ _).
    assert (E3 : self w3 = self wE /\ exactSol w3 = exactSol wE).
    { unfold w3, wE. simpl. rewrite !emitAll_self. split; reflexivity. }
    destruct E3 as [E3s E3e].
    destruct (@computeL2Error_ok D SD wE) as (e2 & E2).
    { simpl. symmetry. apply Htest. }
    destruct (@computeL1Error_ok D SD wE) as (e1 & E1').
    { simpl. rewrite Htest. lia. }
    rewrite (proj1 (@norm_same w3 wE E3s E3e)), E2. rewrite bind_Ok.
    set (w4 := emit w3 _).
    assert (E4 : self w4 = self wE /\ exactSol w4 = exactSol wE)
      by (split; assumption).
    rewrite (proj2 (@norm_same w4 wE (proj1 E4) (proj2 E4))), E1'. rewrite bind_Ok.
    eexists. exists (reported resultsDir (getDx (_DF (self w))) (exactSol wE) e2 e1).
    split; [reflexivity |].
    split; [simpl; apply emitAll_self |].
    split; [| split].
    + simpl. rewrite emitAll_output. unfold reported.
      rewrite emitAll_self. rewrite <- !app_assoc. reflexivity.
    + exists e2, e1. split; [exact (proj2 E4) |]. repeat split; assumption.
    + simpl. rewrite Hc, emitAll_self. reflexivity.
  - exists (emitAll w final), []. split; [reflexivity |].
    split; [apply emitAll_self |].
    split; [rewrite emitAll_output, app_nil_r; reflexivity |].
    split; [split; [reflexivity |] |].
    + unfold final. destruct (isSaveFinalTimeOnly (_DF (self w))); reflexivity.
    + rewrite Hc, app_nil_r. reflexivity.
Qed.

End LoopOutput.

Section SolveOutput.
Context {D : Type} {SD : Scalar D}.

(** Everything [solve] writes and every call it makes, on a configured run
    of [k] passes. *)
Lemma solve_events : forall v (DF : DataFile D) mesh physics finVol (w : World D)
    (k fuel : nat),
  configured DF mesh physics finVol ->
  self w = constructed DF mesh physics finVol ->
  Z.of_nat k <= INT_MAX ->
  (forall j, (j < k)%nat ->
     dltb (clockAfter (getInitialTime DF) (getTimeStep DF) j) (getFinalTime DF) = true) ->
  dltb (clockAfter (getInitialTime DF) (getTimeStep DF) k) (getFinalTime DF) = false ->
  (k <= fuel)%nat ->
  exists w' w1 ix S' tail,
    solve v fuel w = Some (Ok w') /\
    ready w1 /\
    self w1 = with_probesIndices (self w) ix /\
    self w' = with_currentTime (with_Sol (self w1) S')
                (clockAfter (getInitialTime DF) (getTimeStep DF) k) /\
    length S' = length (getInitialCondition physics) /\
    output w' =
      output w ++
      [WriteFile (TimeScheme.solutionFile (getResultsDirectory DF)
                    (getFluxName finVol) 0)
         (Some TimeScheme.header) (snapshotRows (self w));
       WriteFile (getResultsDirectory DF ++ "/topography.txt")%string None
         (topographyRows (self w))] ++
      loopEvents v (getResultsDirectory DF) (getFluxName finVol) k w1 0 ++
      (if isSaveFinalTimeOnly DF
       then [WriteFile
               (TimeScheme.solutionFile (getResultsDirectory DF)
                  (getFluxName finVol)
                  (Z.quot (Z.of_nat k) (getSaveFrequency DF)))
               (Some TimeScheme.header) (snapshotRows (self w'))]
       else []) ++ tail /\
    (if isTestCase DF
     then exists L2error L1error,
       exactSol w' =
         exactSolutionAt physics
           (clockAfter (getInitialTime DF) (getTimeStep DF) k) /\
       TimeScheme.computeL2Error w' = Ok L2error /\
       TimeScheme.computeL1Error w' = Ok L1error /\
       tail = reported (getResultsDirectory DF) (getDx DF) (exactSol w')
                L2error L1error
     else tail = []) /\
    calls w' =
      calls w ++ loopCalls v k w1 ++
      (if isTestCase DF
       then [BuildExactSolution
               (clockAfter (getInitialTime DF) (getTimeStep DF) k)]
       else []).
Proof.
  intros v DF mesh physics finVol w k fuel Hc Hw Hmax Hlt Hge Hf.
  destruct Hc as (HN & Hcells & Hcen & Htopo & Hprov & Hnb & Hrefs & Hpos & Hsf & Hq & Hex).
  unfold solve, TimeScheme.solve.
  assert (EDF : _DF (self w) = DF) by (rewrite Hw; reflexivity).
  assert (EfV : _finVol (self w) = finVol) by (rewrite Hw; reflexivity).
  rewrite EDF, EfV.
  destruct (@prologue_events D SD (getResultsDirectory DF) (getFluxName finVol) w)
    as (w1 & ix & E1 & Es1 & Lix & Hix & Eo1 & Ec1).
  { rewrite Hw. split; simpl; lia. }
  { rewrite Hw. unfold resolvable. simpl. rewrite repeat_length.
    repeat split; try lia.
    intros E. rewrite E in Hcen. simpl in Hcen. lia. }
  rewrite E1.
  assert (Hr1 : ready w1).
  { unfold ready, shaped, snapshotReady, probesReady, samplingDefined.
    rewrite Es1, Hw. simpl. repeat split; try lia.
    - apply (Hprov S H).
    - apply (Hprov S H).
    - destruct (Hix k0) as (idx & Hn & Hi); [rewrite Hw; simpl; exact H |].
      exists idx. rewrite Hw in Hi. simpl in Hi. repeat split; try assumption; lia. }
  assert (Hclk : _currentTime (self w1) = getInitialTime DF) by (rewrite Es1, Hw; reflexivity).
  assert (Hdt : _timeStep (self w1) = getTimeStep DF) by (rewrite Es1, Hw; reflexivity).
  assert (HT : _finalTime (self w1) = getFinalTime DF) by (rewrite Es1, Hw; reflexivity).
  assert (HS1 : length (_Sol (self w1)) = length (getInitialCondition physics))
    by (rewrite Es1, Hw; reflexivity).
  destruct (@timeLoop_events D SD k v (getResultsDirectory DF) (getFluxName finVol)
              w1 0 fuel Hr1) as (w2 & E2 & Eo2 & Ec2 & S' & ES & LS);
    try lia; try (rewrite Hclk, Hdt, HT; assumption).
  rewrite E2. rewrite Hclk, Hdt in ES.
  assert (Hr2 : ready w2).
  { eapply ready_moved; [exact Hr1 | exact ES | exact LS]. }
  assert (Hcl2 : closable (self w2)).
  { eapply closable_moved; [| exact ES | exact LS].
    unfold closable. rewrite Es1, Hw. simpl. split; [intros _; exact Hsf | exact Hex]. }
  destruct (@epilogue_events D SD (getResultsDirectory DF) (getFluxName finVol) w2
              (0 + Z.of_nat k)) as (w3 & tail & E3 & Es3 & Eo3 & Ht3 & Ec3).
  { apply Hr2. }
  { exact Hcl2. }
  { lia. }
  assert (EDF2 : _DF (self w2) = DF) by (rewrite ES, Es1, Hw; reflexivity).
  assert (Eph2 : _physics (self w2) = physics) by (rewrite ES, Es1, Hw; reflexivity).
  assert (Eclk2 : _currentTime (self w2) =
                  clockAfter (getInitialTime DF) (getTimeStep DF) k)
    by (rewrite ES; reflexivity).
  rewrite EDF2 in Eo3, Ht3, Ec3. rewrite Eclk2 in Ht3, Ec3. simpl in Eo3.
  exists w3, w1, ix, S', tail. rewrite E3.
  split; [reflexivity |]. split; [exact Hr1 |]. split; [exact Es1 |].
  split; [rewrite Es3; exact ES |]. split; [rewrite LS; exact HS1 |].
  split; [| split].
  - rewrite Eo3, Eo2, Eo1, Es3. rewrite <- !app_assoc. reflexivity.
  - destruct (isTestCase DF).
    + destruct Ht3 as (e2 & e1 & Ex & E2' & E1' & Etail).
      assert (Ex' : exactSol w3 =
                    exactSolutionAt physics
                      (clockAfter (getInitialTime DF) (getTimeStep DF) k)).
      { rewrite Ex. simpl. rewrite Eph2. reflexivity. }
      exists e2, e1. split; [exact Ex' |].
      destruct (@norm_same D SD w3
                  (buildExactSolution
                     (clockAfter (getInitialTime DF) (getTimeStep DF) k) w2))
        as [N2 N1]; [exact Es3 | exact Ex |].
      rewrite N2, N1. split; [exact E2' |]. split; [exact E1' |].
      rewrite Etail, Ex. reflexivity.
    + apply Ht3.
  - rewrite Ec3, Ec2, Ec1. rewrite <- !app_assoc. reflexivity.
Qed.

End SolveOutput.

(** The passes [1 .. k] whose number is a multiple of [q] are
    [q, 2 q, ..., (k / q) q]. *)
Lemma multiples_upto : forall (B : Type) (g : nat -> list B) (q : Z) (k : nat),
  0 < q ->
  flat_map (fun j => if Z.rem (Z.of_nat j) q =? 0 then g j else []) (seq 1 k) =
  flat_map (fun i => g (i * Z.to_nat q)%nat)
    (seq 1 (Z.to_nat (Z.quot (Z.of_nat k) q))).
Proof.
  intros B g q k Hq. induction k as [| k IH].
  - rewrite Z.quot_0_l by lia. reflexivity.
  - rewrite seq_S, flat_map_app, IH. cbn [flat_map]. rewrite app_nil_r.
    replace (1 + k)%nat with (S k) by lia.
    rewrite Z.rem_mod_nonneg by lia.
    rewrite !Z.quot_div_nonneg by lia.
    assert (Hk := Z.div_mod (Z.of_nat k) q ltac:(lia)).
    assert (Hr := Z.mod_pos_bound (Z.of_nat k) q Hq).
    assert (Hd : 0 <= Z.of_nat k / q) by (apply Z.div_pos; lia).
    destruct (Z.eq_dec (Z.of_nat k mod q + 1) q) as [E | E].
    + assert (Hq1 : Z.of_nat (S k) / q = Z.of_nat k / q + 1).
      { symmetry. apply (Z.div_unique _ _ _ 0); [lia | nia]. }
      assert (Hm1 : Z.of_nat (S k) mod q = 0).
      { symmetry. apply (Z.mod_unique _ _ (Z.of_nat k / q + 1)); [lia | nia]. }
      rewrite Hm1, Hq1. simpl (0 =? 0).
      rewrite Z2Nat.inj_add by lia. simpl (Z.to_nat 1).
      rewrite Nat.add_1_r, seq_S, flat_map_app. cbn [flat_map].
      rewrite app_nil_r. f_equal. f_equal. nia.
    + assert (Hq1 : Z.of_nat (S k) / q = Z.of_nat k / q).
      { symmetry. apply (Z.div_unique _ _ _ (Z.of_nat k mod q + 1)); [lia | nia]. }
      assert (Hm1 : Z.of_nat (S k) mod q = Z.of_nat k mod q + 1).
      { symmetry. apply (Z.mod_unique _ _ (Z.of_nat k / q)); [lia | nia]. }
      rewrite Hm1, Hq1.
      destruct (Z.eqb_spec (Z.of_nat k mod q + 1) 0); [lia |].
      rewrite app_nil_r. reflexivity.
Qed.

Lemma flat_map_seq_S : forall (B : Type) (f : nat -> list B) (k : nat),
  flat_map f (seq 1 (S k)) = f 1%nat ++ flat_map (fun j => f (S j)) (seq 1 k).
Proof.
  intros B f k. simpl. f_equal. rewrite <- seq_shift.
  generalize (seq 1 k). intros l. induction l as [| a l IH]; simpl;
    [reflexivity | rewrite IH; reflexivity].
Qed.

Section ClosedForms.
Context {D : Type} {SD : Scalar D}.

Lemma filesWritten_app : forall a b : list (Event D),
  filesWritten (a ++ b) = filesWritten a ++ filesWritten b.
Proof. intros. unfold filesWritten. apply flat_map_app. Qed.

Lemma stamps_app : forall a b : list (Event D),
  stamps (a ++ b) = stamps a ++ stamps b.
Proof. intros. unfold stamps. apply flat_map_app. Qed.

Lemma filesWritten_probeRecords : forall this : TimeScheme D,
  filesWritten (probeRecords this) = [].
Proof.
  intros this. unfold probeRecords.
  induction (seq 0 (Z.to_nat (getNumberOfProbes (_DF this)))) as [| a l IH];
    simpl; [reflexivity | exact IH].
Qed.

Lemma stamps_probeRecords : forall this : TimeScheme D,
  stamps (probeRecords this) =
    map (fun p => (TimeScheme.probeFile (getResultsDirectory (_DF this))
                     (nth p (_probesRef this) 0),
                   _currentTime this))
        (seq 0 (Z.to_nat (getNumberOfProbes (_DF this)))).
Proof.
  intros this. unfold probeRecords.
  induction (seq 0 (Z.to_nat (getNumberOfProbes (_DF this)))) as [| a l IH];
    simpl; [reflexivity | rewrite <- IH; reflexivity].
Qed.

Lemma snapshotRows_length : forall this : TimeScheme D,
  length (snapshotRows this) = length (_Sol this).
Proof.
  intros this. unfold snapshotRows. rewrite length_map, length_seq. reflexivity.
Qed.

Lemma topographyRows_length : forall this : TimeScheme D,
  length (topographyRows this) = length (_Sol this).
Proof.
  intros this. unfold topographyRows. rewrite length_map, length_seq. reflexivity.
Qed.

Lemma shaped_passed : forall v (w : World D),
  shaped w -> shaped (with_self w (passed v w)).
Proof.
  intros v w Hs. unfold shaped, passed. simpl.
  rewrite (update_length v Hs). exact Hs.
Qed.

(** The snapshots the passes write. *)
Lemma filesWritten_loopEvents : forall k v resultsDir fluxName (w : World D) n,
  shaped w ->
  filesWritten (loopEvents v resultsDir fluxName k w n) =
    flat_map
      (fun j =>
         if negb (isSaveFinalTimeOnly (_DF (self w)))
            && (Z.rem (n + Z.of_nat j) (getSaveFrequency (_DF (self w))) =? 0)
         then [(TimeScheme.solutionFile resultsDir fluxName
                  (Z.quot (n + Z.of_nat j) (getSaveFrequency (_DF (self w)))),
                true, length (_Sol (self w)))]
         else [])
      (seq 1 k).
Proof.
  induction k as [| k IH]; intros v resultsDir fluxName w n Hs.
  - reflexivity.
  - rewrite flat_map_seq_S. simpl loopEvents. rewrite filesWritten_app.
    rewrite (IH v resultsDir fluxName _ (n + 1) (shaped_passed v Hs)).
    f_equal.
    + unfold passEvents. rewrite filesWritten_app.
      change (_DF (passed v w)) with (_DF (self w)).
      change (n + Z.of_nat 1) with (n + 1).
      assert (L : length (snapshotRows (passed v w)) = length (_Sol (self w))).
      { rewrite snapshotRows_length. unfold passed. simpl.
        apply (update_length v Hs). }
      destruct (negb (isSaveFinalTimeOnly (_DF (self w)))
                && (Z.rem (n + 1) (getSaveFrequency (_DF (self w))) =? 0));
        destruct (negb (_nProbes (passed v w) =? 0)
                  && (Z.rem (n + 1) (Z.quot (getSaveFrequency (_DF (self w))) 10) =? 0));
        rewrite ?filesWritten_probeRecords; simpl; rewrite ?L; reflexivity.
    + apply flat_map_ext. intros j.
      change (self (with_self w (passed v w))) with (passed v w).
      change (_DF (passed v w)) with (_DF (self w)).
      replace (length (_Sol (passed v w))) with (length (_Sol (self w)))
        by (unfold passed; simpl; symmetry; apply (update_length v Hs)).
      replace (n + 1 + Z.of_nat j) with (n + Z.of_nat (S j)) by lia.
      reflexivity.
Qed.

(** The probe records the passes append, by file and time. *)
Lemma stamps_loopEvents : forall k v resultsDir fluxName (w : World D) n,
  stamps (loopEvents v resultsDir fluxName k w n) =
    flat_map
      (fun j =>
         if negb (_nProbes (self w) =? 0)
            && (Z.rem (n + Z.of_nat j)
                  (Z.quot (getSaveFrequency (_DF (self w))) 10) =? 0)
         then map (fun p =>
                     (TimeScheme.probeFile (getResultsDirectory (_DF (self w)))
                        (nth p (_probesRef (self w)) 0),
                      clockAfter (_currentTime (self w)) (_timeStep (self w)) j))
                  (seq 0 (Z.to_nat (getNumberOfProbes (_DF (self w)))))
         else [])
      (seq 1 k).
Proof.
  induction k as [| k IH]; intros v resultsDir fluxName w n.
  - reflexivity.
  - rewrite flat_map_seq_S. simpl loopEvents. rewrite stamps_app.
    rewrite (IH v resultsDir fluxName _ (n + 1)).
    f_equal.
    + unfold passEvents. rewrite stamps_app.
      change (_DF (passed v w)) with (_DF (self w)).
      change (_nProbes (passed v w)) with (_nProbes (self w)).
      change (n + Z.of_nat 1) with (n + 1).
      destruct (negb (isSaveFinalTimeOnly (_DF (self w)))
                && (Z.rem (n + 1) (getSaveFrequency (_DF (self w))) =? 0));
        destruct (negb (_nProbes (self w) =? 0)
                  && (Z.rem (n + 1) (Z.quot (getSaveFrequency (_DF (self w))) 10) =? 0));
        rewrite ?stamps_probeRecords; reflexivity.
    + apply flat_map_ext. intros j.
      change (self (with_self w (passed v w))) with (passed v w).
      change (_DF (passed v w)) with (_DF (self w)).
      change (_nProbes (passed v w)) with (_nProbes (self w)).
      change (_probesRef (passed v w)) with (_probesRef (self w)).
      change (_timeStep (passed v w)) with (_timeStep (self w)).
      change (_currentTime (passed v w))
        with (dadd (_currentTime (self w)) (_timeStep (self w))).
      replace (n + 1 + Z.of_nat j) with (n + Z.of_nat (S j)) by lia.
      reflexivity.
Qed.

Lemma loopCalls_length : forall v k (w : World D),
  length (loopCalls v k w) = (k * callsPerStep v)%nat.
Proof.
  intros v k. induction k as [| k IH]; intros w; simpl; [reflexivity |].
  rewrite length_app, IH. destruct v; reflexivity.
Qed.

Lemma loopCalls_providers : forall v k (w : World D),
  Forall isProviderCall (loopCalls v k w).
Proof.
  intros v k. induction k as [| k IH]; intros w; simpl; [constructor |].
  apply Forall_app. split; [| apply IH].
  destruct v; simpl; repeat constructor.
Qed.

End ClosedForms.

(** *** The runs on which the statements are evaluated *)

Lemma Trial_configured :
  configured Trial.DF Trial.mesh Trial.physics Trial.finVol.
Proof.
  unfold configured. simpl.
  repeat split; try lia; try reflexivity; try discriminate.
  - intros t. simpl. apply repeat_length.
  - apply mzero_length.
  - right. vm_compute. discriminate.
Qed.

Lemma Stalled_configured :
  configured Stalled.DF Basin.mesh Basin.physics Basin.finVol.
Proof. apply (@Basin_configured 2e16%float 1 false). discriminate. Qed.

Lemma Rewind_configured :
  configured Rewind.DF (Scenario.mesh StillLake.centers 1%R) StillLake.physics
    (Scenario.constantFlux (0%R, 0%R)).
Proof.
  unfold configured. simpl.
  repeat split; try lia; try reflexivity; try discriminate.
  - intros t. simpl. apply repeat_length.
  - apply mzero_length.
Qed.

Lemma Exchange_shaped : shaped Exchange.world.
Proof.
  intros S HS. simpl in *. split; [intros _; symmetry; exact HS |].
  apply mzero_length.
Qed.

Lemma total_zeros : forall (col : R * R -> R) n,
  col (0%R, 0%R) = 0%R -> total col (mzero n) = 0%R.
Proof.
  intros col n H. unfold total, mzero. induction n as [| n IH]; simpl.
  - reflexivity.
  - rewrite H. simpl in IH. rewrite IH. lra.
Qed.

Lemma Exchange_balanced :
  balanced fst Exchange.world /\ balanced snd Exchange.world.
Proof.
  split; intros S HS; simpl; (split; [intros _; unfold total; simpl; lra |]);
    apply total_zeros; reflexivity.
Qed.

Lemma flat_map_nothing : forall (A B : Type) (l : list A),
  flat_map (fun _ : A => @nil B) l = [].
Proof. intros A B l. induction l as [| a l IH]; simpl; [reflexivity | exact IH]. Qed.

Lemma flat_map_single : forall (A B : Type) (f : A -> B) (l : list A),
  flat_map (fun a => [f a]) l = map f l.
Proof.
  intros A B f l. induction l as [| a l IH]; simpl; [reflexivity |].
  rewrite IH. reflexivity.
Qed.

(** X8.  The files [solve] writes itself (the reference solution of
    test-case mode is written by the physics).  On a configured run of k
    passes with a positive save frequency sf, in every arithmetic, they
    are, in this order: the snapshot number 0 (header, one row per cell), the
    topography (no header, one row per cell), and then, outside
    final-time-only mode, the snapshots number 1 .. k / sf (integer
    quotient), each with the header and one row per cell; in
    final-time-only mode, the single snapshot number k / sf, which for
    k < sf is number 0 again, the file of the initial condition. *)
Theorem solve_files_written :
  forall (D : Type) (SD : Scalar D) (v : Scheme) (DF : DataFile D) mesh physics
         finVol (w : World D) (k fuel : nat),
    let N := length (getInitialCondition physics) in
    let name := TimeScheme.solutionFile (getResultsDirectory DF)
                  (getFluxName finVol) in
    let last := Z.quot (Z.of_nat k) (getSaveFrequency DF) in
    configured DF mesh physics finVol ->
    self w = constructed DF mesh physics finVol ->
    0 < getSaveFrequency DF ->
    Z.of_nat k <= INT_MAX ->
    (forall j, (j < k)%nat ->
       dltb (clockAfter (getInitialTime DF) (getTimeStep DF) j)
            (getFinalTime DF) = true) ->
    dltb (clockAfter (getInitialTime DF) (getTimeStep DF) k)
         (getFinalTime DF) = false ->
    (k <= fuel)%nat ->
    exists w',
      solve v fuel w = Some (Ok w') /\
      filesWritten (output w') =
        filesWritten (output w) ++
        [(name 0, true, N);
         ((getResultsDirectory DF ++ "/topography.txt")%string, false, N)] ++
        (if isSaveFinalTimeOnly DF
         then [(name last, true, N)]
         else map (fun i => (name (Z.of_nat i), true, N))
                  (seq 1 (Z.to_nat last))).
Proof.
  intros D SD v DF mesh physics finVol w k fuel N name last Hc Hw Hsf Hmax Hlt Hge Hf.
  destruct (@solve_events D SD v DF mesh physics finVol w k fuel Hc Hw Hmax Hlt Hge Hf)
    as (w' & w1 & ix & S' & tail & E & Hr1 & Es1 & Es' & LS & Eo & Ht & _).
  exists w'. split; [exact E |].
  assert (Htail : filesWritten tail = []).
  { destruct (isTestCase DF).
    - destruct Ht as (e2 & e1 & _ & _ & _ & ->). reflexivity.
    - rewrite Ht. reflexivity. }
  assert (EDF1 : _DF (self w1) = DF) by (rewrite Es1, Hw; reflexivity).
  assert (ES1 : length (_Sol (self w1)) = N) by (rewrite Es1, Hw; reflexivity).
  assert (ES0 : length (_Sol (self w)) = N) by (rewrite Hw; reflexivity).
  rewrite Eo. rewrite !filesWritten_app.
  rewrite (@filesWritten_loopEvents D SD k v _ _ w1 0 (proj1 Hr1)).
  rewrite Htail, app_nil_r, EDF1, ES1.
  f_equal. simpl filesWritten at 1.
  rewrite snapshotRows_length, topographyRows_length, ES0.
  fold name. do 2 f_equal.
  destruct (isSaveFinalTimeOnly DF); simpl negb; cbn [andb].
  - rewrite flat_map_nothing. simpl. rewrite snapshotRows_length, Es'. simpl.
    rewrite LS. reflexivity.
  - rewrite app_nil_r.
    transitivity
      (flat_map
         (fun j => if Z.rem (Z.of_nat j) (getSaveFrequency DF) =? 0
                   then [(name (Z.quot (Z.of_nat j) (getSaveFrequency DF)), true, N)]
                   else [])
         (seq 1 k));
      [apply flat_map_ext; intros j; reflexivity |].
    rewrite (@multiples_upto _
               (fun j => [(name (Z.quot (Z.of_nat j) (getSaveFrequency DF)),
                           true, N)])
               (getSaveFrequency DF) k Hsf).
    rewrite flat_map_single. apply map_ext. intros i.
    do 3 f_equal. rewrite Nat2Z.inj_mul, Z2Nat.id by lia.
    apply Z.quot_mul. lia.
Qed.

Lemma solve_files_written_witness :
  exists w',
    solve SchemeRK2 12 (Basin.world 1.2%float 4 false) = Some (Ok w') /\
    filesWritten (output w') =
      [("results/solution_constant_0.txt", true, 10%nat);
       ("results/topography.txt", false, 10%nat);
       ("results/solution_constant_1.txt", true, 10%nat);
       ("results/solution_constant_2.txt", true, 10%nat);
       ("results/solution_constant_3.txt", true, 10%nat)].
Proof.
  destruct (@solve_files_written float binary64 SchemeRK2
              (Basin.DF 1.2%float 4 false) Basin.mesh Basin.physics Basin.finVol
              (Basin.world 1.2%float 4 false) 12%nat 12%nat) as (w' & E & F).
  - apply Basin_configured. discriminate.
  - reflexivity.
  - reflexivity.
  - vm_compute. discriminate.
  - intros j Hj.
    do 12 (destruct j as [| j]; [vm_compute; reflexivity |]). lia.
  - vm_compute. reflexivity.
  - lia.
  - exists w'. split; [exact E |]. rewrite F. vm_compute. reflexivity.
Defined.

Section Reports.
Context {D : Type} {SD : Scalar D}.

Lemma probeRecords_files : forall this : TimeScheme D,
  Forall isFileEvent (probeRecords this).
Proof.
  intros this. unfold probeRecords. apply Forall_map, Forall_forall.
  intros p _. exact I.
Qed.

Lemma passEvents_files : forall resultsDir fluxName (this : TimeScheme D) n,
  Forall isFileEvent (passEvents resultsDir fluxName this n).
Proof.
  intros resultsDir fluxName this n. unfold passEvents. apply Forall_app. split.
  - destruct (_ && _); repeat constructor.
  - destruct (_ && _); [apply probeRecords_files | constructor].
Qed.

Lemma loopEvents_files : forall k v resultsDir fluxName (w : World D) n,
  Forall isFileEvent (loopEvents v resultsDir fluxName k w n).
Proof.
  induction k as [| k IH]; intros v resultsDir fluxName w n; simpl.
  - constructor.
  - apply Forall_app. split; [apply passEvents_files | apply IH].
Qed.

End Reports.

(** X9.  The probe records of a whole run.  On a configured run of k passes
    whose save frequency has a positive integer tenth q = sf / 10, in every
    arithmetic, the lines [solve] appends are, in order, for i = 1 .. k / q
    and for every probe in turn, one line in the file of the probe's
    reference whose time column is the clock after i * q additions of the
    time step; no other line is appended. *)
Theorem solve_probe_records :
  forall (D : Type) (SD : Scalar D) (v : Scheme) (DF : DataFile D) mesh physics
         finVol (w : World D) (k fuel : nat),
    let q := Z.quot (getSaveFrequency DF) 10 in
    configured DF mesh physics finVol ->
    self w = constructed DF mesh physics finVol ->
    0 < q ->
    Z.of_nat k <= INT_MAX ->
    (forall j, (j < k)%nat ->
       dltb (clockAfter (getInitialTime DF) (getTimeStep DF) j)
            (getFinalTime DF) = true) ->
    dltb (clockAfter (getInitialTime DF) (getTimeStep DF) k)
         (getFinalTime DF) = false ->
    (k <= fuel)%nat ->
    exists w',
      solve v fuel w = Some (Ok w') /\
      stamps (output w') =
        stamps (output w) ++
        flat_map
          (fun i =>
             map (fun p =>
                    (TimeScheme.probeFile (getResultsDirectory DF)
                       (nth p (getProbesReferences DF) 0),
                     clockAfter (getInitialTime DF) (getTimeStep DF)
                       (i * Z.to_nat q)))
                 (seq 0 (Z.to_nat (getNumberOfProbes DF))))
          (seq 1 (Z.to_nat (Z.quot (Z.of_nat k) q))).
Proof.
  intros D SD v DF mesh physics finVol w k fuel q Hc Hw Hq Hmax Hlt Hge Hf.
  destruct (@solve_events D SD v DF mesh physics finVol w k fuel Hc Hw Hmax Hlt Hge Hf)
    as (w' & w1 & ix & S' & tail & E & Hr1 & Es1 & Es' & LS & Eo & Ht & _).
  exists w'. split; [exact E |].
  assert (Htail : stamps tail = []).
  { destruct (isTestCase DF).
    - destruct Ht as (e2 & e1 & _ & _ & _ & ->). reflexivity.
    - rewrite Ht. reflexivity. }
  assert (Hfinal : forall name rows,
            stamps (if isSaveFinalTimeOnly DF
                    then [WriteFile name (Some TimeScheme.header) rows]
                    else @nil (Event D)) = []).
  { intros name rows. destruct (isSaveFinalTimeOnly DF); reflexivity. }
  rewrite Eo. rewrite !stamps_app. rewrite Htail, Hfinal, !app_nil_r.
  rewrite (@stamps_loopEvents D SD k v _ _ w1 0).
  rewrite Es1, Hw. simpl. fold q.
  destruct (Z.eqb_spec (getNumberOfProbes DF) 0) as [E0 | Hnb]; simpl.
  - rewrite E0. simpl. rewrite !flat_map_nothing. reflexivity.
  - f_equal.
    apply (@multiples_upto _
             (fun j => map (fun p =>
                              (TimeScheme.probeFile (getResultsDirectory DF)
                                 (nth p (getProbesReferences DF) 0),
                               clockAfter (getInitialTime DF) (getTimeStep DF) j))
                           (seq 0 (Z.to_nat (getNumberOfProbes DF))))
             q k Hq).
Qed.

Lemma solve_probe_records_witness :
  exists w',
    solve SchemeExplicitEuler 4 Trial.world = Some (Ok w') /\
    stamps (output w') =
      [("results/probe_7.txt", 1%float); ("results/probe_7.txt", 2%float)].
Proof.
  destruct (@solve_probe_records float binary64 SchemeExplicitEuler
              Trial.DF Trial.mesh Trial.physics Trial.finVol Trial.world
              4%nat 4%nat) as (w' & E & F).
  - exact Trial_configured.
  - reflexivity.
  - reflexivity.
  - vm_compute. discriminate.
  - intros j Hj.
    do 4 (destruct j as [| j]; [vm_compute; reflexivity |]). lia.
  - vm_compute. reflexivity.
  - lia.
  - exists w'. split; [exact E |]. rewrite F. vm_compute. reflexivity.
Defined.

(** X10.  The end of [solve].  On a configured run of k passes, in every
    arithmetic, what [solve] emits first is file output only (files
    written, probe lines appended).  In test-case mode it then builds the
    reference solution at the final clock, saves it under
    solution_exacte.txt, and reports the L2 errors and then the L1 errors,
    which are the values [computeL2Error] and [computeL1Error] return on
    the final state; outside test-case mode it emits nothing more. *)
Theorem solve_test_case_report :
  forall (D : Type) (SD : Scalar D) (v : Scheme) (DF : DataFile D) mesh physics
         finVol (w : World D) (k fuel : nat),
    let T := clockAfter (getInitialTime DF) (getTimeStep DF) k in
    configured DF mesh physics finVol ->
    self w = constructed DF mesh physics finVol ->
    Z.of_nat k <= INT_MAX ->
    (forall j, (j < k)%nat ->
       dltb (clockAfter (getInitialTime DF) (getTimeStep DF) j)
            (getFinalTime DF) = true) ->
    dltb T (getFinalTime DF) = false ->
    (k <= fuel)%nat ->
    exists w' files,
      solve v fuel w = Some (Ok w') /\
      Forall isFileEvent files /\
      if isTestCase DF
      then exists L2error L1error,
        exactSol w' = exactSolutionAt physics T /\
        TimeScheme.computeL2Error w' = Ok L2error /\
        TimeScheme.computeL1Error w' = Ok L1error /\
        output w' =
          output w ++ files ++
          [SaveExactSolution
             (getResultsDirectory DF ++ "/solution_exacte.txt")%string
             (exactSolutionAt physics T);
           ConsoleError "L2" (fst L2error) (snd L2error) (getDx DF);
           ConsoleError "L1" (fst L1error) (snd L1error) (getDx DF)]
      else output w' = output w ++ files.
Proof.
  intros D SD v DF mesh physics finVol w k fuel T Hc Hw Hmax Hlt Hge Hf.
  destruct (@solve_events D SD v DF mesh physics finVol w k fuel Hc Hw Hmax Hlt Hge Hf)
    as (w' & w1 & ix & S' & tail & E & Hr1 & Es1 & Es' & LS & Eo & Ht & _).
  fold T in Ht.
  exists w'.
  exists ([WriteFile (TimeScheme.solutionFile (getResultsDirectory DF)
                        (getFluxName finVol) 0)
             (Some TimeScheme.header) (snapshotRows (self w));
           WriteFile (getResultsDirectory DF ++ "/topography.txt")%string None
             (topographyRows (self w))] ++
          loopEvents v (getResultsDirectory DF) (getFluxName finVol) k w1 0 ++
          (if isSaveFinalTimeOnly DF
           then [WriteFile
                   (TimeScheme.solutionFile (getResultsDirectory DF)
                      (getFluxName finVol)
                      (Z.quot (Z.of_nat k) (getSaveFrequency DF)))
                   (Some TimeScheme.header) (snapshotRows (self w'))]
           else [])).
  split; [exact E |]. split.
  - apply Forall_app. split; [repeat constructor |].
    apply Forall_app. split; [apply loopEvents_files |].
    destruct (isSaveFinalTimeOnly DF); repeat constructor.
  - destruct (isTestCase DF).
    + destruct Ht as (e2 & e1 & Ex & E2 & E1 & Etail).
      exists e2, e1. split; [exact Ex |]. split; [exact E2 |].
      split; [exact E1 |].
      rewrite Eo, Etail, Ex. unfold reported.
      rewrite <- ?app_assoc. reflexivity.
    + rewrite Eo, Ht, app_nil_r. rewrite <- ?app_assoc. reflexivity.
Qed.

Lemma solve_test_case_report_witness :
  exists w' files,
    solve SchemeRK2 4 Trial.world = Some (Ok w') /\
    Forall isFileEvent files /\
    exists L2error L1error,
      exactSol w' = repeat (1%float, 0%float) 5 /\
      TimeScheme.computeL2Error w' = Ok L2error /\
      TimeScheme.computeL1Error w' = Ok L1error /\
      output w' =
        files ++
        [SaveExactSolution "results/solution_exacte.txt"
           (repeat (1%float, 0%float) 5);
         ConsoleError "L2" (fst L2error) (snd L2error) 1%float;
         ConsoleError "L1" (fst L1error) (snd L1error) 1%float].
Proof.
  apply (@solve_test_case_report float binary64 SchemeRK2
           Trial.DF Trial.mesh Trial.physics Trial.finVol Trial.world
           4%nat 4%nat).
  - exact Trial_configured.
  - reflexivity.
  - vm_compute. discriminate.
  - intros j Hj.
    do 4 (destruct j as [| j]; [vm_compute; reflexivity |]). lia.
  - vm_compute. reflexivity.
  - lia.
Defined.

(** X11.  The build calls of [solve] to its collaborators.  On a
    configured run of k passes, in every arithmetic, they are k times the
    calls of one step (2 k for Explicit Euler, 4 k for RK2), all to the flux and source
    providers, followed in test-case mode by one [buildExactSolution] at
    the final clock and by nothing otherwise: writing snapshots, the
    topography and the probes calls no provider. *)
Theorem solve_provider_calls :
  forall (D : Type) (SD : Scalar D) (v : Scheme) (DF : DataFile D) mesh physics
         finVol (w : World D) (k fuel : nat),
    configured DF mesh physics finVol ->
    self w = constructed DF mesh physics finVol ->
    Z.of_nat k <= INT_MAX ->
    (forall j, (j < k)%nat ->
       dltb (clockAfter (getInitialTime DF) (getTimeStep DF) j)
            (getFinalTime DF) = true) ->
    dltb (clockAfter (getInitialTime DF) (getTimeStep DF) k)
         (getFinalTime DF) = false ->
    (k <= fuel)%nat ->
    exists w' stepping,
      solve v fuel w = Some (Ok w') /\
      calls w' =
        calls w ++ stepping ++
        (if isTestCase DF
         then [BuildExactSolution
                 (clockAfter (getInitialTime DF) (getTimeStep DF) k)]
         else []) /\
      length stepping = (k * callsPerStep v)%nat /\
      Forall isProviderCall stepping.
Proof.
  intros D SD v DF mesh physics finVol w k fuel Hc Hw Hmax Hlt Hge Hf.
  destruct (@solve_events D SD v DF mesh physics finVol w k fuel Hc Hw Hmax Hlt Hge Hf)
    as (w' & w1 & ix & S' & tail & E & _ & _ & _ & _ & _ & _ & Ec).
  exists w', (loopCalls v k w1). split; [exact E |]. split; [exact Ec |].
  split; [apply loopCalls_length | apply loopCalls_providers].
Qed.

Lemma solve_provider_calls_witness :
  exists w' stepping,
    solve SchemeRK2 4 Trial.world = Some (Ok w') /\
    calls w' = stepping ++ [BuildExactSolution 2%float] /\
    length stepping = 16%nat /\
    Forall isProviderCall stepping.
Proof.
  destruct (@solve_provider_calls float binary64 SchemeRK2
              Trial.DF Trial.mesh Trial.physics Trial.finVol Trial.world
              4%nat 4%nat) as (w' & stepping & E & Ec & L & F).
  - exact Trial_configured.
  - reflexivity.
  - vm_compute. discriminate.
  - intros j Hj.
    do 4 (destruct j as [| j]; [vm_compute; reflexivity |]). lia.
  - vm_compute. reflexivity.
  - lia.
  - exists w', stepping. split; [exact E |]. split; [| split; assumption].
    rewrite Ec. reflexivity.
Defined.

(* ================================================================= *)
(** ** Runs that do not end *)

Lemma for_each_invariant : forall (A St : Type) (P : St -> Prop)
    (g : A -> St -> result St) (l : list A) (s s' : St),
  (forall a x x', g a x = Ok x' -> P x -> P x') ->
  P s -> for_each g l s = Ok s' -> P s'.
Proof.
  intros A St P g l. induction l as [| a l IH]; intros s s' Hg Hs H; simpl in H.
  - injection H as <-. exact Hs.
  - destruct (g a s) as [s1 | f] eqn:E; simpl in H; [| discriminate H].
    apply (IH s1 s' Hg); [apply (Hg a s s1 E Hs) | exact H].
Qed.

Section Clock.
Context {D : Type} {SD : Scalar D}.

Lemma saveProbes_self : forall (w w' : World D),
  TimeScheme.saveProbes w = Ok w' -> self w' = self w.
Proof.
  intros w w' H. unfold TimeScheme.saveProbes in H.
  apply (for_each_invariant (fun x : World D => self x = self w)) in H;
    [exact H | | reflexivity].
  intros i x x' E Hx.
  destruct (index (_probesRef (self w)) i); simpl in E; [| discriminate E].
  destruct (index (_probesIndices (self w)) i); simpl in E; [| discriminate E].
  destruct (index (_Sol (self w)) a0); simpl in E; [| discriminate E].
  destruct (index (getTopography (_physics (self w))) a0); simpl in E;
    [| discriminate E].
  injection E as <-. exact Hx.
Qed.

Lemma probeStep_self : forall n (w w' : World D),
  TimeScheme.probeStep n w = Ok w' -> self w' = self w.
Proof.
  intros n w w' H. unfold TimeScheme.probeStep in H.
  destruct (negb (_nProbes (self w) =? 0)).
  - destruct (int_div (getSaveFrequency (_DF (self w))) 10) as [d | f];
      simpl in H; [| discriminate H].
    destruct (int_rem n d) as [r | f]; simpl in H; [| discriminate H].
    destruct (r =? 0).
    + apply saveProbes_self. exact H.
    + injection H as <-. reflexivity.
  - injection H as <-. reflexivity.
Qed.

(** Whatever a pass does, it moves the clock by the time step and leaves
    everything of the object but its state in place. *)
Lemma loopBody_self : forall v resultsDir fluxName (w w' : World D) n n',
  TimeScheme.loopBody (oneStep v) resultsDir fluxName w n = Ok (w', n') ->
  self w' = with_currentTime (with_Sol (self w) (_Sol (self w')))
              (dadd (_currentTime (self w)) (_timeStep (self w))).
Proof.
  intros v resultsDir fluxName w w' n n' H. unfold TimeScheme.loopBody in H.
  destruct (oneStep v w) as [w1 | f] eqn:E1; simpl in H; [| discriminate H].
  destruct (incr n) as [n1 | f]; simpl in H; [| discriminate H].
  destruct (TimeScheme.saveStep resultsDir fluxName n1 (TimeScheme.tick w1))
    as [w2 | f] eqn:E2; simpl in H; [| discriminate H].
  destruct (TimeScheme.probeStep n1 w2) as [w3 | f] eqn:E3; simpl in H;
    [| discriminate H].
  injection H as <- <-.
  apply probeStep_self in E3. apply saveStep_self in E2.
  apply oneStep_frame in E1. destruct E1 as (E1 & _).
  rewrite E3, E2. unfold TimeScheme.tick. simpl. rewrite E1. reflexivity.
Qed.

(** While the clock stays below the final time the loop does not end. *)
Lemma timeLoop_never : forall fuel v resultsDir fluxName (w : World D) n,
  (forall j,
     dltb (clockAfter (_currentTime (self w)) (_timeStep (self w)) j)
          (_finalTime (self w)) = true) ->
  forall r, TimeScheme.timeLoop (oneStep v) resultsDir fluxName fuel w n
            <> Some (Ok r).
Proof.
  induction fuel as [| fuel IH]; intros v resultsDir fluxName w n Hlt r H;
    assert (H0 := Hlt 0%nat); simpl in H0; simpl in H; rewrite H0 in H.
  - discriminate H.
  - destruct (TimeScheme.loopBody (oneStep v) resultsDir fluxName w n)
      as [[w1 n1] | f] eqn:E1; [| discriminate H].
    apply loopBody_self in E1.
    apply (IH v resultsDir fluxName w1 n1) with (r := r); [| exact H].
    intros j. rewrite E1. simpl. apply (Hlt (S j)).
Qed.

(** On a ready world it is still running after as many passes as the
    counter can count. *)
Lemma timeLoop_running : forall fuel v resultsDir fluxName (w : World D) n,
  ready w -> 0 <= n -> n + Z.of_nat fuel <= INT_MAX ->
  (forall j,
     dltb (clockAfter (_currentTime (self w)) (_timeStep (self w)) j)
          (_finalTime (self w)) = true) ->
  TimeScheme.timeLoop (oneStep v) resultsDir fluxName fuel w n = None.
Proof.
  induction fuel as [| fuel IH]; intros v resultsDir fluxName w n Hr Hn Hmax Hlt;
    assert (H0 := Hlt 0%nat); simpl in H0; simpl; rewrite H0.
  - reflexivity.
  - destruct (@loopBody_ok D SD v resultsDir fluxName w n Hr) as (w1 & E1 & Es1);
      [lia |].
    rewrite E1. apply IH; try lia.
    + eapply ready_moved; [exact Hr | exact Es1 |].
      apply update_length. apply Hr.
    + intros j. rewrite Es1. simpl. apply (Hlt (S j)).
Qed.

Lemma prologue_self : forall resultsDir fluxName (w w' : World D),
  TimeScheme.prologue resultsDir fluxName w = Ok w' ->
  sameStepping (self w') (self w).
Proof.
  intros resultsDir fluxName w w' H. unfold TimeScheme.prologue in H.
  destruct (TimeScheme.saveCurrentSolution _ w) as [w1 | f] eqn:E1;
    simpl in H; [| discriminate H].
  apply saveCurrentSolution_self in E1. destruct E1 as (e & ->).
  destruct (for_each _ _ _) as [lines | f] in H; simpl in H; [| discriminate H].
  destruct (TimeScheme.buildProbesCellIndices _) as [this | f] eqn:E2;
    simpl in H; [| discriminate H].
  injection H as <-. simpl.
  unfold TimeScheme.buildProbesCellIndices in E2.
  apply (for_each_invariant (fun x : TimeScheme D => sameStepping x (self w)))
    in E2; [exact E2 | | reflexivity].
  intros i x x' E Hx.
  destruct (index (_probesPos x) i); simpl in E; [| discriminate E].
  destruct (TimeScheme.nearestCell _ _ _); simpl in E; [| discriminate E].
  destruct (assign _ _ _); simpl in E; [| discriminate E].
  injection E as <-. exact Hx.
Qed.

Lemma solve_never : forall v (w : World D) fuel,
  (forall j,
     dltb (clockAfter (_currentTime (self w)) (_timeStep (self w)) j)
          (_finalTime (self w)) = true) ->
  forall w', solve v fuel w <> Some (Ok w').
Proof.
  intros v w fuel Hlt w' H. unfold solve, TimeScheme.solve in H.
  destruct (TimeScheme.prologue _ _ w) as [w1 | f] eqn:E1; [| discriminate H].
  apply prologue_self in E1. unfold sameStepping in E1.
  pose proof (f_equal (@_currentTime D) E1) as Hc.
  pose proof (f_equal (@_timeStep D) E1) as Hd.
  pose proof (f_equal (@_finalTime D) E1) as HT.
  simpl in Hc, Hd, HT.
  destruct (TimeScheme.timeLoop _ _ _ fuel w1 0) as [[[w2 n] | f] |] eqn:E2;
    try discriminate H.
  apply (@timeLoop_never fuel v _ _ w1 0) in E2; [exact E2 |].
  intros j. rewrite Hc, Hd, HT. apply Hlt.
Qed.

Lemma solve_running : forall v (DF : DataFile D) mesh physics finVol (w : World D)
    fuel,
  configured DF mesh physics finVol ->
  self w = constructed DF mesh physics finVol ->
  Z.of_nat fuel <= INT_MAX ->
  (forall j,
     dltb (clockAfter (getInitialTime DF) (getTimeStep DF) j) (getFinalTime DF)
       = true) ->
  solve v fuel w = None.
Proof.
  intros v DF mesh physics finVol w fuel Hc Hw Hmax Hlt.
  destruct Hc as (HN & Hcells & Hcen & Htopo & Hprov & Hnb & Hrefs & Hpos & Hsf & Hq & Hex).
  unfold solve, TimeScheme.solve.
  destruct (@prologue_events D SD (getResultsDirectory (_DF (self w)))
              (getFluxName (_finVol (self w))) w)
    as (w1 & ix & E1 & Es1 & Lix & Hix & _).
  { rewrite Hw. split; simpl; lia. }
  { rewrite Hw. unfold resolvable. simpl. rewrite repeat_length.
    repeat split; try lia.
    intros E. rewrite E in Hcen. simpl in Hcen. lia. }
  rewrite E1.
  assert (Hr1 : ready w1).
  { unfold ready, shaped, snapshotReady, probesReady, samplingDefined.
    rewrite Es1, Hw. simpl. repeat split; try lia.
    - apply (Hprov S H).
    - apply (Hprov S H).
    - destruct (Hix k) as (idx & Hn & Hi); [rewrite Hw; simpl; exact H |].
      exists idx. rewrite Hw in Hi. simpl in Hi. repeat split; try assumption; lia. }
  rewrite (@timeLoop_running fuel v _ _ w1 0 Hr1); [reflexivity | lia | lia |].
  intros j. rewrite Es1, Hw. simpl. apply Hlt.
Qed.

Lemma clockAfter_stalled : forall (t dt : D) j,
  dadd t dt = t -> clockAfter t dt j = t.
Proof.
  intros t dt j H. induction j as [| j IH]; simpl; [reflexivity |].
  rewrite H. exact IH.
Qed.

End Clock.

(** X12.  A clock that does not move.  In every arithmetic, when the
    clock is below the final time and adding the time step leaves it
    unchanged (a zero time step; in binary64 also a step that the sum
    absorbs), [solve] never returns a result, whatever the number of
    passes it is given; and on a configured object it is still in its
    loop, without a fault, after any number of passes that the [int]
    counter can count. *)
Theorem solve_never_returns_when_clock_stalls :
  forall (D : Type) (SD : Scalar D) (v : Scheme) (w : World D),
    let this := self w in
    dltb (_currentTime this) (_finalTime this) = true ->
    dadd (_currentTime this) (_timeStep this) = _currentTime this ->
    (forall fuel w', solve v fuel w <> Some (Ok w')) /\
    (forall DF mesh physics finVol fuel,
       configured DF mesh physics finVol ->
       this = constructed DF mesh physics finVol ->
       Z.of_nat fuel <= INT_MAX ->
       solve v fuel w = None).
Proof.
  intros D SD v w this Hlt Hst. subst this. split.
  - intros fuel w'. apply solve_never. intros j.
    rewrite (@clockAfter_stalled D SD _ _ j Hst). exact Hlt.
  - intros DF mesh physics finVol fuel Hc Hw Hmax.
    apply (@solve_running D SD v DF mesh physics finVol w fuel Hc Hw Hmax).
    intros j. rewrite Hw in Hlt, Hst. simpl in Hlt, Hst.
    rewrite (@clockAfter_stalled D SD _ _ j Hst). exact Hlt.
Qed.

Lemma solve_never_returns_when_clock_stalls_witness :
  solve SchemeExplicitEuler 1000 Stalled.world <> Some (Ok Stalled.world) /\
  solve SchemeExplicitEuler 1000 Stalled.world = None.
Proof.
  destruct (@solve_never_returns_when_clock_stalls float binary64
              SchemeExplicitEuler Stalled.world) as [H1 H2].
  - vm_compute. reflexivity.
  - vm_compute. reflexivity.
  - split; [apply H1 |].
    apply (H2 Stalled.DF Basin.mesh Basin.physics Basin.finVol 1000%nat).
    + exact Stalled_configured.
    + reflexivity.
    + vm_compute. discriminate.
Defined.

(** X13.  A time step that is zero or negative, in exact arithmetic: with
    a clock below the final time [solve] never returns a result, and on a
    configured object it is still in its loop after any number of passes
    that the [int] counter can count. *)
Theorem solve_never_returns_on_nonpositive_time_step :
  forall (v : Scheme) (w : World R),
    let this := self w in
    (_timeStep this <= 0)%R ->
    (_currentTime this < _finalTime this)%R ->
    (forall fuel w', solve v fuel w <> Some (Ok w')) /\
    (forall DF mesh physics finVol fuel,
       configured DF mesh physics finVol ->
       this = constructed DF mesh physics finVol ->
       Z.of_nat fuel <= INT_MAX ->
       solve v fuel w = None).
Proof.
  intros v w this Hdt Hlt. subst this.
  assert (H : forall j : nat,
            dltb (clockAfter (_currentTime (self w)) (_timeStep (self w)) j)
                 (_finalTime (self w)) = true).
  { intros j. rewrite clockAfter_exact. apply Rltb_lt.
    assert (0 <= INR j)%R by apply pos_INR. nra. }
  split.
  - intros fuel w'. apply solve_never. exact H.
  - intros DF mesh physics finVol fuel Hc Hw Hmax.
    apply (@solve_running R exact v DF mesh physics finVol w fuel Hc Hw Hmax).
    intros j. specialize (H j). rewrite Hw in H. exact H.
Qed.

Lemma solve_never_returns_on_nonpositive_time_step_witness :
  solve SchemeRK2 50 Rewind.world <> Some (Ok Rewind.world) /\
  solve SchemeRK2 50 Rewind.world = None.
Proof.
  destruct (@solve_never_returns_on_nonpositive_time_step SchemeRK2 Rewind.world)
    as [H1 H2].
  - simpl. lra.
  - simpl. lra.
  - split; [apply H1 |].
    apply (H2 Rewind.DF (Scenario.mesh StillLake.centers 1%R) StillLake.physics
             (Scenario.constantFlux (0%R, 0%R)) 50%nat).
    + exact Rewind_configured.
    + reflexivity.
    + vm_compute. discriminate.
Defined.

(* ================================================================= *)
(** ** More on the steps *)

Section StepFaults.
Context {D : Type} {SD : Scalar D}.

Lemma cwiseAdd_fault : forall (a b : Matrix D) f,
  cwiseAdd a b = Fault f -> f = ShapeMismatch /\ length a <> length b.
Proof.
  intros a b f H. unfold cwiseAdd in H.
  destruct (Nat.eqb_spec (length a) (length b)); [discriminate H |].
  injection H as <-. split; [reflexivity | assumption].
Qed.

Lemma oneStep_fault : forall v (w : World D) f,
  oneStep v w = Fault f -> f = ShapeMismatch.
Proof.
  intros v w f H.
  destruct v; simpl in H;
    [unfold ExplicitEuler.oneStep in H | unfold RK2.oneStep in H];
    simpl in H;
    repeat match type of H with
           | bind (cwiseAdd ?a ?b) _ = _ =>
               let E := fresh "E" in
               destruct (cwiseAdd a b) eqn:E; simpl in H;
               [| injection H as <-; apply cwiseAdd_fault in E; apply E]
           end;
    discriminate H.
Qed.

End StepFaults.

(** X14.  When a step succeeds, in every arithmetic.
    [ExplicitEuler::oneStep] succeeds exactly when the flux vector and the
    source term built at the current state have as many rows as the state;
    [RK2::oneStep] exactly when this also holds for the source term and the
    flux vector built at the trial state.  A step that does not succeed
    stops on a shape mismatch, never on another fault. *)
Theorem oneStep_succeeds_iff_one_row_per_cell :
  forall (D : Type) (SD : Scalar D) (w : World D),
    let S := _Sol (self w) in
    let t := _currentTime (self w) in
    let dt := _timeStep (self w) in
    let dx := getSpaceStep (_mesh (self w)) in
    let Flux := fluxVectorOf (_finVol (self w)) in
    let Source := sourceTermOf (_physics (self w)) in
    let trial := mplus S (mscale dt (mplus (mdivs (Flux t S) dx) (Source S))) in
    ((exists w', ExplicitEuler.oneStep w = Ok w') <->
       length (Flux t S) = length S /\ length (Source S) = length S) /\
    ((exists w', RK2.oneStep w = Ok w') <->
       length (Flux t S) = length S /\ length (Source S) = length S /\
       length (Source trial) = length S /\
       length (Flux (dadd t dt) trial) = length S) /\
    (forall v f, oneStep v w = Fault f -> f = ShapeMismatch).
Proof.
  intros D SD w S t dt dx Flux Source trial.
  split; [| split].
  - split.
    + intros (w' & H). unfold ExplicitEuler.oneStep in H. simpl in H.
      fold S t dt dx Flux Source in H.
      destruct (cwiseAdd (mdivs (Flux t S) dx) (Source S)) as [rhs |] eqn:E1;
        simpl in H; [| discriminate H].
      apply cwiseAdd_inv in E1. destruct E1 as [L1 ->].
      destruct (cwiseAdd S _) as [Sol |] eqn:E2; simpl in H; [| discriminate H].
      apply cwiseAdd_inv in E2. destruct E2 as [L2 _].
      rewrite mdivs_length in L1.
      rewrite mscale_length, mplus_length, mdivs_length in L2
        by (rewrite mdivs_length; exact L1).
      split; congruence.
    + intros [HF HS]. unfold ExplicitEuler.oneStep. simpl.
      fold S t dt dx Flux Source.
      rewrite cwiseAdd_ok by (rewrite mdivs_length; congruence).
      simpl.
      rewrite cwiseAdd_ok
        by (rewrite mscale_length, mplus_length; rewrite mdivs_length; congruence).
      simpl. eexists. reflexivity.
  - split.
    + intros (w' & H). unfold RK2.oneStep in H. simpl in H.
      fold S t dt dx Flux Source in H.
      destruct (cwiseAdd (mdivs (Flux t S) dx) (Source S)) as [k1 |] eqn:E1;
        simpl in H; [| discriminate H].
      apply cwiseAdd_inv in E1. destruct E1 as [L1 ->].
      rewrite mdivs_length in L1.
      destruct (cwiseAdd S _) as [tr |] eqn:E2; simpl in H; [| discriminate H].
      apply cwiseAdd_inv in E2. destruct E2 as [L2 ->]. fold trial in H.
      rewrite mscale_length, mplus_length, mdivs_length in L2
        by (rewrite mdivs_length; exact L1).
      destruct (cwiseAdd (mdivs (Flux (dadd t dt) trial) dx) (Source trial))
        as [k2 |] eqn:E3; simpl in H; [| discriminate H].
      apply cwiseAdd_inv in E3. destruct E3 as [L3 ->].
      rewrite mdivs_length in L3.
      destruct (cwiseAdd _ _) as [k12 |] eqn:E4 in H; simpl in H;
        [| discriminate H].
      apply cwiseAdd_inv in E4. destruct E4 as [L4 _].
      rewrite !mplus_length, !mdivs_length in L4
        by (rewrite mdivs_length; assumption).
      repeat split; congruence.
    + intros (H1 & H2 & H3 & H4).
      assert (L1 : length (mplus (mdivs (Flux t S) dx) (Source S)) = length S).
      { rewrite mplus_length; rewrite mdivs_length; congruence. }
      assert (L2 : length (mplus (mdivs (Flux (dadd t dt) trial) dx) (Source trial))
                   = length S).
      { rewrite mplus_length; rewrite mdivs_length; congruence. }
      unfold RK2.oneStep. simpl. fold S t dt dx Flux Source.
      rewrite cwiseAdd_ok by (rewrite mdivs_length; congruence).
      simpl.
      rewrite cwiseAdd_ok by (rewrite mscale_length; congruence).
      simpl. fold trial.
      rewrite cwiseAdd_ok by (rewrite mdivs_length; congruence).
      simpl.
      rewrite cwiseAdd_ok by congruence.
      simpl.
      rewrite cwiseAdd_ok
        by (rewrite mscale_length, mplus_length; congruence).
      simpl. eexists. reflexivity.
  - intros v f. apply oneStep_fault.
Qed.

Section ExactBalance.
Local Open Scope R_scope.

Lemma total_mplus_fst : forall a b : Matrix R,
  length a = length b -> total fst (mplus a b) = total fst a + total fst b.
Proof.
  unfold total.
  induction a as [| ra a IH]; intros [| rb b] E; simpl in *;
    try discriminate; [lra |].
  rewrite IH by congruence. lra.
Qed.

Lemma total_mplus_snd : forall a b : Matrix R,
  length a = length b -> total snd (mplus a b) = total snd a + total snd b.
Proof.
  unfold total.
  induction a as [| ra a IH]; intros [| rb b] E; simpl in *;
    try discriminate; [lra |].
  rewrite IH by congruence. lra.
Qed.

Lemma total_mscale_fst : forall (x : R) (a : Matrix R),
  total fst (mscale x a) = x * total fst a.
Proof.
  unfold total, mscale. intros x a. induction a as [| r a IH]; simpl in *; [lra |].
  rewrite IH. lra.
Qed.

Lemma total_mscale_snd : forall (x : R) (a : Matrix R),
  total snd (mscale x a) = x * total snd a.
Proof.
  unfold total, mscale. intros x a. induction a as [| r a IH]; simpl in *; [lra |].
  rewrite IH. lra.
Qed.

Lemma total_mdivs_fst : forall (a : Matrix R) (x : R),
  total fst (mdivs a x) = total fst a / x.
Proof.
  unfold total, mdivs. intros a x. induction a as [| r a IH]; simpl in *.
  - unfold Rdiv. lra.
  - rewrite IH. unfold Rdiv. lra.
Qed.

Lemma total_mdivs_snd : forall (a : Matrix R) (x : R),
  total snd (mdivs a x) = total snd a / x.
Proof.
  unfold total, mdivs. intros a x. induction a as [| r a IH]; simpl in *.
  - unfold Rdiv. lra.
  - rewrite IH. unfold Rdiv. lra.
Qed.

(** The sums of the two columns of a stage. *)
Lemma total_stage : forall (w : World R) t S,
  shaped w -> length S = length (_Sol (self w)) ->
  total fst (stage w t S) =
    total fst (fluxVectorOf (_finVol (self w)) t S) / getSpaceStep (_mesh (self w))
    + total fst (sourceTermOf (_physics (self w)) S) /\
  total snd (stage w t S) =
    total snd (fluxVectorOf (_finVol (self w)) t S) / getSpaceStep (_mesh (self w))
    + total snd (sourceTermOf (_physics (self w)) S).
Proof.
  intros w t S Hs L. destruct (Hs S L) as [HF HS]. unfold stage.
  rewrite total_mplus_fst, total_mplus_snd, total_mdivs_fst, total_mdivs_snd
    by (rewrite mdivs_length, HF, HS; reflexivity).
  split; reflexivity.
Qed.

(** A step changes the sum of a column by what the stages sum to. *)
Lemma total_update : forall v (w : World R),
  shaped w ->
  (forall t S, length S = length (_Sol (self w)) ->
     total fst (stage w t S) = 0) ->
  total fst (update v w) = total fst (_Sol (self w)).
Proof.
  intros v w Hs H0.
  assert (L1 : length (rk2k1 w) = length (_Sol (self w)))
    by (apply stage_length; [assumption | reflexivity]).
  assert (Lt : length (rk2trial w) = length (_Sol (self w))).
  { unfold rk2trial. rewrite mplus_length; rewrite ?mscale_length; congruence. }
  assert (L2 : length (rk2k2 w) = length (_Sol (self w))).
  { unfold rk2k2. rewrite stage_length; assumption. }
  destruct v; simpl.
  - unfold eulerUpdate.
    rewrite total_mplus_fst
      by (rewrite mscale_length, stage_length; [reflexivity | assumption | reflexivity]).
    rewrite total_mscale_fst, H0 by reflexivity. lra.
  - unfold rk2Update.
    rewrite total_mplus_fst
      by (rewrite mscale_length, mplus_length; congruence).
    rewrite total_mscale_fst, total_mplus_fst by congruence.
    unfold rk2k1, rk2k2. rewrite !H0 by (reflexivity || exact Lt). lra.
Qed.

Lemma total_update_snd : forall v (w : World R),
  shaped w ->
  (forall t S, length S = length (_Sol (self w)) ->
     total snd (stage w t S) = 0) ->
  total snd (update v w) = total snd (_Sol (self w)).
Proof.
  intros v w Hs H0.
  assert (L1 : length (rk2k1 w) = length (_Sol (self w)))
    by (apply stage_length; [assumption | reflexivity]).
  assert (Lt : length (rk2trial w) = length (_Sol (self w))).
  { unfold rk2trial. rewrite mplus_length; rewrite ?mscale_length; congruence. }
  assert (L2 : length (rk2k2 w) = length (_Sol (self w))).
  { unfold rk2k2. rewrite stage_length; assumption. }
  destruct v; simpl.
  - unfold eulerUpdate.
    rewrite total_mplus_snd
      by (rewrite mscale_length, stage_length; [reflexivity | assumption | reflexivity]).
    rewrite total_mscale_snd, H0 by reflexivity. lra.
  - unfold rk2Update.
    rewrite total_mplus_snd
      by (rewrite mscale_length, mplus_length; congruence).
    rewrite total_mscale_snd, total_mplus_snd by congruence.
    unfold rk2k1, rk2k2. rewrite !H0 by (reflexivity || exact Lt). lra.
Qed.

End ExactBalance.

Section ExactConservation.
Local Open Scope R_scope.

Lemma balanced_stage_fst : forall (w : World R) t S,
  shaped w -> balanced fst w -> length S = length (_Sol (self w)) ->
  total fst (stage w t S) = 0.
Proof.
  intros w t S Hs Hb L. destruct (Hb S L) as [HF HS].
  rewrite (proj1 (@total_stage w t S Hs L)), HF, HS. unfold Rdiv. lra.
Qed.

Lemma balanced_stage_snd : forall (w : World R) t S,
  shaped w -> balanced snd w -> length S = length (_Sol (self w)) ->
  total snd (stage w t S) = 0.
Proof.
  intros w t S Hs Hb L. destruct (Hb S L) as [HF HS].
  rewrite (proj2 (@total_stage w t S Hs L)), HF, HS. unfold Rdiv. lra.
Qed.

Lemma balanced_step : forall col (w w' : World R),
  balanced col w -> steppedFrom w w' ->
  length (_Sol (self w')) = length (_Sol (self w)) ->
  balanced col (TimeScheme.tick w').
Proof.
  intros col w w' Hb [E _] L. unfold balanced, TimeScheme.tick in *. simpl.
  rewrite L. rewrite E. simpl. exact Hb.
Qed.

Lemma advance_conserves_fst : forall v k (w : World R),
  shaped w -> balanced fst w ->
  exists w', advance v k w = Ok w' /\
             total fst (_Sol (self w')) = total fst (_Sol (self w)).
Proof.
  intros v k. induction k as [| k IH]; intros w Hs Hb.
  - exists w. split; reflexivity.
  - destruct (@oneStep_shaped R exact v w Hs) as (w1 & E1 & S1 & Fr).
    assert (L : length (_Sol (self w1)) = length (_Sol (self w)))
      by (rewrite S1; apply update_length; exact Hs).
    destruct (IH (TimeScheme.tick w1)) as (w' & E' & T').
    + apply (@shaped_step R exact w w1 Hs Fr L).
    + apply (@balanced_step fst w w1 Hb Fr L).
    + exists w'. simpl. rewrite E1. simpl. split; [exact E' |].
      rewrite T'. unfold TimeScheme.tick. simpl. rewrite S1.
      apply total_update; [exact Hs |].
      intros t S HL. apply balanced_stage_fst; assumption.
Qed.

Lemma advance_conserves_snd : forall v k (w : World R),
  shaped w -> balanced snd w ->
  exists w', advance v k w = Ok w' /\
             total snd (_Sol (self w')) = total snd (_Sol (self w)).
Proof.
  intros v k. induction k as [| k IH]; intros w Hs Hb.
  - exists w. split; reflexivity.
  - destruct (@oneStep_shaped R exact v w Hs) as (w1 & E1 & S1 & Fr).
    assert (L : length (_Sol (self w1)) = length (_Sol (self w)))
      by (rewrite S1; apply update_length; exact Hs).
    destruct (IH (TimeScheme.tick w1)) as (w' & E' & T').
    + apply (@shaped_step R exact w w1 Hs Fr L).
    + apply (@balanced_step snd w w1 Hb Fr L).
    + exists w'. simpl. rewrite E1. simpl. split; [exact E' |].
      rewrite T'. unfold TimeScheme.tick. simpl. rewrite S1.
      apply total_update_snd; [exact Hs |].
      intros t S HL. apply balanced_stage_snd; assumption.
Qed.

Lemma half_twice : forall (S K : Matrix R) (dt : R),
  mplus S (mscale (dmul dhalf dt) (mplus K K)) = mplus S (mscale dt K).
Proof.
  induction S as [| s S IH]; intros [| r K] dt; simpl; try reflexivity.
  f_equal; [| apply IH].
  apply injective_projections; simpl; field.
Qed.

End ExactConservation.

(** X16.  Conservation, in exact arithmetic, for a nonzero spacing and
    providers that answer one row per cell.  If the flux vector and the
    source term each sum to zero over the cells in the height column, any
    number of passes of either variant succeeds and leaves the sum of the
    heights of the state unchanged; likewise for the discharge column. *)
Theorem stepping_conserves_balanced_columns :
  forall (v : Scheme) (k : nat) (w : World R),
    shaped w ->
    getSpaceStep (_mesh (self w)) <> 0%R ->
    (balanced fst w ->
       exists w', advance v k w = Ok w' /\
                  total fst (_Sol (self w')) = total fst (_Sol (self w))) /\
    (balanced snd w ->
       exists w', advance v k w = Ok w' /\
                  total snd (_Sol (self w')) = total snd (_Sol (self w))).
Proof.
  intros v k w Hs _. split; intros Hb.
  - apply advance_conserves_fst; assumption.
  - apply advance_conserves_snd; assumption.
Qed.

Lemma stepping_conserves_balanced_columns_witness :
  (exists w', advance SchemeRK2 3 Exchange.world = Ok w' /\
              total fst (_Sol (self w')) = total fst [(1, 0); (3, 1)]%R) /\
  (exists w', advance SchemeRK2 3 Exchange.world = Ok w' /\
              total snd (_Sol (self w')) = total snd [(1, 0); (3, 1)]%R).
Proof.
  destruct (@stepping_conserves_balanced_columns SchemeRK2 3 Exchange.world
              Exchange_shaped) as [H1 H2]; [simpl; lra |].
  split; [apply H1 | apply H2]; apply Exchange_balanced.
Defined.

(** X15.  In exact arithmetic, for a nonzero spacing and providers that
    answer one row per cell: when the second stage of RK2 evaluates to
    the same right-hand side as the first (as with providers that depend
    neither on the time nor on the state), [RK2::oneStep] and
    [ExplicitEuler::oneStep] both succeed and leave the same state. *)
Theorem RK2_step_is_Euler_step_when_stages_agree :
  forall w : World R,
    shaped w ->
    getSpaceStep (_mesh (self w)) <> 0%R ->
    rk2k2 w = rk2k1 w ->
    exists we wr,
      ExplicitEuler.oneStep w = Ok we /\
      RK2.oneStep w = Ok wr /\
      _Sol (self wr) = _Sol (self we).
Proof.
  intros w Hs _ Hk.
  destruct (@oneStep_shaped R exact SchemeExplicitEuler w Hs) as (we & Ee & Se & _).
  destruct (@oneStep_shaped R exact SchemeRK2 w Hs) as (wr & Er & Sr & _).
  exists we, wr. split; [exact Ee |]. split; [exact Er |].
  rewrite Se, Sr. simpl. unfold rk2Update, eulerUpdate. rewrite Hk.
  unfold rk2k1. apply half_twice.
Qed.

Lemma RK2_step_is_Euler_step_when_stages_agree_witness :
  exists we wr,
    ExplicitEuler.oneStep Exchange.world = Ok we /\
    RK2.oneStep Exchange.world = Ok wr /\
    _Sol (self wr) = _Sol (self we).
Proof.
  apply (@RK2_step_is_Euler_step_when_stages_agree Exchange.world).
  - exact Exchange_shaped.
  - simpl. lra.
  - reflexivity.
Defined.

(* ================================================================= *)
(** ** More on the diagnostics *)

Section ErrorsDefined.
Context {D : Type} {SD : Scalar D}.

Lemma l1_fault_from : forall (St E : Matrix D) len m (error : D * D),
  (length E <= m)%nat -> (m < length St)%nat ->
  for_each
    (fun i (error : D * D) =>
       s <- index St i ;;
       e <- index E i ;;
       Ok (dadd (fst error) (dabs (dsub (fst s) (fst e))),
           dadd (snd error) (dabs (dsub (snd s) (snd e)))))
    (map Z.of_nat (seq m (S len))) error
  = Fault OutOfRange.
Proof.
  intros St E len m error HE HS. simpl.
  rewrite (index_nth St (dzero, dzero) HS). simpl.
  rewrite (index_beyond _ HE). reflexivity.
Qed.

Lemma computeL1Error_fault : forall w : World D,
  (length (exactSol w) < length (_Sol (self w)))%nat ->
  TimeScheme.computeL1Error w = Fault OutOfRange.
Proof.
  intros w H. unfold TimeScheme.computeL1Error, upto, rows.
  rewrite Nat2Z.id.
  set (m := length (exactSol w)).
  replace (length (_Sol (self w))) with (m + S (length (_Sol (self w)) - S m))%nat
    at 1 by (unfold m; lia).
  rewrite seq_app, map_app, for_each_app.
  match goal with
  | |- context [for_each ?g (map Z.of_nat (seq 0 m)) ?s] =>
      destruct (@for_each_ok _ _ g (map Z.of_nat (seq 0 m)) s) as (e & E)
  end.
  - intros i acc Hi. apply in_map_iff in Hi. destruct Hi as (k & <- & Hk).
    apply in_seq in Hk.
    rewrite (index_nth (_Sol (self w)) (dzero, dzero)) by (unfold m in *; lia).
    simpl.
    rewrite (index_nth (exactSol w) (dzero, dzero)) by (unfold m in *; lia).
    simpl. eexists. reflexivity.
  - rewrite E, bind_Ok. simpl (0 + m)%nat.
    rewrite l1_fault_from; [reflexivity | unfold m; lia | exact H].
Qed.

End ErrorsDefined.

(** X17.  When the diagnostics are defined, in every arithmetic.
    [computeL2Error] succeeds exactly when the reference solution has as
    many rows as the state, and stops on a shape mismatch otherwise;
    [computeL1Error] succeeds exactly when the reference has at least as
    many rows as the state (further rows of the reference are not read),
    and stops on a read out of range otherwise. *)
Theorem error_norms_defined :
  forall (D : Type) (SD : Scalar D) (w : World D),
    let S := _Sol (self w) in
    let E := exactSol w in
    ((exists e, TimeScheme.computeL2Error w = Ok e) <-> length S = length E) /\
    (length S <> length E ->
       TimeScheme.computeL2Error w = Fault ShapeMismatch) /\
    ((exists e, TimeScheme.computeL1Error w = Ok e) <->
       (length S <= length E)%nat) /\
    ((length E < length S)%nat ->
       TimeScheme.computeL1Error w = Fault OutOfRange).
Proof.
  intros D SD w S E. subst S E.
  assert (H2 : length (_Sol (self w)) <> length (exactSol w) ->
               TimeScheme.computeL2Error w = Fault ShapeMismatch).
  { intros Hne. unfold TimeScheme.computeL2Error, TimeScheme.norm.
    rewrite !length_map.
    destruct (Nat.eqb_spec (length (_Sol (self w))) (length (exactSol w)));
      [contradiction | reflexivity]. }
  split; [| split; [exact H2 | split]].
  - split.
    + intros (e & He).
      destruct (Nat.eq_dec (length (_Sol (self w))) (length (exactSol w)))
        as [L | Hne]; [exact L |].
      rewrite (H2 Hne) in He. discriminate He.
    + apply computeL2Error_ok.
  - split.
    + intros (e & He).
      destruct (Nat.le_gt_cases (length (_Sol (self w))) (length (exactSol w)))
        as [L | Hgt]; [exact L |].
      rewrite (computeL1Error_fault w Hgt) in He. discriminate He.
    + apply computeL1Error_ok.
  - apply computeL1Error_fault.
Qed.

Section ExactNorms.
Local Open Scope R_scope.

Lemma sumAbs_nonneg : forall l, 0 <= sumAbs l.
Proof.
  induction l as [| d l IH]; simpl; [lra |].
  assert (0 <= Rabs d) by apply Rabs_pos. lra.
Qed.

Lemma sumSq_nonneg : forall l, 0 <= sumSq l.
Proof.
  induction l as [| d l IH]; simpl; [lra |]. nra.
Qed.

Lemma sumSq_le_square : forall l, sumSq l <= sumAbs l * sumAbs l.
Proof.
  induction l as [| d l IH]; simpl; [lra |].
  assert (H1 := sumAbs_nonneg l). assert (H2 := Rabs_pos d).
  assert (H3 : d * d = Rabs d * Rabs d).
  { unfold Rabs. destruct (Rcase_abs d); ring. }
  nra.
Qed.

Lemma sqrt_sumSq_le : forall l, sqrt (sumSq l) <= sumAbs l.
Proof.
  intros l. rewrite <- (sqrt_square (sumAbs l)) by apply sumAbs_nonneg.
  apply sqrt_le_1_alt. apply sumSq_le_square.
Qed.

Lemma sumAbs_zero : forall l, sumAbs l = 0 <-> Forall (fun d => d = 0) l.
Proof.
  induction l as [| d l IH]; simpl.
  - split; [constructor | reflexivity].
  - assert (H1 := sumAbs_nonneg l). assert (H2 := Rabs_pos d). split.
    + intros H. constructor.
      * destruct (Req_dec d 0) as [E | Hne]; [exact E |].
        apply Rabs_pos_lt in Hne. lra.
      * apply IH. lra.
    + intros H. inversion H as [| ? ? Hd Hl]; subst.
      rewrite Rabs_R0. apply IH in Hl. lra.
Qed.

Lemma sumSq_zero : forall l, sumSq l = 0 <-> Forall (fun d => d = 0) l.
Proof.
  induction l as [| d l IH]; simpl.
  - split; [constructor | reflexivity].
  - assert (H1 := sumSq_nonneg l). split.
    + intros H. constructor; [nra |]. apply IH. nra.
    + intros H. inversion H as [| ? ? Hd Hl]; subst.
      apply IH in Hl. lra.
Qed.

Lemma fold_squares : forall l acc,
  fold_left (fun acc d => acc + d * d) l acc = acc + sumSq l.
Proof.
  induction l as [| d l IH]; intros acc; simpl; [lra |].
  rewrite IH. lra.
Qed.

Lemma fold_l1 : forall (l : list ((R * R) * (R * R))) error,
  fold_left l1Step l error =
    (fst error + sumAbs (map (fun p => fst (fst p) - fst (snd p)) l),
     snd error + sumAbs (map (fun p => snd (fst p) - snd (snd p)) l)).
Proof.
  induction l as [| p l IH]; intros error; simpl.
  - destruct error. simpl. f_equal; lra.
  - rewrite IH. unfold l1Step. simpl. f_equal; lra.
Qed.

Lemma column_differences : forall (col : R * R -> R) (S E : Matrix R),
  map (fun p => fst p - snd p) (combine (map col S) (map col E)) =
  differences col S E.
Proof.
  unfold differences. intros col.
  induction S as [| s S IH]; intros [| e E]; simpl; try reflexivity.
  rewrite IH. reflexivity.
Qed.

Lemma differences_zero : forall (col : R * R -> R) (S E : Matrix R),
  length S = length E ->
  (Forall (fun d => d = 0) (differences col S E) <-> map col S = map col E).
Proof.
  unfold differences. intros col.
  induction S as [| s S IH]; intros [| e E] L; simpl in *; try discriminate.
  - split; [reflexivity | constructor].
  - split.
    + intros H. inversion H as [| ? ? Hd Hl]; subst.
      f_equal; [lra |]. apply IH; [congruence | exact Hl].
    + intros H. injection H as H0 H. constructor; [lra |].
      apply IH; [congruence | exact H].
Qed.

Lemma columns_equal : forall S E : Matrix R,
  map fst S = map fst E -> map snd S = map snd E -> S = E.
Proof.
  induction S as [| s S IH]; intros [| e E] H1 H2; simpl in *;
    try discriminate; [reflexivity |].
  injection H1 as H1 H1'. injection H2 as H2 H2'.
  f_equal; [apply injective_projections; assumption | apply IH; assumption].
Qed.

(** The two diagnostics in closed form. *)
Lemma computeL1Error_sum : forall w : World R,
  length (_Sol (self w)) = length (exactSol w) ->
  TimeScheme.computeL1Error w =
    Ok (sumAbs (differences fst (_Sol (self w)) (exactSol w)) * getDx (_DF (self w)),
        sumAbs (differences snd (_Sol (self w)) (exactSol w)) * getDx (_DF (self w))).
Proof.
  intros w L. rewrite computeL1Error_fold by lia. simpl.
  rewrite fold_l1. simpl. unfold differences. f_equal. f_equal; lra.
Qed.

Lemma computeL2Error_sum : forall w : World R,
  length (_Sol (self w)) = length (exactSol w) ->
  TimeScheme.computeL2Error w =
    Ok (sqrt (sumSq (differences fst (_Sol (self w)) (exactSol w)))
          * getDx (_DF (self w)),
        sqrt (sumSq (differences snd (_Sol (self w)) (exactSol w)))
          * getDx (_DF (self w))).
Proof.
  intros w L. unfold TimeScheme.computeL2Error, TimeScheme.norm.
  rewrite !length_map, L, Nat.eqb_refl. simpl bind.
  rewrite !column_differences, !fold_squares. simpl dzero.
  rewrite !Rplus_0_l. reflexivity.
Qed.

End ExactNorms.

(** X18.  The diagnostics as distances, in exact arithmetic, for a state
    and a reference of the same size.  Both succeed; for a spacing dx >= 0
    every component of both errors is non-negative and the L2 error never
    exceeds the L1 error; for dx <> 0 each of the two errors is (0, 0)
    exactly when the state equals the reference. *)
Theorem error_norms_measure_the_distance :
  forall w : World R,
    let S := _Sol (self w) in
    let E := exactSol w in
    let dx := getDx (_DF (self w)) in
    length S = length E ->
    exists l1 l2,
      TimeScheme.computeL1Error w = Ok l1 /\
      TimeScheme.computeL2Error w = Ok l2 /\
      ((0 <= dx)%R ->
         (0 <= fst l2 <= fst l1)%R /\ (0 <= snd l2 <= snd l1)%R) /\
      ((dx <> 0)%R ->
         (l1 = (0%R, 0%R) <-> S = E) /\ (l2 = (0%R, 0%R) <-> S = E)).
Proof.
  intros w S E dx L. subst S E dx.
  rewrite (computeL1Error_sum w L), (computeL2Error_sum w L).
  do 2 eexists. split; [reflexivity |]. split; [reflexivity |].
  set (dh := differences fst (_Sol (self w)) (exactSol w)).
  set (dq := differences snd (_Sol (self w)) (exactSol w)).
  set (dx := getDx (_DF (self w))).
  assert (Hh := sqrt_sumSq_le dh). assert (Hq := sqrt_sumSq_le dq).
  assert (Ph := sqrt_pos (sumSq dh)). assert (Pq := sqrt_pos (sumSq dq)).
  assert (Eq : forall a b : R, (a = 0 /\ b = 0)%R <->
                 (Forall (fun d => d = 0%R) dh /\ Forall (fun d => d = 0%R) dq) ->
               (dx <> 0)%R ->
               ((a * dx, b * dx)%R = (0%R, 0%R) <-> _Sol (self w) = exactSol w)).
  { intros a b Hab Hdx. split.
    - intros H. injection H as Ha Hb.
      assert (a = 0 /\ b = 0)%R by (split; nra).
      apply Hab in H. destruct H as [H1 H2].
      apply (differences_zero fst _ _ L) in H1.
      apply (differences_zero snd _ _ L) in H2.
      apply columns_equal; assumption.
    - intros H.
      assert (a = 0 /\ b = 0)%R as [-> ->].
      { apply Hab. split.
        - apply (differences_zero fst _ _ L). rewrite H. reflexivity.
        - apply (differences_zero snd _ _ L). rewrite H. reflexivity. }
      f_equal; ring. }
  split.
  - intros Hdx. simpl. split; split; nra.
  - intros Hdx. split; apply Eq; try assumption.
    + rewrite <- !sumAbs_zero. reflexivity.
    + rewrite <- !sumSq_zero. split.
      * intros [H1 H2]. split.
        -- apply sqrt_eq_0 in H1; [exact H1 | apply sumSq_nonneg].
        -- apply sqrt_eq_0 in H2; [exact H2 | apply sumSq_nonneg].
      * intros [H1 H2]. rewrite H1, H2, sqrt_0. split; reflexivity.
Qed.

Lemma error_norms_measure_the_distance_witness :
  exists l1 l2,
    TimeScheme.computeL1Error Gauge.world = Ok l1 /\
    TimeScheme.computeL2Error Gauge.world = Ok l2 /\
    ((0 <= 1 / 10)%R ->
       (0 <= fst l2 <= fst l1)%R /\ (0 <= snd l2 <= snd l1)%R) /\
    ((1 / 10 <> 0)%R ->
       (l1 = (0%R, 0%R) <-> _Sol Gauge.object = Gauge.reference) /\
       (l2 = (0%R, 0%R) <-> _Sol Gauge.object = Gauge.reference)).
Proof.
  apply (@error_norms_measure_the_distance Gauge.world). reflexivity.
Defined.

(* ================================================================= *)
(** ** More on the probes *)

Lemma set_nth_id : forall (A : Type) (l : list A) i a,
  nth_error l i = Some a -> set_nth l i a = l.
Proof.
  intros A l. induction l as [| x l IH]; intros [| i] a H; simpl in *;
    try discriminate.
  - injection H as ->. reflexivity.
  - rewrite (IH i a H). reflexivity.
Qed.

Lemma assign_inv : forall (A : Type) (l l' : list A) (i : Z) (a : A),
  assign l i a = Ok l' ->
  0 <= i /\ (Z.to_nat i < length l)%nat /\ l' = set_nth l (Z.to_nat i) a.
Proof.
  intros A l l' i a H. unfold assign in H.
  destruct (Z.leb_spec 0 i); simpl in H; [| discriminate H].
  destruct (Z.ltb_spec i (Z.of_nat (length l))); simpl in H; [| discriminate H].
  injection H as <-. repeat split; lia.
Qed.

Section ResolveAgain.
Context {D : Type} {SD : Scalar D}.

(** What the loop leaves in the index table, when it ends. *)
Lemma resolve_loop : forall (this : TimeScheme D) (l : list Z) (ix : list Z) ts',
  for_each
    (fun i ts =>
       pos <- index (_probesPos ts) i ;;
       idx <- TimeScheme.nearestCell (getCellCenters (_mesh this))
                (getNumberOfCells (_mesh this)) pos ;;
       ix <- assign (_probesIndices ts) i idx ;;
       Ok (with_probesIndices ts ix))
    l (with_probesIndices this ix) = Ok ts' ->
  exists ix',
    ts' = with_probesIndices this ix' /\
    length ix' = length ix /\
    (forall i, In i l ->
       exists v, resolved this i = Ok v /\ 0 <= i /\
                 nth_error ix' (Z.to_nat i) = Some v) /\
    (forall k, ~ In k (map Z.to_nat l) -> nth_error ix' k = nth_error ix k).
Proof.
  intros this l. induction l as [| i l IH]; intros ix ts' H; simpl in H.
  - injection H as <-. exists ix. split; [reflexivity |]. split; [reflexivity |].
    split; [intros i [] | reflexivity].
  - destruct (index (_probesPos this) i) as [pos |] eqn:Ep; simpl in H;
      [| discriminate H].
    destruct (TimeScheme.nearestCell _ _ pos) as [v |] eqn:Ev; simpl in H;
      [| discriminate H].
    destruct (assign ix i v) as [ix1 |] eqn:Ea; simpl in H; [| discriminate H].
    apply assign_inv in Ea. destruct Ea as (Hi & Hlen & ->).
    replace (with_probesIndices (with_probesIndices this ix) _)
      with (with_probesIndices this (set_nth ix (Z.to_nat i) v)) in H
      by reflexivity.
    destruct (IH _ _ H) as (ix' & E' & L' & Hin & Hout).
    exists ix'. split; [exact E' |]. split; [rewrite L'; apply set_nth_length |].
    assert (Hv : resolved this i = Ok v).
    { unfold resolved. rewrite Ep. simpl. exact Ev. }
    split.
    + intros j [<- | Hj]; [| apply Hin; exact Hj].
      destruct (in_dec Z.eq_dec i l) as [Hil | Hnil]; [apply Hin; exact Hil |].
      exists v. split; [exact Hv |]. split; [exact Hi |].
      rewrite Hout.
      * apply set_nth_same. exact Hlen.
      * intros Hc. apply in_map_iff in Hc. destruct Hc as (j & Hj & Hjl).
        destruct (Hin j Hjl) as (_ & _ & Hj0 & _).
        assert (j = i) by lia. subst j. contradiction.
    + intros k Hk. simpl in Hk. rewrite Hout by tauto.
      apply set_nth_other. tauto.
Qed.

(** A table that already holds the resolved indices is left as it is. *)
Lemma resolve_again : forall (this : TimeScheme D) (l : list Z) (ix : list Z),
  (forall i, In i l ->
     exists v, resolved this i = Ok v /\ 0 <= i /\
               nth_error ix (Z.to_nat i) = Some v) ->
  for_each
    (fun i ts =>
       pos <- index (_probesPos ts) i ;;
       idx <- TimeScheme.nearestCell (getCellCenters (_mesh this))
                (getNumberOfCells (_mesh this)) pos ;;
       ix <- assign (_probesIndices ts) i idx ;;
       Ok (with_probesIndices ts ix))
    l (with_probesIndices this ix) = Ok (with_probesIndices this ix).
Proof.
  intros this l. induction l as [| i l IH]; intros ix H; simpl.
  - reflexivity.
  - destruct (H i (or_introl eq_refl)) as (v & Hv & Hi & Hn).
    unfold resolved in Hv.
    destruct (index (_probesPos this) i) as [pos |] eqn:Ep; simpl in Hv;
      [| discriminate Hv].
    simpl. rewrite Hv. simpl.
    assert (Hlen : (Z.to_nat i < length ix)%nat).
    { apply nth_error_Some. rewrite Hn. discriminate. }
    unfold assign.
    destruct (Z.leb_spec 0 i); [| lia].
    destruct (Z.ltb_spec i (Z.of_nat (length ix))); [| lia].
    simpl. rewrite (set_nth_id _ _ Hn).
    apply IH. intros j Hj. apply H. right. exact Hj.
Qed.

End ResolveAgain.

(** X19.  Resolving the probes again, in every arithmetic.  When
    [buildProbesCellIndices] succeeds, running it on its result succeeds
    and changes nothing; the first run changed nothing of the object but
    the index table, kept the size of the table, and left its entries
    beyond the probe count as they were. *)
Theorem buildProbesCellIndices_idempotent :
  forall (D : Type) (SD : Scalar D) (this this' : TimeScheme D),
    TimeScheme.buildProbesCellIndices this = Ok this' ->
    TimeScheme.buildProbesCellIndices this' = Ok this' /\
    sameStepping this' this /\
    length (_probesIndices this') = length (_probesIndices this) /\
    (forall k, (Z.to_nat (_nProbes this) <= k)%nat ->
       nth_error (_probesIndices this') k = nth_error (_probesIndices this) k).
Proof.
  intros D SD this this' H.
  unfold TimeScheme.buildProbesCellIndices in H.
  assert (Hthis : with_probesIndices this (_probesIndices this) = this)
    by (destruct this; reflexivity).
  pose proof (@resolve_loop D SD this (upto (_nProbes this))
                (_probesIndices this) this') as R.
  rewrite Hthis in R. specialize (R H). clear H.
  destruct R as (ix' & -> & L & Hin & Hout).
  split; [| split; [reflexivity | split; [exact L |]]].
  - unfold TimeScheme.buildProbesCellIndices.
    change (_nProbes (with_probesIndices this ix')) with (_nProbes this).
    change (getCellCenters (_mesh (with_probesIndices this ix')))
      with (getCellCenters (_mesh this)).
    change (getNumberOfCells (_mesh (with_probesIndices this ix')))
      with (getNumberOfCells (_mesh this)).
    apply (@resolve_again D SD this (upto (_nProbes this)) ix').
    intros i Hi. destruct (Hin i Hi) as (v & Hv & H0 & Hn).
    exists v. split; [exact Hv |]. split; assumption.
  - intros k Hk. simpl. apply Hout. intros Hc.
    apply in_map_iff in Hc. destruct Hc as (i & <- & Hi).
    apply in_upto in Hi. destruct Hi as (j & -> & Hj). lia.
Qed.

Lemma buildProbesCellIndices_idempotent_witness :
  TimeScheme.buildProbesCellIndices (with_probesIndices FiveCells.object [2; 2])
    = Ok (with_probesIndices FiveCells.object [2; 2]) /\
  sameStepping (with_probesIndices FiveCells.object [2; 2]) FiveCells.object.
Proof.
  destruct (@buildProbesCellIndices_idempotent float binary64 FiveCells.object
              (with_probesIndices FiveCells.object [2; 2])) as (H1 & H2 & _).
  - vm_compute. reflexivity.
  - split; assumption.
Defined.

Section Nearest.
Context {D : Type} {SD : Scalar D}.

Hypothesis dltb_irreflexive : forall a : D, dltb a a = false.
Hypothesis dltb_chain : forall a b c : D,
  dltb a b = true -> dltb c b = false -> dltb c a = false.

(** The values the comparison orders (for binary64, all but NaN). *)
Variable ordered : D -> Prop.
Hypothesis dltb_below : forall a b c : D,
  ordered c -> dltb a b = true -> dltb c b = false -> dltb a c = true.

Variable centers : list D.
Variable pos : D.

Lemma closer_minimal : forall m st,
  (m < length centers)%nat -> minimalSoFar ordered centers pos m st ->
  exists st', TimeScheme.closer centers pos (Z.of_nat m) st = Ok st' /\
              minimalSoFar ordered centers pos (S m) st'.
Proof.
  intros m st Hm (i & -> & Hi & Him & Hmin & Hlow). unfold TimeScheme.closer.
  rewrite (index_nth centers dzero Hm). simpl.
  fold (computedDistance centers pos m).
  destruct (dltb (computedDistance centers pos m) (computedDistance centers pos i))
    eqn:E.
  - eexists. split; [reflexivity |]. exists m.
    split; [reflexivity |]. split; [exact Hm |]. split; [lia |]. split.
    + intros j Hj. destruct (Nat.eq_dec j m) as [-> | Hne].
      * apply dltb_irreflexive.
      * apply (dltb_chain _ _ _ E). apply Hmin. lia.
    + intros Hord j Hj.
      apply dltb_below with (b := computedDistance centers pos i);
        [apply Hord; lia | exact E | apply Hmin; lia].
  - eexists. split; [reflexivity |]. exists i.
    split; [reflexivity |]. split; [exact Hi |]. split; [lia |]. split.
    + intros j Hj. destruct (Nat.eq_dec j m) as [-> | Hne].
      * exact E.
      * apply Hmin. lia.
    + exact Hlow.
Qed.

Lemma scan_minimal : forall len m st,
  (m + len <= length centers)%nat -> minimalSoFar ordered centers pos m st ->
  exists st', for_each (TimeScheme.closer centers pos)
                (map Z.of_nat (seq m len)) st = Ok st' /\
              minimalSoFar ordered centers pos (m + len) st'.
Proof.
  induction len as [| len IH]; intros m st Hlen Hst.
  - exists st. rewrite Nat.add_0_r. split; [reflexivity | exact Hst].
  - simpl.
    destruct (@closer_minimal m st) as (st1 & E1 & H1); [lia | exact Hst |].
    rewrite E1. simpl.
    destruct (IH (S m) st1) as (st' & E' & H'); [lia | exact H1 |].
    exists st'. split; [exact E' |].
    replace (m + S len)%nat with (S m + len)%nat by lia. exact H'.
Qed.

Lemma nearestCell_minimal : forall nbCells : Z,
  centers <> [] -> nbCells <= Z.of_nat (length centers) ->
  exists i : nat,
    TimeScheme.nearestCell centers nbCells pos = Ok (Z.of_nat i) /\
    (i < length centers)%nat /\
    (Z.of_nat i < nbCells \/ i = 0%nat) /\
    (forall j, Z.of_nat j < nbCells ->
       dltb (computedDistance centers pos j) (computedDistance centers pos i) = false) /\
    ((forall j, (j < length centers)%nat ->
        ordered (computedDistance centers pos j)) ->
     forall j, (j < i)%nat ->
       dltb (computedDistance centers pos i) (computedDistance centers pos j) = true).
Proof.
  intros nbCells Hne Hnb.
  assert (H0 : (0 < length centers)%nat)
    by (destruct centers; [contradiction | simpl; lia]).
  unfold TimeScheme.nearestCell.
  change 0 with (Z.of_nat 0) at 1. rewrite (index_nth centers dzero H0). simpl.
  destruct (@scan_minimal (Z.to_nat nbCells) 0%nat
              (0, dabs (dsub pos (nth 0 centers dzero))))
    as (st' & E & i & -> & Hi & Him & Hmin & Hlow).
  - lia.
  - exists 0%nat. split; [reflexivity |]. split; [exact H0 |].
    split; [lia |]. split.
    + intros j Hj. assert (j = 0%nat) by lia. subst j.
      apply dltb_irreflexive.
    + intros _ j Hj. lia.
  - unfold upto. rewrite E. simpl. exists i. split; [reflexivity |].
    split; [exact Hi |]. split; [lia |]. split; [| exact Hlow].
    intros j Hj. apply Hmin. lia.
Qed.

End Nearest.

Ltac split_compare :=
  repeat match goal with
         | H : context [(?x ?= ?y)%Z] |- _ => destruct (Z.compare_spec x y)
         | |- context [(?x ?= ?y)%Z] => destruct (Z.compare_spec x y)
         | H : context [(?x ?= ?y)%positive] |- _ => destruct (Pos.compare_spec x y)
         | |- context [(?x ?= ?y)%positive] => destruct (Pos.compare_spec x y)
         end.

(** The comparison of binary64 is irreflexive, and what is not below [b]
    is not below anything below [b], NaN included. *)
Lemma SFltb_irreflexive : forall a, SFltb a a = false.
Proof.
  intros a. unfold SFltb, SFcompare.
  change PosDef.Pos.compare_cont with Pos.compare_cont.
  destruct a as [s | s | | s m e]; try destruct s; try reflexivity;
    fold (Pos.compare m m); rewrite Z.compare_refl, Pos.compare_refl;
    reflexivity.
Qed.

Lemma SFltb_chain : forall a b c,
  SFltb a b = true -> SFltb c b = false -> SFltb c a = false.
Proof.
  intros a b c. unfold SFltb, SFcompare.
  change PosDef.Pos.compare_cont with Pos.compare_cont.
  destruct a as [sa | sa | | sa ma ea]; destruct b as [sb | sb | | sb mb eb];
    destruct c as [sc | sc | | sc mc ec];
    try destruct sa; try destruct sb; try destruct sc;
    try (intros; reflexivity); try (intros; discriminate);
    fold (Pos.compare ma mb); fold (Pos.compare mc mb); fold (Pos.compare mc ma);
    intros H1 H2; split_compare; simpl in *;
    try reflexivity; try discriminate; try (exfalso; lia).
Qed.

Lemma SFltb_below : forall a b c,
  c <> S754_nan -> SFltb a b = true -> SFltb c b = false -> SFltb a c = true.
Proof.
  intros a b c. unfold SFltb, SFcompare.
  change PosDef.Pos.compare_cont with Pos.compare_cont.
  destruct a as [sa | sa | | sa ma ea]; destruct b as [sb | sb | | sb mb eb];
    destruct c as [sc | sc | | sc mc ec];
    try destruct sa; try destruct sb; try destruct sc;
    try (intros; reflexivity); try (intros; discriminate);
    try (intros H; contradiction H; reflexivity);
    fold (Pos.compare ma mb); fold (Pos.compare mc mb); fold (Pos.compare ma mc);
    intros _ H1 H2; split_compare; simpl in *;
    try reflexivity; try discriminate; try (exfalso; lia).
Qed.

Lemma ltb_irreflexive : forall a : float, PrimFloat.ltb a a = false.
Proof. intros a. rewrite ltb_spec. apply SFltb_irreflexive. Qed.

Lemma ltb_chain : forall a b c : float,
  PrimFloat.ltb a b = true -> PrimFloat.ltb c b = false ->
  PrimFloat.ltb c a = false.
Proof.
  intros a b c. rewrite !ltb_spec. apply SFltb_chain.
Qed.

Lemma ltb_below : forall a b c : float,
  notNaN c -> PrimFloat.ltb a b = true -> PrimFloat.ltb c b = false ->
  PrimFloat.ltb a c = true.
Proof.
  intros a b c. rewrite !ltb_spec. apply SFltb_below.
Qed.

(** X20.  The nearest cell in binary64, for every input, NaN and
    infinities included.  On a mesh with at least one centre whose cell
    count does not exceed the number of centres, the scan of
    [buildProbesCellIndices] returns a cell i, which is cell 0 or one of
    the first nbCells cells, such that no cell j among them has a computed
    distance |pos - x_j| strictly below that of i; and when none of the
    computed distances is NaN, every cell before i is strictly farther
    than i, so that i is the lowest index at the smallest computed
    distance. *)
Theorem nearest_cell_binary64 :
  forall (centers : list float) (nbCells : Z) (pos : float),
    centers <> [] ->
    nbCells <= Z.of_nat (length centers) ->
    exists i : nat,
      TimeScheme.nearestCell centers nbCells pos = Ok (Z.of_nat i) /\
      (i < length centers)%nat /\
      (Z.of_nat i < nbCells \/ i = 0%nat) /\
      (forall j, Z.of_nat j < nbCells ->
         PrimFloat.ltb (computedDistance centers pos j)
                       (computedDistance centers pos i) = false) /\
      ((forall j, (j < length centers)%nat ->
          notNaN (computedDistance centers pos j)) ->
       forall j, (j < i)%nat ->
         PrimFloat.ltb (computedDistance centers pos i)
                       (computedDistance centers pos j) = true).
Proof.
  intros centers nbCells pos Hne Hnb.
  apply (@nearestCell_minimal float binary64 ltb_irreflexive ltb_chain
           notNaN ltb_below centers pos nbCells Hne Hnb).
Qed.

Lemma nearest_cell_binary64_witness :
  exists i : nat,
    TimeScheme.nearestCell FiveCells.centers64 5 2.5%float = Ok (Z.of_nat i) /\
    (i < 5)%nat /\
    (Z.of_nat i < 5 \/ i = 0%nat) /\
    (forall j, Z.of_nat j < 5 ->
       PrimFloat.ltb (computedDistance FiveCells.centers64 2.5%float j)
                     (computedDistance FiveCells.centers64 2.5%float i) = false) /\
    ((forall j, (j < 5)%nat ->
        notNaN (computedDistance FiveCells.centers64 2.5%float j)) ->
     forall j, (j < i)%nat ->
       PrimFloat.ltb (computedDistance FiveCells.centers64 2.5%float i)
                     (computedDistance FiveCells.centers64 2.5%float j) = true).
Proof.
  apply (@nearest_cell_binary64 FiveCells.centers64 5 2.5%float).
  - discriminate.
  - vm_compute. discriminate.
Defined.

(** A NaN position. *)
Lemma nan_distance : forall x : float,
  PrimFloat.abs (PrimFloat.sub nan x) = nan.
Proof.
  intros x. apply Prim2SF_inj. rewrite abs_spec, sub_spec.
  change (Prim2SF nan) with S754_nan. reflexivity.
Qed.

Lemma nan_not_below : forall y : float, PrimFloat.ltb nan y = false.
Proof.
  intros y. rewrite ltb_spec. change (Prim2SF nan) with S754_nan. reflexivity.
Qed.

Lemma not_below_nan : forall y : float, PrimFloat.ltb y nan = false.
Proof.
  intros y. rewrite ltb_spec. change (Prim2SF nan) with S754_nan.
  unfold SFltb, SFcompare. destruct (Prim2SF y); reflexivity.
Qed.

Lemma nan_scan : forall (centers : list float) len m,
  (m + len <= length centers)%nat ->
  for_each (TimeScheme.closer centers nan) (map Z.of_nat (seq m len)) (0, nan)
    = Ok (0, nan).
Proof.
  intros centers len. induction len as [| len IH]; intros m Hlen; simpl.
  - reflexivity.
  - unfold TimeScheme.closer at 1.
    rewrite (index_nth centers dzero) by lia. simpl.
    rewrite nan_distance, nan_not_below. simpl. apply IH. lia.
Qed.

(** X21.  A probe whose position is NaN, in binary64: on a mesh with at
    least one centre whose cell count does not exceed the number of
    centres, the scan resolves it to cell 0, whatever the centres. *)
Theorem nan_position_resolves_to_first_cell :
  forall (centers : list float) (nbCells : Z),
    centers <> [] ->
    nbCells <= Z.of_nat (length centers) ->
    TimeScheme.nearestCell centers nbCells nan = Ok 0.
Proof.
  intros centers nbCells Hne Hnb.
  assert (H0 : (0 < length centers)%nat)
    by (destruct centers; [contradiction | simpl; lia]).
  unfold TimeScheme.nearestCell.
  change 0 with (Z.of_nat 0) at 1. rewrite (index_nth centers dzero H0). simpl.
  rewrite nan_distance. unfold upto. rewrite nan_scan by lia. reflexivity.
Qed.

Lemma nan_position_resolves_to_first_cell_witness :
  TimeScheme.nearestCell FiveCells.centers64 5 nan = Ok 0.
Proof.
  apply (@nan_position_resolves_to_first_cell FiveCells.centers64 5).
  - discriminate.
  - vm_compute. discriminate.
Defined.

(* ================================================================= *)
(** ** Dry cells, file names, degenerate frequencies *)

(** *** A dry cell in binary64 *)

Lemma zero_over_zero : forall q h : float,
  isZero64 q -> isZero64 h -> PrimFloat.div q h = nan.
Proof.
  intros q h [bq Hq] [bh Hh]. apply Prim2SF_inj. rewrite div_spec, Hq, Hh.
  reflexivity.
Qed.

Lemma nan_over : forall y : float, PrimFloat.div (PrimFloat.abs nan) y = nan.
Proof.
  intros y. apply Prim2SF_inj. rewrite div_spec, abs_spec.
  change (Prim2SF nan) with S754_nan. reflexivity.
Qed.

Lemma dry_columns : forall g x z h q : float,
  isZero64 h -> isZero64 q ->
  TimeScheme.columns g x z (h, q) = [x; PrimFloat.add h z; h; nan; q; nan].
Proof.
  intros g x z h q Hh Hq. unfold TimeScheme.columns. simpl.
  rewrite (zero_over_zero Hq Hh), nan_over. reflexivity.
Qed.

(** X22.  A dry cell at rest, in binary64.  When the height and the
    discharge of cell i are zero (of either sign), [saveCurrentSolution]
    succeeds (every cell having a centre and a bottom height) and the row
    of cell i holds NaN in its velocity column q / h and in its Froude
    column, whatever the gravity; its other columns are x, h + z, h and q. *)
Theorem dry_cell_is_written_with_NaN :
  forall (fileName : string) (w : World float) (i : nat),
    let this := self w in
    let cell := nth i (_Sol this) (0%float, 0%float) in
    snapshotReady this ->
    (i < length (_Sol this))%nat ->
    isZero64 (fst cell) -> isZero64 (snd cell) ->
    exists rows,
      TimeScheme.saveCurrentSolution fileName w =
        Ok (emit w (WriteFile fileName (Some TimeScheme.header) rows)) /\
      nth_error rows i =
        Some [nth i (getCellCenters (_mesh this)) 0%float;
              PrimFloat.add (fst cell) (nth i (getTopography (_physics this)) 0%float);
              fst cell; nan; snd cell; nan].
Proof.
  intros fileName w i this cell Hr Hi Hh Hq. subst this cell.
  exists (snapshotRows (self w)).
  split; [apply saveCurrentSolution_rows; exact Hr |].
  unfold snapshotRows.
  rewrite nth_error_map, nth_error_nth' with (d := 0%nat) by (rewrite length_seq; exact Hi).
  rewrite seq_nth by exact Hi. simpl.
  f_equal. change (@dzero float binary64) with 0%float.
  destruct (nth i (_Sol (self w)) (0%float, 0%float)) as [h q].
  simpl in Hh, Hq. apply dry_columns; assumption.
Qed.

Lemma dry_cell_is_written_with_NaN_witness :
  exists rows,
    TimeScheme.saveCurrentSolution "results/solution_constant_0.txt" DryBed.world =
      Ok (emit DryBed.world
            (WriteFile "results/solution_constant_0.txt"
               (Some TimeScheme.header) rows)) /\
    nth_error rows 1 =
      Some [1.5%float; PrimFloat.add 0%float 0.25%float; 0%float; nan;
            0%float; nan].
Proof.
  apply (@dry_cell_is_written_with_NaN "results/solution_constant_0.txt"
           DryBed.world 1%nat).
  - split; simpl; lia.
  - simpl. lia.
  - exists false. reflexivity.
  - exists false. reflexivity.
Defined.

(** *** File names *)

Lemma append_cancel_l : forall p a b : string,
  (p ++ a = p ++ b)%string -> a = b.
Proof.
  induction p as [| c p IH]; intros a b H; simpl in H; [exact H |].
  injection H as H. apply IH. exact H.
Qed.

Lemma length_append : forall a b : string,
  String.length (a ++ b)%string = (String.length a + String.length b)%nat.
Proof.
  induction a as [| c a IH]; intros b; simpl; [reflexivity |].
  rewrite IH. reflexivity.
Qed.

Lemma append_cancel_r : forall a b s : string,
  (a ++ s = b ++ s)%string -> a = b.
Proof.
  induction a as [| c a IH]; intros [| d b] s H; simpl in H.
  - reflexivity.
  - exfalso. apply (f_equal String.length) in H. simpl in H.
    rewrite length_append in H. lia.
  - exfalso. apply (f_equal String.length) in H. simpl in H.
    rewrite length_append in H. lia.
  - injection H as -> H. f_equal. apply (IH b s H).
Qed.

Lemma to_int_proper : forall z : Z,
  Z.to_int z <> Decimal.Pos Decimal.Nil /\ Z.to_int z <> Decimal.Neg Decimal.Nil.
Proof.
  intros z. split; intros H;
    assert (E := DecimalZ.of_to z); rewrite H in E; simpl in E; subst z;
    discriminate H.
Qed.

Lemma to_string_injective : forall a b : Z, to_string a = to_string b -> a = b.
Proof.
  intros a b H. unfold to_string in H.
  apply (f_equal NilZero.int_of_string) in H.
  destruct (to_int_proper a) as [Ha1 Ha2]. destruct (to_int_proper b) as [Hb1 Hb2].
  rewrite !NilZero.isi in H by assumption.
  injection H as H. apply (f_equal Z.of_int) in H.
  rewrite !DecimalZ.of_to in H. exact H.
Qed.

(** X23.  File names.  For one results directory and one flux name, two
    snapshots have the same file name exactly when they have the same
    number; for one results directory, two probes write to the same file
    exactly when they have the same reference. *)
Theorem output_files_are_told_apart_by_their_number :
  forall (resultsDir fluxName : string) (a b : Z),
    (TimeScheme.solutionFile resultsDir fluxName a
       = TimeScheme.solutionFile resultsDir fluxName b <-> a = b) /\
    (TimeScheme.probeFile resultsDir a = TimeScheme.probeFile resultsDir b
       <-> a = b).
Proof.
  intros resultsDir fluxName a b. split; split; try (intros ->; reflexivity).
  - unfold TimeScheme.solutionFile. intros H.
    do 4 apply append_cancel_l in H.
    apply append_cancel_r in H. apply to_string_injective. exact H.
  - unfold TimeScheme.probeFile. intros H.
    do 2 apply append_cancel_l in H.
    apply append_cancel_r in H. apply to_string_injective. exact H.
Qed.

Section Degenerate.
Context {D : Type} {SD : Scalar D}.

(** The loop leaves the configuration of the object in place. *)
Lemma timeLoop_DF : forall fuel v resultsDir fluxName (w w' : World D) n n',
  TimeScheme.timeLoop (oneStep v) resultsDir fluxName fuel w n
    = Some (Ok (w', n')) ->
  _DF (self w') = _DF (self w).
Proof.
  induction fuel as [| fuel IH]; intros v resultsDir fluxName w w' n n' H;
    simpl in H; destruct (dltb _ _); try discriminate H;
    try (injection H as <- <-; reflexivity).
  destruct (TimeScheme.loopBody (oneStep v) resultsDir fluxName w n)
    as [[w1 n1] | f] eqn:E1; [| discriminate H].
  apply loopBody_self in E1. apply IH in H. rewrite H, E1. reflexivity.
Qed.

Lemma epilogue_degenerate : forall resultsDir fluxName (w : World D) n,
  isSaveFinalTimeOnly (_DF (self w)) = true ->
  getSaveFrequency (_DF (self w)) = 0 ->
  TimeScheme.epilogue resultsDir fluxName w n = Fault DivisionByZero.
Proof.
  intros resultsDir fluxName w n Hf Hsf. unfold TimeScheme.epilogue.
  rewrite Hf, Hsf. reflexivity.
Qed.

(** The first sampling test can fault on its modulo only. *)
Lemma saveStep_fault : forall resultsDir fluxName n (w : World D) f,
  snapshotReady (self w) -> 0 <= n ->
  TimeScheme.saveStep resultsDir fluxName n w = Fault f ->
  f = DivisionByZero.
Proof.
  intros resultsDir fluxName n w f Hsnap Hn H. unfold TimeScheme.saveStep in H.
  destruct (negb (isSaveFinalTimeOnly (_DF (self w)))); [| discriminate H].
  destruct (Z.eq_dec (getSaveFrequency (_DF (self w))) 0) as [E | Hsf].
  - rewrite E in H. simpl in H. injection H as <-. reflexivity.
  - rewrite (int_rem_ok Hn Hsf) in H. simpl in H.
    destruct (Z.rem n (getSaveFrequency (_DF (self w))) =? 0);
      [| discriminate H].
    rewrite (int_div_ok Hn Hsf) in H. simpl in H.
    destruct (saveCurrentSolution_ok
                (TimeScheme.solutionFile resultsDir fluxName
                   (Z.quot n (getSaveFrequency (_DF (self w))))) w Hsnap)
      as (lines & E).
    rewrite E in H. discriminate H.
Qed.

(** The first pass of the loop on an object whose providers and tables
    cover the mesh, when one of the sampling tests has a zero divisor. *)
Lemma loopBody_divides_by_zero : forall v resultsDir fluxName (w : World D),
  shaped w -> snapshotReady (self w) ->
  (getSaveFrequency (_DF (self w)) = 0 /\
   isSaveFinalTimeOnly (_DF (self w)) = false) \/
  (Z.quot (getSaveFrequency (_DF (self w))) 10 = 0 /\
   _nProbes (self w) <> 0) ->
  TimeScheme.loopBody (oneStep v) resultsDir fluxName w 0
    = Fault DivisionByZero.
Proof.
  intros v resultsDir fluxName w Hs Hsnap H. unfold TimeScheme.loopBody.
  destruct (oneStep_shaped v Hs) as (w1 & E1 & S1 & Eself & _).
  rewrite E1. simpl bind. change (incr 0) with (Ok (A := Z) 1). simpl bind.
  assert (Et : self (TimeScheme.tick w1) =
               with_currentTime (with_Sol (self w) (update v w))
                 (dadd (_currentTime (self w)) (_timeStep (self w)))).
  { unfold TimeScheme.tick. simpl. rewrite Eself, S1. reflexivity. }
  assert (Hsnap1 : snapshotReady (self (TimeScheme.tick w1))).
  { unfold snapshotReady in *. rewrite Et. simpl.
    rewrite (update_length v Hs). exact Hsnap. }
  destruct (TimeScheme.saveStep resultsDir fluxName 1 (TimeScheme.tick w1))
    as [w2 | f] eqn:E2; simpl bind.
  - destruct H as [[Hsf Hf] | [Hq Hp]].
    + exfalso. unfold TimeScheme.saveStep in E2. rewrite Et in E2.
      simpl in E2. rewrite Hf, Hsf in E2. discriminate E2.
    + apply saveStep_self in E2.
      rewrite probeStep_undefined; [reflexivity | |].
      * rewrite E2, Et. exact Hp.
      * rewrite E2, Et. exact Hq.
  - apply saveStep_fault in E2; [| exact Hsnap1 | lia]. rewrite E2. reflexivity.
Qed.

Lemma solve_divides_in_first_pass : forall v (w : World D) fuel,
  shaped w -> snapshotReady (self w) -> resolvable (self w) ->
  dltb (_currentTime (self w)) (_finalTime (self w)) = true ->
  (getSaveFrequency (_DF (self w)) = 0 /\
   isSaveFinalTimeOnly (_DF (self w)) = false) \/
  (Z.quot (getSaveFrequency (_DF (self w))) 10 = 0 /\
   _nProbes (self w) <> 0) ->
  (0 < fuel)%nat ->
  solve v fuel w = Some (Fault DivisionByZero).
Proof.
  intros v w fuel Hs Hsnap Hres Hlt H Hfuel.
  unfold solve, TimeScheme.solve.
  destruct (@prologue_ok D SD (getResultsDirectory (_DF (self w)))
              (getFluxName (_finVol (self w))) w Hsnap Hres)
    as (w1 & ix & E1 & Es1 & _).
  rewrite E1.
  destruct fuel as [| fuel]; [lia |]. simpl TimeScheme.timeLoop.
  rewrite Es1. simpl _currentTime. simpl _finalTime. rewrite Hlt.
  rewrite loopBody_divides_by_zero; [reflexivity | | |].
  - apply shaped_same with (a := w); [| exact Hs].
    unfold sameStepping. rewrite Es1. reflexivity.
  - rewrite Es1. exact Hsnap.
  - rewrite Es1. exact H.
Qed.

Lemma solve_divides_at_the_end : forall v (w : World D) (k fuel : nat),
  shaped w -> snapshotReady (self w) -> resolvable (self w) ->
  getSaveFrequency (_DF (self w)) = 0 ->
  isSaveFinalTimeOnly (_DF (self w)) = true ->
  k = 0%nat \/
  (_nProbes (self w) = 0 /\ getNumberOfProbes (_DF (self w)) = 0) ->
  Z.of_nat k <= INT_MAX ->
  (forall j, (j < k)%nat ->
     dltb (clockAfter (_currentTime (self w)) (_timeStep (self w)) j)
          (_finalTime (self w)) = true) ->
  dltb (clockAfter (_currentTime (self w)) (_timeStep (self w)) k)
       (_finalTime (self w)) = false ->
  (k <= fuel)%nat ->
  solve v fuel w = Some (Fault DivisionByZero).
Proof.
  intros v w k fuel Hs Hsnap Hres Hsf Hf Hk Hmax Hlt Hge Hfuel.
  unfold solve, TimeScheme.solve.
  destruct (@prologue_ok D SD (getResultsDirectory (_DF (self w)))
              (getFluxName (_finVol (self w))) w Hsnap Hres)
    as (w1 & ix & E1 & Es1 & _).
  rewrite E1.
  assert (Hc : _currentTime (self w1) = _currentTime (self w))
    by (rewrite Es1; reflexivity).
  assert (Hdt : _timeStep (self w1) = _timeStep (self w))
    by (rewrite Es1; reflexivity).
  assert (HT : _finalTime (self w1) = _finalTime (self w))
    by (rewrite Es1; reflexivity).
  assert (HDF : _DF (self w1) = _DF (self w)) by (rewrite Es1; reflexivity).
  assert (Hloop : exists w2 n,
            TimeScheme.timeLoop (oneStep v) (getResultsDirectory (_DF (self w)))
              (getFluxName (_finVol (self w))) fuel w1 0 = Some (Ok (w2, n))).
  { destruct Hk as [-> | [Hp Hnb]].
    - exists w1, 0. simpl in Hge.
      destruct fuel; simpl; rewrite Hc, HT, Hge; reflexivity.
    - assert (Hr1 : ready w1).
      { split; [| split; [| split]].
        - apply shaped_same with (a := w); [| exact Hs].
          unfold sameStepping. rewrite Es1. reflexivity.
        - rewrite Es1. exact Hsnap.
        - unfold probesReady. rewrite Es1. simpl. rewrite Hp, Hnb.
          split; [reflexivity |]. intros j Hj. simpl in Hj. lia.
        - unfold samplingDefined. rewrite Es1. simpl.
          split; left; assumption. }
      destruct (@timeLoop_passes D SD k v (getResultsDirectory (_DF (self w)))
                  (getFluxName (_finVol (self w))) w1 0 fuel Hr1)
        as (w2 & E2 & _); try lia; try (rewrite Hc, Hdt, HT; assumption).
      exists w2, (0 + Z.of_nat k). exact E2. }
  destruct Hloop as (w2 & n & E2). rewrite E2.
  apply timeLoop_DF in E2.
  rewrite epilogue_degenerate; [reflexivity | |]; rewrite E2, HDF; assumption.
Qed.

End Degenerate.

Lemma Basin_laid_out : forall T sf finalOnly,
  shaped (Basin.world T sf finalOnly) /\
  snapshotReady (self (Basin.world T sf finalOnly)) /\
  resolvable (self (Basin.world T sf finalOnly)).
Proof.
  intros T sf finalOnly. split; [| split].
  - intros S HS. simpl. split.
    + intros _. apply repeat_length.
    + apply mzero_length.
  - split; simpl; lia.
  - unfold resolvable. simpl. repeat split; try lia. discriminate.
Qed.

(** X24.  Sampling frequencies that make [solve] divide by zero, in every
    arithmetic, on an object whose providers answer one row per cell, whose
    cells all have a centre and a bottom height, and whose probes can be
    resolved.  An [int] division or remainder by zero is undefined
    behaviour in C++ (a build may trap, or go on with any value); the
    model stops there with the fault [DivisionByZero], so what is proved is
    that the run gets to that operation and to no other fault before it.
    When the clock starts below the final time and either the save
    frequency is 0 outside final-time-only mode (n % 0) or there are probes
    and the integer tenth of the save frequency is 0
    (n % (saveFrequency / 10)), the first pass of the loop gets there.
    When the save frequency is 0 in final-time-only mode, the number of the
    final snapshot (n / 0) gets there after the loop: at once when the
    clock starts at or past the final time, and after the k passes of the
    loop when there is no probe. *)
Theorem solve_reaches_a_division_by_zero :
  forall (D : Type) (SD : Scalar D) (v : Scheme) (w : World D),
    let this := self w in
    let sf := getSaveFrequency (_DF this) in
    shaped w -> snapshotReady this -> resolvable this ->
    (dltb (_currentTime this) (_finalTime this) = true ->
     (sf = 0 /\ isSaveFinalTimeOnly (_DF this) = false) \/
     (Z.quot sf 10 = 0 /\ _nProbes this <> 0) ->
     forall fuel, (0 < fuel)%nat ->
       solve v fuel w = Some (Fault DivisionByZero)) /\
    (sf = 0 -> isSaveFinalTimeOnly (_DF this) = true ->
     forall k fuel : nat,
       k = 0%nat \/
       (_nProbes this = 0 /\ getNumberOfProbes (_DF this) = 0) ->
       Z.of_nat k <= INT_MAX ->
       (forall j, (j < k)%nat ->
          dltb (clockAfter (_currentTime this) (_timeStep this) j)
               (_finalTime this) = true) ->
       dltb (clockAfter (_currentTime this) (_timeStep this) k)
            (_finalTime this) = false ->
       (k <= fuel)%nat ->
       solve v fuel w = Some (Fault DivisionByZero)).
Proof.
  intros D SD v w this sf Hs Hsnap Hres. subst this sf. split.
  - intros Hlt H fuel Hfuel.
    apply solve_divides_in_first_pass; assumption.
  - intros Hsf Hf k fuel Hk Hmax Hlt Hge Hfuel.
    apply (@solve_divides_at_the_end D SD v w k fuel); assumption.
Qed.

Lemma solve_reaches_a_division_by_zero_witness :
  solve SchemeRK2 5 (Basin.world 0.5%float 0 true)
    = Some (Fault DivisionByZero) /\
  solve SchemeExplicitEuler 1 (Basin.world 0.5%float 0 false)
    = Some (Fault DivisionByZero).
Proof.
  destruct (Basin_laid_out 0.5%float 0 true) as (Hs & Hsnap & Hres).
  destruct (Basin_laid_out 0.5%float 0 false) as (Hs' & Hsnap' & Hres').
  split.
  - apply (proj2 (@solve_reaches_a_division_by_zero float binary64 SchemeRK2
                    (Basin.world 0.5%float 0 true) Hs Hsnap Hres)
             eq_refl eq_refl 5%nat 5%nat).
    + right. split; reflexivity.
    + vm_compute. discriminate.
    + intros j Hj.
      do 5 (destruct j as [| j]; [vm_compute; reflexivity |]). lia.
    + vm_compute. reflexivity.
    + lia.
  - apply (proj1 (@solve_reaches_a_division_by_zero float binary64
                    SchemeExplicitEuler (Basin.world 0.5%float 0 false)
                    Hs' Hsnap' Hres')).
    + vm_compute. reflexivity.
    + left. split; reflexivity.
    + lia.
Defined.

(** X25.  [TimeScheme::Initialize] twice, in every arithmetic.  When it
    succeeds, running it again with the same collaborators succeeds and
    changes nothing.  Its resize of the index table keeps the entries the
    table already had, up to the probe count, and sets only the added ones
    to zero. *)
Theorem TimeScheme_Initialize_is_idempotent :
  forall (D : Type) (SD : Scalar D) (DF : DataFile D) mesh physics finVol
         (this this' : TimeScheme D),
    TimeScheme.Initialize DF mesh physics finVol this = Ok this' ->
    TimeScheme.Initialize DF mesh physics finVol this' = Ok this' /\
    (forall k, (k < length (_probesIndices this))%nat ->
               (k < Z.to_nat (getNumberOfProbes DF))%nat ->
       nth_error (_probesIndices this') k = nth_error (_probesIndices this) k) /\
    (forall k, (length (_probesIndices this) <= k)%nat ->
               (k < Z.to_nat (getNumberOfProbes DF))%nat ->
       nth_error (_probesIndices this') k = Some 0).
Proof.
  intros D SD DF mesh physics finVol this this' H.
  unfold TimeScheme.Initialize, vector_resize in *.
  destruct (Z.ltb_spec (getNumberOfProbes DF) 0) as [Hneg | Hnb];
    simpl in H; [discriminate H |].
  injection H as <-. simpl.
  set (n := Z.to_nat (getNumberOfProbes DF)).
  set (old := _probesIndices this).
  assert (L : length (firstn n old ++ repeat 0 (n - length old)) = n).
  { rewrite length_app, length_firstn, repeat_length. lia. }
  split; [| split].
  - rewrite L, Nat.sub_diag. simpl. rewrite app_nil_r.
    rewrite (firstn_all2 (n := n)) by lia. reflexivity.
  - intros k Hk Hn. rewrite nth_error_app1 by (rewrite length_firstn; lia).
    rewrite nth_error_firstn.
    destruct (Nat.ltb_spec k n); [reflexivity | lia].
  - intros k Hk Hn. rewrite nth_error_app2 by (rewrite length_firstn; lia).
    rewrite length_firstn.
    apply nth_error_repeat. lia.
Qed.

Lemma TimeScheme_Initialize_is_idempotent_witness :
  TimeScheme.Initialize Lake.DF Lake.mesh Lake.physics Lake.finVol Lake.object
    = Ok Lake.object /\
  (forall k, (k < 1)%nat -> (k < 1)%nat ->
     nth_error (_probesIndices Lake.object) k = nth_error [0] k).
Proof.
  destruct (@TimeScheme_Initialize_is_idempotent float binary64 Lake.DF Lake.mesh
              Lake.physics Lake.finVol Lake.object Lake.object) as (H1 & H2 & _).
  - reflexivity.
  - split; [exact H1 | exact H2].
Defined.

Lemma for_each_all : forall (A St : Type) (g : A -> St -> result St)
    (l : list A) (s s' : St),
  for_each g l s = Ok s' ->
  forall a, In a l -> exists x x', g a x = Ok x'.
Proof.
  intros A St g l. induction l as [| b l IH]; intros s s' H a Ha; simpl in *.
  - contradiction.
  - destruct (g b s) as [s1 | f] eqn:E; simpl in H; [| discriminate H].
    destruct Ha as [<- | Ha]; [exists s, s1; exact E |].
    apply (IH s1 s' H a Ha).
Qed.

Lemma for_each_fault : forall (A St : Type) (P : fault -> Prop)
    (g : A -> St -> result St) (l : list A) (s : St) (f : fault),
  (forall a x e, g a x = Fault e -> P e) ->
  for_each g l s = Fault f -> P f.
Proof.
  intros A St P g l. induction l as [| a l IH]; intros s f Hg H; simpl in H.
  - discriminate H.
  - destruct (g a s) as [s1 | e] eqn:E; simpl in H.
    + apply (IH s1 f Hg H).
    + injection H as <-. apply (Hg a s e E).
Qed.

Lemma index_fault : forall (A : Type) (l : list A) (i : Z) (f : fault),
  index l i = Fault f -> f = OutOfRange.
Proof.
  intros A l i f H. unfold index in H.
  destruct (i <? 0); [injection H as <-; reflexivity |].
  destruct (nth_error l (Z.to_nat i)); [discriminate H |].
  injection H as <-. reflexivity.
Qed.

Lemma index_inv : forall (A : Type) (l : list A) (k : nat) (a : A),
  index l (Z.of_nat k) = Ok a -> (k < length l)%nat.
Proof.
  intros A l k a H.
  destruct (Nat.le_gt_cases (length l) k) as [Hle | Hlt]; [| exact Hlt].
  rewrite (index_beyond _ Hle) in H. discriminate H.
Qed.

Section ResolveFaults.
Context {D : Type} {SD : Scalar D}.

Lemma nearestCell_fault : forall (centers : list D) nbCells pos f,
  TimeScheme.nearestCell centers nbCells pos = Fault f -> f = OutOfRange.
Proof.
  intros centers nbCells pos f H. unfold TimeScheme.nearestCell in H.
  destruct (index centers 0) as [c0 | e] eqn:E0; simpl in H.
  - destruct (for_each _ _ _) as [st | e] eqn:E1 in H; simpl in H;
      [discriminate H |].
    injection H as <-.
    apply (for_each_fault (fun e => e = OutOfRange)) in E1; [exact E1 |].
    intros k st e' Hk. unfold TimeScheme.closer in Hk.
    destruct (index centers k) as [x | e''] eqn:Ex; simpl in Hk.
    + destruct (dltb _ _); discriminate Hk.
    + injection Hk as <-. apply (index_fault _ _ Ex).
  - injection H as <-. apply (index_fault _ _ E0).
Qed.

Lemma nearestCell_inv : forall (centers : list D) nbCells pos z,
  TimeScheme.nearestCell centers nbCells pos = Ok z ->
  centers <> [] /\ nbCells <= Z.of_nat (length centers).
Proof.
  intros centers nbCells pos z H. unfold TimeScheme.nearestCell in H.
  destruct (index centers 0) as [c0 | e] eqn:E0; simpl in H; [| discriminate H].
  destruct (for_each _ _ _) as [st | e] eqn:E1 in H; simpl in H;
    [| discriminate H].
  split.
  - intros ->. discriminate E0.
  - destruct (Z.le_gt_cases nbCells (Z.of_nat (length centers))) as [Hle | Hgt];
      [exact Hle |].
    exfalso.
    destruct (@for_each_all _ _ _ _ _ _ E1 (Z.of_nat (length centers)))
      as (x & x' & Hx).
    + unfold upto. apply in_map. apply in_seq. lia.
    + unfold TimeScheme.closer in Hx.
      rewrite index_beyond in Hx by lia. discriminate Hx.
Qed.

End ResolveFaults.

(** X26.  When [buildProbesCellIndices] stays within its containers, in
    every arithmetic.  With at least one probe, a run reads the centres and
    the position table and writes the index table inside their bounds
    only, and then returns, exactly when the mesh has at least one centre,
    its cell count does not exceed the number of centres, and the position
    table and the index table have an entry for every probe.  In every
    other case the run gets to a read or a write out of bounds, and to no
    other fault.  The model stops there with the fault [OutOfRange]; in
    C++ the two tables are std::vector read and written through the
    unchecked [operator[]], so the access is undefined behaviour and a
    build may go on with whatever it finds there. *)
Theorem buildProbesCellIndices_in_bounds_iff_resolvable :
  forall (D : Type) (SD : Scalar D) (this : TimeScheme D),
    0 < _nProbes this ->
    ((exists this', TimeScheme.buildProbesCellIndices this = Ok this') <->
       resolvable this) /\
    (forall f, TimeScheme.buildProbesCellIndices this = Fault f ->
               f = OutOfRange).
Proof.
  intros D SD this Hnp. split; [split |].
  - intros (this' & H).
    unfold TimeScheme.buildProbesCellIndices in H.
    assert (Hthis : with_probesIndices this (_probesIndices this) = this)
      by (destruct this; reflexivity).
    pose proof (@resolve_loop D SD this (upto (_nProbes this))
                  (_probesIndices this) this') as R.
    rewrite Hthis in R. specialize (R H). clear H.
    destruct R as (ix' & -> & L & Hin & _).
    set (last := (Z.to_nat (_nProbes this) - 1)%nat).
    destruct (Hin (Z.of_nat last)) as (v & Hv & _ & Hn).
    { unfold upto. apply in_map. apply in_seq. unfold last. lia. }
    unfold resolved in Hv.
    destruct (index (_probesPos this) (Z.of_nat last)) as [pos |] eqn:Ep;
      simpl in Hv; [| discriminate Hv].
    apply index_inv in Ep. apply nearestCell_inv in Hv. destruct Hv as [Hne Hnb].
    rewrite Nat2Z.id in Hn.
    assert (Hlast : (last < length ix')%nat)
      by (apply nth_error_Some; rewrite Hn; discriminate).
    unfold resolvable. repeat split; try assumption; unfold last in *; lia.
  - intros Hr.
    destruct (@buildProbesCellIndices_ok D SD this Hr) as (ix & E & _).
    eexists. exact E.
  - intros f H. unfold TimeScheme.buildProbesCellIndices in H.
    apply (for_each_fault (fun e => e = OutOfRange)) in H; [exact H |].
    intros i ts e Hi.
    destruct (index (_probesPos ts) i) as [pos | e1] eqn:E1; simpl in Hi;
      [| injection Hi as <-; apply (index_fault _ _ E1)].
    destruct (TimeScheme.nearestCell _ _ pos) as [idx | e2] eqn:E2; simpl in Hi;
      [| injection Hi as <-; apply (nearestCell_fault _ _ _ E2)].
    unfold assign in Hi. destruct (_ && _); simpl in Hi; [discriminate Hi |].
    injection Hi as <-. reflexivity.
Qed.

Lemma buildProbesCellIndices_in_bounds_iff_resolvable_witness :
  ((exists this', TimeScheme.buildProbesCellIndices FiveCells.object = Ok this')
     <-> resolvable FiveCells.object) /\
  (forall f, TimeScheme.buildProbesCellIndices FiveCells.object = Fault f ->
             f = OutOfRange).
Proof.
  apply (@buildProbesCellIndices_in_bounds_iff_resolvable float binary64
           FiveCells.object).
  reflexivity.
Defined.

(* ================================================================= *)
(** ** The linear test equation, and the pass counter *)

Section LinearTest.
Local Open Scope R_scope.

Lemma linear_shaped : forall rate w, linearSource rate w -> shaped w.
Proof.
  intros rate w [HF HS] S E. split.
  - intros t. rewrite HF. apply mzero_length.
  - rewrite HS. apply mscale_length.
Qed.

Lemma self_rows : forall S : Matrix R, S = map (fun r => r) S.
Proof. intros S. rewrite map_id. reflexivity. Qed.

Ltac rows_as_maps :=
  repeat first [rewrite mscale_map | rewrite mplus_map | rewrite mdivs_map].

Lemma stage_linear : forall rate (w : World R) t S,
  linearSource rate w -> getSpaceStep (_mesh (self w)) <> 0 ->
  stage w t S = mscale rate S.
Proof.
  intros rate w t S [HF HS] Hdx. unfold stage. rewrite HF, HS.
  rewrite (mzero_map S). rewrite (self_rows S) at 2 3.
  rows_as_maps. apply map_ext. intros r. simpl.
  apply injective_projections; simpl; field; exact Hdx.
Qed.

Lemma update_linear : forall v rate (w : World R),
  linearSource rate w -> getSpaceStep (_mesh (self w)) <> 0 ->
  update v w = mscale (growth v (rate * _timeStep (self w))) (_Sol (self w)).
Proof.
  intros v rate w H Hdx. destruct v; simpl.
  - unfold eulerUpdate. rewrite (stage_linear _ _ H Hdx).
    rewrite (self_rows (_Sol (self w))).
    rows_as_maps. apply map_ext. intros r. simpl.
    apply injective_projections; simpl; ring.
  - unfold rk2Update, rk2k2, rk2trial, rk2k1.
    rewrite !(stage_linear _ _ H Hdx).
    rewrite (self_rows (_Sol (self w))).
    rows_as_maps. apply map_ext. intros r. simpl.
    apply injective_projections; simpl; field.
Qed.

Lemma mscale_mscale : forall (a b : R) (S : Matrix R),
  mscale a (mscale b S) = mscale (a * b) S.
Proof.
  intros a b S. unfold mscale. rewrite map_map. apply map_ext. intros r. simpl.
  apply injective_projections; simpl; ring.
Qed.

Lemma linear_step : forall rate (w w' : World R),
  linearSource rate w -> steppedFrom w w' ->
  linearSource rate (TimeScheme.tick w').
Proof.
  intros rate w w' H [E _]. unfold linearSource, TimeScheme.tick in *. simpl.
  rewrite E. simpl. exact H.
Qed.

Lemma advance_linear : forall v rate k (w : World R),
  linearSource rate w -> getSpaceStep (_mesh (self w)) <> 0 ->
  exists w', advance v k w = Ok w' /\
    _Sol (self w') =
      mscale (growth v (rate * _timeStep (self w)) ^ k) (_Sol (self w)).
Proof.
  intros v rate k. induction k as [| k IH]; intros w H Hdx.
  - exists w. split; [reflexivity |]. simpl. unfold mscale.
    rewrite <- (map_id (_Sol (self w))) at 1.
    apply map_ext. intros r. destruct r. simpl. f_equal; ring.
  - assert (Hs := linear_shaped H).
    destruct (@oneStep_shaped R exact v w Hs) as (w1 & E1 & S1 & Fr).
    rewrite (update_linear v H Hdx) in S1.
    assert (Fr' := Fr). destruct Fr' as (Eself & _).
    destruct (IH (TimeScheme.tick w1)) as (w' & E' & S').
    + apply (linear_step H Fr).
    + unfold TimeScheme.tick. simpl. rewrite Eself. simpl. exact Hdx.
    + exists w'. split.
      * simpl. rewrite E1. simpl. exact E'.
      * rewrite S'. unfold TimeScheme.tick. simpl. rewrite Eself. simpl.
        rewrite S1, mscale_mscale. f_equal. ring.
Qed.

End LinearTest.

(** X27.  The linear test equation, in exact arithmetic.  With no flux, a
    source term equal to rate * State and a nonzero spacing, k passes of
    Explicit Euler multiply the state by (1 + z)^k and k passes of RK2 by
    (1 + z + z^2 / 2)^k, where z = rate * time step. *)
Theorem linear_test_equation_growth :
  forall (v : Scheme) (rate : R) (k : nat) (w : World R),
    linearSource rate w ->
    getSpaceStep (_mesh (self w)) <> 0%R ->
    exists w',
      advance v k w = Ok w' /\
      _Sol (self w') =
        mscale (growth v (rate * _timeStep (self w)) ^ k)%R (_Sol (self w)).
Proof.
  intros v rate k w H Hdx. apply advance_linear; assumption.
Qed.

Lemma linear_test_equation_growth_witness :
  exists w',
    advance SchemeRK2 2 Decay.world = Ok w' /\
    _Sol (self w') =
      mscale (growth SchemeRK2 (- (1) * (1 / 2)) ^ 2)%R [(1, 0); (2, 1)]%R.
Proof.
  apply (@linear_test_equation_growth SchemeRK2 (- (1))%R 2 Decay.world).
  - split; intros; reflexivity.
  - simpl. lra.
Defined.

Section Overflow.
Context {D : Type} {SD : Scalar D}.

(** The pass that would bring the counter past the largest [int]. *)
Lemma loopBody_overflow : forall v resultsDir fluxName (w : World D),
  ready w ->
  TimeScheme.loopBody (oneStep v) resultsDir fluxName w INT_MAX
    = Fault SignedOverflow.
Proof.
  intros v resultsDir fluxName w Hr. unfold TimeScheme.loopBody.
  destruct (@oneStep_shaped D SD v w (proj1 Hr)) as (w1 & E1 & _).
  rewrite E1. reflexivity.
Qed.

Lemma timeLoop_overflow : forall k v resultsDir fluxName (w : World D) n fuel,
  ready w -> 0 <= n -> n + Z.of_nat k = INT_MAX ->
  (forall j, (j <= k)%nat ->
     dltb (clockAfter (_currentTime (self w)) (_timeStep (self w)) j)
          (_finalTime (self w)) = true) ->
  (k < fuel)%nat ->
  TimeScheme.timeLoop (oneStep v) resultsDir fluxName fuel w n
    = Some (Fault SignedOverflow).
Proof.
  induction k as [| k IH]; intros v resultsDir fluxName w n fuel Hr Hn Hmax Hlt Hf;
    (destruct fuel as [| fuel]; [lia |]);
    assert (H0 := Hlt 0%nat ltac:(lia)); simpl in H0;
    simpl TimeScheme.timeLoop; rewrite H0.
  - replace n with INT_MAX by lia. rewrite loopBody_overflow by exact Hr.
    reflexivity.
  - destruct (@loopBody_ok D SD v resultsDir fluxName w n Hr) as (w1 & E1 & Es1);
      [lia |].
    rewrite E1. apply IH; try lia.
    + eapply ready_moved; [exact Hr | exact Es1 |].
      apply update_length. apply Hr.
    + intros j Hj. rewrite Es1. simpl. apply (Hlt (S j)). lia.
Qed.

Lemma solve_overflow : forall v (DF : DataFile D) mesh physics finVol (w : World D)
    fuel,
  configured DF mesh physics finVol ->
  self w = constructed DF mesh physics finVol ->
  (forall j, Z.of_nat j <= INT_MAX ->
     dltb (clockAfter (getInitialTime DF) (getTimeStep DF) j) (getFinalTime DF)
       = true) ->
  INT_MAX < Z.of_nat fuel ->
  solve v fuel w = Some (Fault SignedOverflow).
Proof.
  intros v DF mesh physics finVol w fuel Hc Hw Hlt Hf.
  destruct Hc as (HN & Hcells & Hcen & Htopo & Hprov & Hnb & Hrefs & Hpos & Hsf & Hq & Hex).
  unfold solve, TimeScheme.solve.
  destruct (@prologue_events D SD (getResultsDirectory (_DF (self w)))
              (getFluxName (_finVol (self w))) w)
    as (w1 & ix & E1 & Es1 & Lix & Hix & _).
  { rewrite Hw. split; simpl; lia. }
  { rewrite Hw. unfold resolvable. simpl. rewrite repeat_length.
    repeat split; try lia.
    intros E. rewrite E in Hcen. simpl in Hcen. lia. }
  rewrite E1.
  assert (Hr1 : ready w1).
  { unfold ready, shaped, snapshotReady, probesReady, samplingDefined.
    rewrite Es1, Hw. simpl. repeat split; try lia.
    - apply (Hprov S H).
    - apply (Hprov S H).
    - destruct (Hix k) as (idx & Hn & Hi); [rewrite Hw; simpl; exact H |].
      exists idx. rewrite Hw in Hi. simpl in Hi. repeat split; try assumption; lia. }
  rewrite (@timeLoop_overflow (Z.to_nat INT_MAX) v _ _ w1 0 fuel Hr1);
    [reflexivity | lia | unfold INT_MAX; lia | | unfold INT_MAX in *; lia].
  intros j Hj. rewrite Es1, Hw. simpl. apply Hlt. unfold INT_MAX in *. lia.
Qed.

End Overflow.

(** X28.  The pass counter is an [int].  On a configured object, in every
    arithmetic, when the clock is still below the final time after each of
    the first 2147483647 passes, [solve] stops on the signed overflow of
    its counter: the increment that follows is undefined in C++. *)
Theorem pass_counter_overflows :
  forall (D : Type) (SD : Scalar D) (v : Scheme) (DF : DataFile D) mesh physics
         finVol (w : World D) (fuel : nat),
    configured DF mesh physics finVol ->
    self w = constructed DF mesh physics finVol ->
    (forall j, Z.of_nat j <= INT_MAX ->
       dltb (clockAfter (getInitialTime DF) (getTimeStep DF) j)
            (getFinalTime DF) = true) ->
    INT_MAX < Z.of_nat fuel ->
    solve v fuel w = Some (Fault SignedOverflow).
Proof.
  intros D SD v DF mesh physics finVol w fuel. apply solve_overflow.
Qed.

Lemma pass_counter_overflows_witness :
  solve SchemeExplicitEuler (Z.to_nat (INT_MAX + 1)) Stalled.world
    = Some (Fault SignedOverflow).
Proof.
  apply (@pass_counter_overflows float binary64 SchemeExplicitEuler Stalled.DF
           Basin.mesh Basin.physics Basin.finVol Stalled.world).
  - exact Stalled_configured.
  - reflexivity.
  - intros j _.
    rewrite (@clockAfter_stalled float binary64 _ _ j);
      [vm_compute; reflexivity | vm_compute; reflexivity].
  - rewrite Z2Nat.id; unfold INT_MAX; lia.
Defined.
